(** * Vaonis instrument client: authorization header, key resolution,
      unified HTTP client and command channel

    A shallow embedding of
      - [src/node/vaonis_instruments_unified/src/auth.js],
      - [src/node/vaonis_instruments_unified/src/unified_client.js],
      - the Socket.IO client ([VaonisSocketClient]),
      - the path check and the choice of the key of
        [tools/extract_auth_key.js],
    with the properties of these functions that the specification states,
    and further properties that the code shows.

    Conventions of the embedding.
      - A JavaScript string is a [string]: one [ascii] per code unit, so the
        strings of the model are the ones whose code units are below 256
        (the challenge, identifiers, paths, URLs and headers of this
        protocol are ASCII).
      - A [Buffer]/[Uint8Array] is a list of [byte].
      - A thrown [Error] is a value of [error]: one constructor per [throw]
        site, carrying what the site interpolates into the message;
        [message] gives the text the JavaScript error carries.
      - Functions that throw return a [result]; functions that touch the
        file system, the network or the socket thread a log of what they
        did. *)

From Stdlib Require Import ZArith NArith List String Ascii Lia Bool.
From Stdlib Require Import Strings.Byte.
From Bignums Require Import BigN.
From stdpp Require Import base option strings pretty list gmap.

Local Open Scope string_scope.
Local Open Scope N_scope.
Local Open Scope list_scope.

Abbreviation bytes := (list byte).

(** The byte of a number below 256. *)
Definition byte_of_N (n : N) : byte :=
  match Byte.of_N n with
  | Some b => b
  | None => x00
  end.

(** ** Strings *)

Module Str.

(** [s.startsWith(p)] *)
Fixpoint startsWith (s p : string) {struct p} : bool :=
  match p, s with
  | EmptyString, _ => true
  | String c p', String d s' => if Ascii.eqb c d then startsWith s' p' else false
  | String _ _, EmptyString => false
  end.

(** [s.includes(p)] *)
Fixpoint includes (s p : string) : bool :=
  startsWith s p ||
  match s with
  | EmptyString => false
  | String _ s' => includes s' p
  end.

(** [s.endsWith(p)]: some suffix of [s] is [p]. *)
Fixpoint endsWith (s p : string) : bool :=
  String.eqb s p ||
  match s with
  | EmptyString => false
  | String _ s' => endsWith s' p
  end.

(** [s.slice(1)] *)
Definition slice1 (s : string) : string :=
  match s with
  | EmptyString => EmptyString
  | String _ s' => s'
  end.

(** [s[0]] of a non-empty string, as a string of length one. *)
Definition head (s : string) : string :=
  match s with
  | EmptyString => EmptyString
  | String c _ => String c EmptyString
  end.

(** Drops the longest prefix of characters satisfying [p]. *)
Fixpoint dropWhile (p : ascii -> bool) (s : string) : string :=
  match s with
  | EmptyString => EmptyString
  | String c s' => if p c then dropWhile p s' else s
  end.

(** Drops the longest suffix of characters satisfying [p]:
    [s.replace(/[...]+$/, "")]. *)
Fixpoint dropWhileEnd (p : ascii -> bool) (s : string) : string :=
  match s with
  | EmptyString => EmptyString
  | String c s' =>
      match dropWhileEnd p s' with
      | EmptyString => if p c then EmptyString else String c EmptyString
      | rest => String c rest
      end
  end.

Definition is_slash (c : ascii) : bool := Ascii.eqb c "/".
Definition is_sep (c : ascii) : bool := Ascii.eqb c "/" || Ascii.eqb c "\".

(** White space in the sense of [String.prototype.trim], among the code
    units below 256: TAB, LF, VT, FF, CR, SP and NBSP. *)
Definition is_space (c : ascii) : bool :=
  let n := N_of_ascii c in
  ((9 <=? n) && (n <=? 13)) || (n =? 32) || (n =? 160).

Definition notSpace (c : ascii) : bool := negb (is_space c).

(** [s.trim()] *)
Definition trim (s : string) : string :=
  dropWhileEnd is_space (dropWhile is_space s).

(** [s.toLowerCase()] on the code units below 256: A-Z, and the Latin-1
    capitals 192..222 except the multiplication sign 215. *)
Definition lower_char (c : ascii) : ascii :=
  let n := N_of_ascii c in
  if ((65 <=? n) && (n <=? 90)) || ((192 <=? n) && (n <=? 222) && negb (n =? 215))
  then ascii_of_N (n + 32) else c.

Fixpoint toLowerCase (s : string) : string :=
  match s with
  | EmptyString => EmptyString
  | String c s' => String (lower_char c) (toLowerCase s')
  end.

(** [Buffer.from(s, "utf-8")] on code units below 256. *)
Fixpoint utf8 (s : string) : bytes :=
  match s with
  | EmptyString => []
  | String c s' =>
      let n := N_of_ascii c in
      (if n <? 128 then [byte_of_ascii c]
       else [byte_of_N (192 + n / 64); byte_of_N (128 + n mod 64)]) ++ utf8 s'
  end.

(** Every character of [s] satisfies [p]. *)
Fixpoint all (p : ascii -> bool) (s : string) : bool :=
  match s with
  | EmptyString => true
  | String c s' => p c && all p s'
  end.

(** [parts.join(sep)] *)
Fixpoint join (sep : string) (parts : list string) : string :=
  match parts with
  | [] => ""
  | [p] => p
  | p :: rest => p +:+ sep +:+ join sep rest
  end.

End Str.

(** ** JavaScript values *)

#[local] Set Warnings "-register-all".

(** The values that reach the client as query parameters and as command
    payloads: the JSON values and [undefined].  Numbers are the
    integer-valued ones that print in plain decimal. *)
Inductive value : Type :=
| Undefined
| Null
| Bool (b : bool)
| Num (n : Z)
| Text (s : string)
| Arr (items : list value)
| Obj (fields : list (string * value)).

(** [String(v)]: the conversion the template literals and [buildQuery]
    apply.  An array prints its elements joined by commas, [null] and
    [undefined] elements printing as the empty string; a plain object
    prints as [[object Object]]. *)
Fixpoint ToString (v : value) : string :=
  match v with
  | Undefined => "undefined"
  | Null => "null"
  | Bool true => "true"
  | Bool false => "false"
  | Num n => pretty n
  | Text s => s
  | Arr items =>
      Str.join ","
        (map (fun x => match x with
                       | Undefined | Null => ""
                       | _ => ToString x
                       end) items)
  | Obj _ => "[object Object]"
  end.


(** ** Errors *)

Inductive error : Type :=
| InvalidChallenge
| UnsupportedKeyLength (len : nat)
| KeyMaterialNotFound
| PathNotAllowed (resolved : string)
| BaseUrlNotDetected
| UnknownOperation (operationId : string)
| HttpError (text : string)
| SyntaxError
| TypeError (what : string)
| FsError (path : string)
| NetworkError.

(** The text of the [Error] each [throw] of the repository carries; the
    errors that the runtime and its libraries raise ([SyntaxError],
    [TypeError], file-system and network errors) carry texts of their
    own. *)
Definition message (e : error) : option string :=
  match e with
  | InvalidChallenge => Some "challenge must include a prefix + base64 payload"
  | UnsupportedKeyLength len =>
      Some ("Unexpected Ed25519 key length: " +:+ pretty len +:+ " bytes")
  | KeyMaterialNotFound =>
      Some "Authorization key file not found. Set VAONIS_AUTH_KEY_FILE or pass keyMaterial."
  | PathNotAllowed resolved => Some ("Key file path is outside allowed roots: " +:+ resolved)
  | BaseUrlNotDetected => Some "Unable to detect a working base URL"
  | UnknownOperation operationId => Some ("Unknown operationId: " +:+ operationId)
  | HttpError text => Some text
  | SyntaxError | TypeError _ | FsError _ | NetworkError => None
  end.

Inductive result (A : Type) : Type :=
| Ok (a : A)
| Throw (e : error).
Arguments Ok {A} a.
Arguments Throw {A} e.

Definition rbind {A B} (r : result A) (k : A -> result B) : result B :=
  match r with
  | Ok a => k a
  | Throw e => Throw e
  end.

Notation "'let*' x := r 'in' k" := (rbind r (fun x => k))
  (at level 10, x name, r at level 100, k at level 200).

(** ** Query strings: [URLSearchParams] and [buildQuery] *)

Module Query.

(** The list of name-value pairs of a [URLSearchParams] object. *)
Abbreviation searchParams := (list (string * string)).

(** [searchParams.append(name, value)] *)
Definition append (q : searchParams) (name val : string) : searchParams :=
  q ++ [(name, val)].

Definition named (name : string) (p : string * string) : bool :=
  String.eqb name (fst p).

(** [searchParams.set(name, value)]: the first pair called [name] takes the
    value and the other pairs called [name] are removed; without such a
    pair, the pair is appended. *)
Fixpoint set (q : searchParams) (name val : string) : searchParams :=
  match q with
  | [] => [(name, val)]
  | p :: q' =>
      if named name p
      then (name, val) :: List.filter (fun p' => negb (named name p')) q'
      else p :: set q' name val
  end.

(** The pairs an array of items contributes under a key: one per item. *)
Definition arrayPairs (key : string) (items : list value) : searchParams :=
  map (fun item => (key, ToString item)) items.

(** What one turn of the loop over [Object.entries(params)] makes of the
    pairs. *)
Definition addEntry (q : searchParams) (entry : string * value) : searchParams :=
  let '(key, v) := entry in
  match v with
  | Arr items => fold_left (fun q item => append q key (ToString item)) items q
  | Undefined | Null => q
  | _ => set q key (ToString v)
  end.

(** What [buildQuery(url, params)] makes of the search parameters of
    [url].  [params] is [None] when the caller passes [null] or
    [undefined], and otherwise the entries of the object in the order of
    [Object.entries]. *)
Definition buildQuery (q : searchParams) (params : option (list (string * value)))
  : searchParams :=
  match params with
  | None => q
  | Some entries => fold_left addEntry entries q
  end.

(** *** Serialization ([application/x-www-form-urlencoded]) *)

Definition hexdigit (n : N) : ascii :=
  ascii_of_N (if n <? 10 then 48 + n else 55 + n).

(** A byte stays as it is when it is an ASCII letter or digit or one of
    [*-._]; a space becomes [+]; every other byte becomes [%XX]. *)
Definition encodeByte (x : byte) : string :=
  let b := Byte.to_N x in
  if ((48 <=? b) && (b <=? 57)) || ((65 <=? b) && (b <=? 90))
     || ((97 <=? b) && (b <=? 122))
     || (b =? 42) || (b =? 45) || (b =? 46) || (b =? 95)
  then String (ascii_of_N b) ""
  else if b =? 32 then "+"
  else String "%" (String (hexdigit (b / 16)) (String (hexdigit (b mod 16)) "")).

Definition encode (s : string) : string :=
  String.concat "" (map encodeByte (Str.utf8 s)).

Definition serialize (q : searchParams) : string :=
  Str.join "&" (map (fun p => encode (fst p) +:+ "=" +:+ encode (snd p)) q).

End Query.

(** A parsed [URL]: what precedes the query; the query as the URL carries
    it, with its question mark (empty when there is none); the search
    parameters, which [new URL] reads from that query; and the fragment with
    its [#] (empty when there is none). *)
Record URL : Type := mkURL {
  url_base : string;
  url_search : string;
  url_searchParams : Query.searchParams;
  url_hash : string
}.

(** [url.toString()]: the query is printed as the URL carries it. *)
Definition URL_toString (u : URL) : string :=
  url_base u +:+ url_search u +:+ url_hash u.

(** What a change of the search parameters does to their URL: its query
    becomes the serialization of the pairs, and no query when there is no
    pair. *)
Definition URL_update (url : URL) (q : Query.searchParams) : URL :=
  mkURL (url_base url)
        (match q with
         | [] => ""
         | _ => "?" +:+ Query.serialize q
         end)
        q
        (url_hash url).


(** [url.searchParams.append(name, value)] and
    [url.searchParams.set(name, value)] *)
Definition searchParams_append (url : URL) (name val : string) : URL :=
  URL_update url (Query.append (url_searchParams url) name val).

Definition searchParams_set (url : URL) (name val : string) : URL :=
  URL_update url (Query.set (url_searchParams url) name val).

(** One turn of the loop of [buildQuery] over [Object.entries(params)]. *)
Definition buildQuery_turn (url : URL) (entry : string * value) : URL :=
  let '(key, v) := entry in
  match v with
  | Arr items => fold_left (fun u item => searchParams_append u key (ToString item)) items url
  | Undefined | Null => url
  | _ => searchParams_set url key (ToString v)
  end.

(** [buildQuery(url, params)]: updates [url.searchParams] and returns
    [url].  [params] is [None] when the caller passes [null] or
    [undefined], and otherwise the entries of the object in the order of
    [Object.entries]; their values are data values, on which [String]
    never throws. *)
Definition buildQuery (url : URL) (params : option (list (string * value))) : URL :=
  match params with
  | None => url
  | Some entries => fold_left buildQuery_turn entries url
  end.

(** *** Parameters of any kind

    [params] is declared as [Record<string, any>]: an entry may hold a value
    that is no data value, and [String] may throw on it (it throws a
    [TypeError] on an object that has neither [toString] nor [valueOf], such
    as [Object.create(null)]).  Of the value of an entry [buildQuery] makes
    three uses: [Array.isArray(value)], the comparison with [undefined] and
    [null], and [String] of the value or of its elements.  A value of any
    kind is given by these. *)

Module AnyParams.

Inductive paramValue : Type :=
| Items (conversions : list (result string))   (* an array: [String(item)] of each item *)
| Nullish                                      (* [undefined] or [null] *)
| Single (conversion : result string).         (* any other value: [String(value)] *)

(** The loop over the items of an array. *)
Fixpoint appendItems (url : URL) (key : string) (conversions : list (result string))
  : result URL :=
  match conversions with
  | [] => Ok url
  | conversion :: rest =>
      let* text := conversion in
      appendItems (searchParams_append url key text) key rest
  end.

(** One turn of the loop of [buildQuery]. *)
Definition buildQuery_turn (url : URL) (entry : string * paramValue) : result URL :=
  let '(key, v) := entry in
  match v with
  | Items conversions => appendItems url key conversions
  | Nullish => Ok url
  | Single conversion =>
      let* text := conversion in
      Ok (searchParams_set url key text)
  end.

Fixpoint buildQuery_loop (url : URL) (entries : list (string * paramValue)) : result URL :=
  match entries with
  | [] => Ok url
  | entry :: rest =>
      let* url' := buildQuery_turn url entry in
      buildQuery_loop url' rest
  end.

(** [buildQuery(url, params)] on parameters of any kind: the URL it
    returns, or the error that [String] throws. *)
Definition buildQuery (url : URL) (params : option (list (string * paramValue)))
  : result URL :=
  match params with
  | None => Ok url
  | Some entries => buildQuery_loop url entries
  end.







End AnyParams.

(** ** Paths: [path.resolve] on a POSIX platform *)

Module Path.

(** [s.split("/")] *)
Fixpoint split (s : string) : list string :=
  match s with
  | EmptyString => [""]
  | String c s' =>
      if Str.is_slash c then "" :: split s'
      else match split s' with
           | seg :: rest => String c seg :: rest
           | [] => [String c ""]
           end
  end.

Definition notSlash (c : ascii) : bool := negb (Str.is_slash c).

(** The segments a normalized absolute path is made of: not empty, neither
    [.] nor [..], without [/]. *)
Definition isName (seg : string) : bool :=
  negb (String.eqb seg "") && negb (String.eqb seg ".") && negb (String.eqb seg "..")
  && Str.all notSlash seg.

Definition notSep (c : ascii) : bool := negb (Str.is_sep c).

(** A name without backslash. *)
Definition plainName (seg : string) : bool := isName seg && Str.all notSep seg.
Definition plain (segs : list string) : Prop := Forall (fun seg => plainName seg = true) segs.

(** The text of the names below the root directory, each after a slash. *)
Fixpoint rooted (segs : list string) : string :=
  match segs with
  | [] => ""
  | seg :: rest => String "/" (seg +:+ rooted rest)
  end.

(** A text that is empty or begins with a slash. *)
Definition slashed (s : string) : Prop := s = "" \/ Str.startsWith s "/" = true.

(** One segment of [normalizeString], on the stack of the segments kept
    so far (last segment first): empty segments and [.] are dropped; [..]
    removes the last segment, unless there is none or it is itself [..],
    in which case it is kept only when [allowAboveRoot]. *)
Definition normalizeStep (allowAboveRoot : bool) (stack : list string) (seg : string)
  : list string :=
  if String.eqb seg "" || String.eqb seg "." then stack
  else if String.eqb seg ".." then
    match stack with
    | top :: rest =>
        if String.eqb top ".." then (if allowAboveRoot then seg :: stack else stack)
        else rest
    | [] => if allowAboveRoot then [seg] else []
    end
  else seg :: stack.

Definition normalizeSegments (allowAboveRoot : bool) (segs : list string) : list string :=
  rev (fold_left (normalizeStep allowAboveRoot) segs []).

(** [normalizeString(path, allowAboveRoot, "/", isPosixPathSeparator)] *)
Definition normalizeString (path : string) (allowAboveRoot : bool) : string :=
  Str.join "/" (normalizeSegments allowAboveRoot (split path)).

(** The loop of [resolve], from the last argument to the first and then
    the working directory, until the path is absolute; empty arguments
    are skipped. *)
Fixpoint resolveLoop (args : list string) (resolvedPath : string) : string * bool :=
  match args with
  | [] => (resolvedPath, false)
  | p :: rest =>
      if String.eqb p "" then resolveLoop rest resolvedPath
      else
        let resolvedPath := p +:+ "/" +:+ resolvedPath in
        if Str.startsWith p "/" then (resolvedPath, true)
        else resolveLoop rest resolvedPath
  end.

(** [path.resolve(...args)] with [process.cwd() = cwd]. *)
Definition resolve (cwd : string) (args : list string) : string :=
  let '(resolvedPath, resolvedAbsolute) := resolveLoop (rev args ++ [cwd]) "" in
  let normalized := normalizeString resolvedPath (negb resolvedAbsolute) in
  if resolvedAbsolute then "/" +:+ normalized
  else if String.eqb normalized "" then "." else normalized.

(** The names on the way from the root directory to the location that
    [path] resolves to. *)
Definition segments (cwd path : string) : list string :=
  normalizeSegments false (split (fst (resolveLoop [path; cwd] ""))).

End Path.

(** ** Base64 ([buffer.toString("base64")]) *)

Module Base64.

(** The character of a 6-bit number in the standard alphabet. *)
Definition char (n : N) : ascii :=
  ascii_of_N
    (if n <? 26 then 65 + n
     else if n <? 52 then 97 + (n - 26)
     else if n <? 62 then 48 + (n - 52)
     else if n =? 62 then 43 else 47).

(** Three bytes give four characters; one or two trailing bytes give four
    characters of which the last two or the last one is [=]. *)
Fixpoint encode (b : bytes) : string :=
  match b with
  | [] => ""
  | [x] =>
      let n := Byte.to_N x in
      String (char (n / 4)) (String (char (n mod 4 * 16)) "==")
  | [x; y] =>
      let n := Byte.to_N x in
      let m := Byte.to_N y in
      String (char (n / 4))
        (String (char (n mod 4 * 16 + m / 16))
           (String (char (m mod 16 * 4)) "="))
  | x :: y :: z :: rest =>
      let n := Byte.to_N x in
      let m := Byte.to_N y in
      let k := Byte.to_N z in
      String (char (n / 4))
        (String (char (n mod 4 * 16 + m / 16))
           (String (char (m mod 16 * 4 + k / 64))
              (String (char (k mod 64)) (encode rest))))
  end.

(** The 6-bit number of a character of the alphabet. *)
Definition index (c : ascii) : option N :=
  let n := N_of_ascii c in
  if (65 <=? n) && (n <=? 90) then Some (n - 65)
  else if (97 <=? n) && (n <=? 122) then Some (n - 71)
  else if (48 <=? n) && (n <=? 57) then Some (n + 4)
  else if n =? 43 then Some 62
  else if n =? 47 then Some 63
  else None.

Definition is_pad (c : ascii) : bool := Ascii.eqb c "=".

(** Decoding of canonical base64 text (RFC 4648, with padding): groups of
    four characters, of which only the last may end with one or two [=]. *)
Fixpoint decode (s : string) : option bytes :=
  match s with
  | EmptyString => Some []
  | String a (String b (String c (String d rest))) =>
      match index a, index b with
      | Some i, Some j =>
          if is_pad c then
            if is_pad d && String.eqb rest "" then Some [byte_of_N (i * 4 + j / 16)]
            else None
          else
            match index c with
            | Some k =>
                if is_pad d then
                  if String.eqb rest "" then
                    Some [byte_of_N (i * 4 + j / 16); byte_of_N (j mod 16 * 16 + k / 4)]
                  else None
                else
                  match index d, decode rest with
                  | Some l, Some tail =>
                      Some (byte_of_N (i * 4 + j / 16)
                            :: byte_of_N (j mod 16 * 16 + k / 4)
                            :: byte_of_N (k mod 4 * 64 + l) :: tail)
                  | _, _ => None
                  end
            | None => None
            end
      | _, _ => None
      end
  | _ => None
  end.

End Base64.

(** ** Key material and the Authorization header ([auth.js]) *)

Module Auth.

Record AuthContext : Type := {
  challenge : string;
  telescopeId : string;
  bootCount : value   (* a string or a number *)
}.

(** [options.keyMaterial]: a base64 string, or bytes. *)
Inductive KeyMaterial : Type :=
| KeyText (s : string)
| KeyBytes (b : bytes).

(** [AuthOptions]; a field is [None] when it is [undefined] or [null]. *)
Record AuthOptions : Type := {
  keyMaterial : option KeyMaterial;
  keyFile : option string
}.

(** What [auth.js] reads from its platform: [process.cwd()],
    [os.homedir()], [os.tmpdir()], the directory of the module,
    [process.env.VAONIS_AUTH_KEY_FILE], and the file system
    ([readFileSync] is [None] where it throws). *)
Record Platform : Type := {
  cwd : string;
  homedir : string;
  tmpdir : string;
  dirname : string;
  env_VAONIS_AUTH_KEY_FILE : option string;
  existsSync : string -> bool;
  readFileSync : string -> option string
}.

(** The file-system calls a function made, in order. *)
Inductive fs_call : Type :=
| CallExists (path : string)
| CallRead (path : string).

Section Resolver.

Variable pf : Platform.

(** [Buffer.from(text, "base64")], the lenient decoder of the runtime. *)
Variable base64_decode : string -> bytes.

Definition resolve (args : list string) : string := Path.resolve (cwd pf) args.

Definition SAFE_KEY_ROOTS : list string :=
  [ cwd pf; homedir pf; tmpdir pf;
    resolve [dirname pf; ".."];
    resolve [dirname pf; "../../.."] ].

(** On a POSIX platform, where [process.platform] is not [win32]. *)
Definition normalizeForCompare (value : string) : string :=
  Str.dropWhileEnd Str.is_sep (resolve [value]).

Definition isWithinRoot (root target : string) : bool :=
  let normalizedRoot := normalizeForCompare root in
  let normalizedTarget := normalizeForCompare target in
  if String.eqb normalizedRoot normalizedTarget then true
  else
    let withSep :=
      if Str.endsWith normalizedRoot "\" || Str.endsWith normalizedRoot "/"
      then normalizedRoot
      else normalizedRoot +:+ (if Str.includes normalizedRoot "\" then "\" else "/") in
    Str.startsWith normalizedTarget withSep.

(** [target] is [root] or lies below it: the names of [root] begin the
    names of [target]. *)
Definition within (root target : string) : Prop :=
  Path.segments (cwd pf) root `prefix_of` Path.segments (cwd pf) target.

(** The test of the loop in [normalizeKeyPath]: [root && isWithinRoot(root, resolved)]. *)
Definition allowedBy (resolved root : string) : bool :=
  negb (String.eqb root "") && isWithinRoot root resolved.

Definition normalizeKeyPath (value : string) : result string :=
  let resolved := resolve [value] in
  if existsb (allowedBy resolved) SAFE_KEY_ROOTS then Ok resolved
  else Throw (PathNotAllowed resolved).

(** A path is outside the permitted roots: it lies within none of them.
    The paths are taken with plain names, the ones on which the comparison
    of [isWithinRoot] is the containment of paths. *)
Definition outsideRoots (path : string) : Prop :=
  Path.plain (Path.segments (cwd pf) path)
  /\ forall root, In root SAFE_KEY_ROOTS -> root <> "" ->
       Path.plain (Path.segments (cwd pf) root) /\ ~ within root path.

(** The candidates of [findKeyPath], in order; an absent or empty
    explicit path or environment variable adds no candidate. *)
Definition candidates (explicitPath : option string) : list string :=
  (match explicitPath with
   | Some p => if String.eqb p "" then [] else [p]
   | None => []
   end)
  ++ (match env_VAONIS_AUTH_KEY_FILE pf with
      | Some p => if String.eqb p "" then [] else [p]
      | None => []
      end)
  ++ [ resolve [cwd pf; ".auth_key"];
       resolve [dirname pf; "../.auth_key"];
       resolve [dirname pf; "../../.."; "python"; ".auth_key"] ].

(** The loop of [findKeyPath]: a candidate that does not exist, or that
    [normalizeKeyPath] rejects, is passed over. *)
Fixpoint findKeyPathLoop (cands : list string) : option string * list fs_call :=
  match cands with
  | [] => (None, [])
  | candidate :: rest =>
      if String.eqb candidate "" then findKeyPathLoop rest
      else if existsSync pf candidate then
        match normalizeKeyPath candidate with
        | Ok path => (Some path, [CallExists candidate])
        | Throw _ =>
            let '(r, calls) := findKeyPathLoop rest in
            (r, CallExists candidate :: calls)
        end
      else
        let '(r, calls) := findKeyPathLoop rest in
        (r, CallExists candidate :: calls)
  end.

Definition findKeyPath (explicitPath : option string) : option string * list fs_call :=
  findKeyPathLoop (candidates explicitPath).

Definition readKeyFile (path : string) : result bytes * list fs_call :=
  match normalizeKeyPath path with
  | Throw e => (Throw e, [])
  | Ok safePath =>
      match readFileSync pf safePath with
      | None => (Throw (FsError safePath), [CallRead safePath])
      | Some text => (Ok (base64_decode (Str.trim text)), [CallRead safePath])
      end
  end.

Definition resolveKeyMaterial (options : AuthOptions) : result bytes * list fs_call :=
  match keyMaterial options with
  | Some (KeyText s) => (Ok (base64_decode s), [])
  | Some (KeyBytes b) => (Ok b, [])
  | None =>
      let '(found, calls) := findKeyPath (keyFile options) in
      match found with
      | None => (Throw KeyMaterialNotFound, calls)
      | Some path =>
          let '(r, calls') := readKeyFile path in
          (r, calls ++ calls')
      end
  end.

End Resolver.

(** *** Signing *)

Section Signer.

Variable pf : Platform.
Variable base64_decode : string -> bytes.

(** [createHash("sha512").update(payload).digest()] *)
Variable sha512 : bytes -> bytes.

(** The Ed25519 primitives of tweetnacl: the detached signature of a
    message under a 64-byte secret key, and the public key of a 32-byte
    seed. *)
Variable signature : bytes -> bytes -> bytes.
Variable publicKey : bytes -> bytes.

(** [nacl.sign(msg, secretKey)]: refuses a secret key that is not 64
    bytes long; the signed message is the signature followed by the
    message. *)
Definition nacl_sign (msg secretKey : bytes) : result bytes :=
  if Nat.eqb (length secretKey) 64 then Ok (signature msg secretKey ++ msg)
  else Throw (TypeError "bad secret key size").

(** [nacl.sign.keyPair.fromSeed(seed).secretKey]: refuses a seed that is
    not 32 bytes long; the secret key is the seed followed by the public
    key. *)
Definition fromSeed_secretKey (seed : bytes) : result bytes :=
  if Nat.eqb (length seed) 32 then Ok (seed ++ publicKey seed)
  else Throw (TypeError "bad seed size").

Definition buildPayload (ctx : AuthContext) : result bytes :=
  if String.eqb (challenge ctx) "" || (String.length (challenge ctx) <? 2)%nat
  then Throw InvalidChallenge
  else
    let challengeBytes := base64_decode (Str.slice1 (challenge ctx)) in
    let tail := "|" +:+ telescopeId ctx +:+ "|" +:+ ToString (bootCount ctx) in
    Ok (challengeBytes ++ Str.utf8 tail).

(** The secret key [signDigest] signs with when it signs: a 64-byte key
    as it is, a 32-byte seed followed by its public key. *)
Definition expandedKey (keyBytes : bytes) : bytes :=
  if Nat.eqb (length keyBytes) 64 then keyBytes else keyBytes ++ publicKey keyBytes.

Definition signDigest (digest keyBytes : bytes) : result bytes :=
  if Nat.eqb (length keyBytes) 64 then nacl_sign digest keyBytes
  else if Nat.eqb (length keyBytes) 32 then
    let* secretKey := fromSeed_secretKey keyBytes in
    nacl_sign digest secretKey
  else Throw (UnsupportedKeyLength (length keyBytes)).

(** The part of [buildAuthorizationHeader] that follows the resolution
    of the key. *)
Definition signHeader (ctx : AuthContext) (keyBytes : bytes) : result string :=
  let* payload := buildPayload ctx in
  let digest := sha512 payload in
  let* signedMessage := signDigest digest keyBytes in
  let signatureB64 := Base64.encode signedMessage in
  let prefix := Str.head (challenge ctx) in
  Ok ("Basic android|" +:+ prefix +:+ "|" +:+ signatureB64).

Definition buildAuthorizationHeader (ctx : AuthContext) (options : AuthOptions)
  : result string * list fs_call :=
  let '(key, calls) := resolveKeyMaterial pf base64_decode options in
  match key with
  | Throw e => (Throw e, calls)
  | Ok keyBytes => (signHeader ctx keyBytes, calls)
  end.

End Signer.

End Auth.

(** ** The unified HTTP client ([unified_client.js]) *)

Module Http.

Definition DEFAULT_PREFIXES : list string := [""; "/stellina/http"; "/vespera/http"].

Record RouteDefinition : Type := {
  operationId : string;
  method : string;
  path : string
}.

(** A [Response] as the client uses it: the status line, what
    [headers.get("content-type")] returns, and the outcome of each body
    reader ([json()] is [None] where it rejects with a [SyntaxError]). *)
Record Response : Type := {
  status : N;
  statusText : string;
  content_type : option string;
  json : option value;
  text : string;
  arrayBuffer : bytes
}.

(** [response.ok]: the status is in the range 200..299. *)
Definition ok (r : Response) : bool := (200 <=? status r) && (status r <=? 299).

(** One call of the fetch layer: [fetch(url, { method, headers, body })]. *)
Record FetchCall : Type := {
  call_url : string;
  call_method : string;
  call_headers : gmap string string;
  call_body : option string
}.

(** The fetch layer answers with a response, or rejects (network failure,
    or the abort that [_fetchWithTimeout] raises when the timer fires). *)
Inductive FetchOutcome : Type :=
| Responds (r : Response)
| Rejects.

Record RequestOptions : Type := {
  auth : option string;
  params : option (list (string * value));
  jsonBody : option value;      (* [None] is [undefined] *)
  body : option string;
  headers : gmap string string
}.

Record DownloadImageOptions : Type := {
  dl_auth : option string;
  dl_headers : gmap string string;
  dl_params : option (list (string * value))
}.

(** The constructor options the model uses. *)
Record ClientOptions : Type := {
  host : string;
  port : N;
  apiBasePath : string;
  prefixes : list string
}.

(** The mutable part of a client, and the calls the fetch layer has
    received so far. *)
Record Client : Type := {
  baseUrl : option string;
  calls : list FetchCall
}.

(** An asynchronous method of the client: from the client before the call
    to the outcome and the client after it. *)
Definition M (A : Type) : Type := Client -> result A * Client.

Definition ret {A} (a : A) : M A := fun c => (Ok a, c).
Definition throw {A} (e : error) : M A := fun c => (Throw e, c).
Definition bind {A B} (m : M A) (k : A -> M B) : M B :=
  fun c => match m c with
           | (Ok a, c') => k a c'
           | (Throw e, c') => (Throw e, c')
           end.
Definition lift {A} (r : result A) : M A := fun c => (r, c).

Notation "'do' x <- m ; k" := (bind m (fun x => k))
  (at level 10, x name, m at level 100, k at level 200).

(** [buffer.slice(0, n).equals(magic)] and its like. *)
Fixpoint equals (a b : bytes) : bool :=
  match a, b with
  | [], [] => true
  | x :: a', y :: b' => Byte.eqb x y && equals a' b'
  | _, _ => false
  end.

Definition slice (from to : nat) (b : bytes) : bytes := firstn (to - from) (skipn from b).

Definition looksLikeImage (buffer : bytes) (contentType : string) : bool :=
  if negb (String.eqb contentType "") && Str.startsWith (Str.toLowerCase contentType) "image/"
  then true
  else if (length buffer <? 4)%nat then false
  else if equals (slice 0 3 buffer) [xff; xd8; xff] then true
  else if equals (slice 0 8 buffer) [x89; x50; x4e; x47; x0d; x0a; x1a; x0a] then true
  else if equals (slice 0 2 buffer) (Str.utf8 "BM") then true
  else if equals (slice 0 6 buffer) (Str.utf8 "GIF87a")
          || equals (slice 0 6 buffer) (Str.utf8 "GIF89a") then true
  else if equals (slice 0 4 buffer) [x49; x49; x2a; x00]
          || equals (slice 0 4 buffer) [x4d; x4d; x00; x2a] then true
  else if (12 <=? length buffer)%nat
          && equals (slice 0 4 buffer) (Str.utf8 "RIFF")
          && equals (slice 8 12 buffer) (Str.utf8 "WEBP") then true
  else false.

(** The response declares an [image/*] content type. *)
Definition declaresImage (contentType : string) : Prop :=
  Str.startsWith (Str.toLowerCase contentType) "image/" = true.

(** The leading bytes of the body match one of the image signatures the
    specification lists: JPEG [FF D8 FF], the 8-byte PNG magic, BMP [BM],
    [GIF87a] or [GIF89a], the little- or big-endian TIFF magic, or [RIFF]
    with [WEBP] at offset 8. *)
Definition hasImageSignature (buffer : bytes) : Prop :=
  [xff; xd8; xff] `prefix_of` buffer
  \/ [x89; x50; x4e; x47; x0d; x0a; x1a; x0a] `prefix_of` buffer
  \/ Str.utf8 "BM" `prefix_of` buffer
  \/ Str.utf8 "GIF87a" `prefix_of` buffer
  \/ Str.utf8 "GIF89a" `prefix_of` buffer
  \/ [x49; x49; x2a; x00] `prefix_of` buffer
  \/ [x4d; x4d; x00; x2a] `prefix_of` buffer
  \/ (Str.utf8 "RIFF" `prefix_of` buffer /\ Str.utf8 "WEBP" `prefix_of` skipn 8 buffer).

(** An error text carries a status: it begins with [HTTP] and the status
    in decimal, and the status ends the text or is followed by a space. *)
Definition carriesStatus (text : string) (status : N) : Prop :=
  exists rest, text = "HTTP " +:+ pretty status +:+ rest
    /\ (rest = "" \/ Str.startsWith rest " " = true).

(** [s.replace(/\/+$/, "")] and [s.replace(/^\//, "")] *)
Definition stripTrailingSlashes (s : string) : string := Str.dropWhileEnd Str.is_slash s.
Definition stripLeadingSlash (s : string) : string :=
  match s with
  | String c s' => if Str.is_slash c then s' else s
  | EmptyString => s
  end.

(** A string option that is present and not empty. *)
Definition truthy (o : option string) : option string :=
  match o with
  | Some s => if String.eqb s "" then None else Some s
  | None => None
  end.

Section Client.

Variable options : ClientOptions.

(** [fetchImpl]: its answer may depend on the calls made before. *)
Variable fetchImpl : list FetchCall -> FetchCall -> FetchOutcome.

(** [new URL(text)], [None] where it throws; [JSON.stringify]. *)
Variable URL_parse : string -> option URL.
Variable JSON_stringify : value -> string.

(** The parsed content of [data/http_routes_union.json]. *)
Variable routesData : list RouteDefinition.

(** [new Map(data.map((item) => [item.operationId, item]))] *)
Definition loadRoutes : gmap string RouteDefinition :=
  fold_left (fun m item => <[operationId item := item]> m) routesData ∅.

Definition _makeBaseUrl (prefix : string) : string :=
  let raw := "http://" +:+ host options +:+ ":" +:+ pretty (port options)
             +:+ prefix +:+ apiBasePath options in
  stripTrailingSlashes raw.

Definition _fetchWithTimeout (call : FetchCall) : M Response :=
  fun c =>
    let c' := {| baseUrl := baseUrl c; calls := calls c ++ [call] |} in
    match fetchImpl (calls c) call with
    | Responds r => (Ok r, c')
    | Rejects => (Throw NetworkError, c')
    end.

(** The probe of [detectBaseUrl] for a candidate. *)
Definition probe (candidate : string) : FetchCall :=
  {| call_url := candidate +:+ "/app/status";
     call_method := "GET";
     call_headers := ∅;
     call_body := None |}.

(** The probe of a prefix, and whether the fetch layer answers it with a
    successful status after the calls [earlier]. *)
Definition probeOf (prefix : string) : FetchCall := probe (_makeBaseUrl prefix).

Definition probeSucceeds (earlier : list FetchCall) (prefix : string) : bool :=
  match fetchImpl earlier (probeOf prefix) with
  | Responds r => ok r
  | Rejects => false
  end.

(** No probe of [prefixes] succeeds, each probe coming after the calls
    [earlier] and the probes of the prefixes before it. *)
Definition allProbesFail (earlier : list FetchCall) (prefixes : list string) : Prop :=
  forall (i : nat) (prefix : string),
    prefixes !! i = Some prefix ->
    probeSucceeds (earlier ++ map probeOf (take i prefixes)) prefix = false.

Fixpoint detectLoop (prefixes : list string) : M string :=
  match prefixes with
  | [] => throw BaseUrlNotDetected
  | prefix :: rest =>
      let candidate := _makeBaseUrl prefix in
      fun c =>
        match _fetchWithTimeout (probe candidate) c with
        | (Ok response, c') =>
            if ok response
            then (Ok candidate, {| baseUrl := Some candidate; calls := calls c' |})
            else detectLoop rest c'
        | (Throw _, c') => detectLoop rest c'
        end
  end.

Definition detectBaseUrl : M string := detectLoop (prefixes options).

(** [this.baseUrl || (await this.detectBaseUrl())] *)
Definition currentBase : M string :=
  fun c =>
    match truthy (baseUrl c) with
    | Some base => (Ok base, c)
    | None => detectBaseUrl c
    end.

Definition parseURL (text : string) : M URL :=
  match URL_parse text with
  | Some url => ret url
  | None => throw (TypeError "Invalid URL")
  end.

Definition withAuth (auth : option string) (headers : gmap string string)
  : gmap string string :=
  match truthy auth with
  | Some a => <["Authorization" := a]> headers
  | None => headers
  end.

(** The first part of [request], up to the call of the fetch layer: the
    base URL, the URL with its query, the headers and the body. *)
Definition requestCall (method path : string) (o : RequestOptions) : M FetchCall :=
  do base <- currentBase ;
  do url <- parseURL (stripTrailingSlashes base +:+ "/" +:+ stripLeadingSlash path) ;
  let url := buildQuery url (params o) in
  let resolvedHeaders := withAuth (auth o) (headers o) in
  let '(resolvedBody, resolvedHeaders) :=
    match jsonBody o with
    | Some j =>
        (Some (JSON_stringify j),
         match truthy (resolvedHeaders !! "Content-Type") with
         | Some _ => resolvedHeaders
         | None => <["Content-Type" := "application/json"]> resolvedHeaders
         end)
    | None => (body o, resolvedHeaders)
    end in
  ret {| call_url := URL_toString url;
         call_method := method;
         call_headers := resolvedHeaders;
         call_body := resolvedBody |}.

(** The text of the error of [request] for a response that is not [ok]. *)
Definition requestErrorText (response : Response) (payload : value) : string :=
  let message := match payload with Text s => s | _ => "" end in
  Str.trim ("HTTP " +:+ pretty (status response) +:+ " "
            +:+ statusText response +:+ " " +:+ message).

(** The second part of [request]: the payload is read as the content
    type says, and a response that is not [ok] is turned into an error. *)
Definition requestPayload (response : Response) : M value :=
  let contentType := default "" (content_type response) in
  do payload <- (if Str.includes contentType "application/json"
                 then match json response with
                      | Some v => ret v
                      | None => throw SyntaxError
                      end
                 else ret (Text (text response))) ;
  if negb (ok response) then throw (HttpError (requestErrorText response payload))
  else ret payload.

Definition request (method path : string) (o : RequestOptions) : M value :=
  do call <- requestCall method path o ;
  do response <- _fetchWithTimeout call ;
  requestPayload response.

Definition callOperation (operationId : string) (o : RequestOptions) : M value :=
  match loadRoutes !! operationId with
  | None => throw (UnknownOperation operationId)
  | Some route => request (method route) (path route) o
  end.

(** The first part of [downloadImage], up to the call of the fetch layer. *)
Definition downloadCall (urlOrPath : string) (o : DownloadImageOptions) : M FetchCall :=
  do base <- currentBase ;
  let fullUrl :=
    if Str.startsWith urlOrPath "http://" || Str.startsWith urlOrPath "https://"
    then urlOrPath
    else stripTrailingSlashes base +:+ "/" +:+ stripLeadingSlash urlOrPath in
  do url <- parseURL fullUrl ;
  let url := buildQuery url (dl_params o) in
  let resolvedHeaders := withAuth (dl_auth o) (dl_headers o) in
  ret {| call_url := URL_toString url;
         call_method := "GET";
         call_headers := resolvedHeaders;
         call_body := None |}.

(** The text of the error of [downloadImage]. *)
Definition downloadErrorText (response : Response) : string :=
  Str.trim ("HTTP " +:+ pretty (status response) +:+ " " +:+ statusText response).

(** The second part of [downloadImage]: the bytes are returned when the
    response is [ok] or looks like an image. *)
Definition downloadBytes (response : Response) : M bytes :=
  let buffer := arrayBuffer response in
  let contentType := default "" (content_type response) in
  if ok response || looksLikeImage buffer contentType then ret buffer
  else throw (HttpError (downloadErrorText response)).

Definition downloadImage (urlOrPath : string) (o : DownloadImageOptions) : M bytes :=
  do call <- downloadCall urlOrPath o ;
  do response <- _fetchWithTimeout call ;
  downloadBytes response.

End Client.

End Http.

(** ** The command channel ([VaonisSocketClient]) *)

Module Socket.

Section Channel.

(** Acknowledgement callbacks. *)
Variable Callback : Type.

(** One [socket.emit(event, data)] or [socket.emit(event, data, ack)]. *)
Record Emit : Type := {
  emit_event : string;
  emit_data : list value;
  emit_ack : option Callback
}.

(** [sendCommand(command, payload, callback)] on the emits of the socket
    so far; an omitted [payload] is [undefined], an omitted [callback]
    is [None]. *)
Definition sendCommand (command : string) (payload : value) (callback : option Callback)
    (socket : list Emit) : list Emit :=
  let data := match payload with
              | Undefined => [Text command]
              | _ => [Text command; payload]
              end in
  match callback with
  | Some cb => socket ++ [{| emit_event := "message"; emit_data := data; emit_ack := Some cb |}]
  | None => socket ++ [{| emit_event := "message"; emit_data := data; emit_ack := None |}]
  end.

End Channel.

End Socket.

(** ** Response logging ([colorizeJsonLine], [colorizeJson], [formatPayload]) *)

Module Log.

(** The string of one character, by its code. *)
Definition chr (n : N) : string := String (ascii_of_N n) "".

Definition ANSI_RESET : string := chr 27 +:+ "[0m".
Definition ANSI_BLUE : string := chr 27 +:+ "[94m".
Definition ANSI_GREEN : string := chr 27 +:+ "[92m".
Definition ANSI_CYAN : string := chr 27 +:+ "[96m".
Definition ANSI_MAGENTA : string := chr 27 +:+ "[95m".

(** The longest prefix of characters satisfying [p], and what follows it:
    a greedy [p*] of a regular expression and the rest of the input. *)
Fixpoint span (p : ascii -> bool) (s : string) : string * string :=
  match s with
  | EmptyString => ("", "")
  | String c s' =>
      if p c then let '(a, b) := span p s' in (String c a, b)
      else ("", s)
  end.

(** [s.slice(n)] for a length [n]. *)
Fixpoint sliceFrom (n : nat) (s : string) : string :=
  match n, s with
  | O, _ => s
  | S n', String _ s' => sliceFrom n' s'
  | S _, EmptyString => EmptyString
  end.

Fixpoint firstChars (n : nat) (s : string) : string :=
  match n, s with
  | S n', String c s' => String c (firstChars n' s')
  | _, _ => EmptyString
  end.

(** [s.slice(0, n)] for an integer [n]: a negative [n] counts from the end
    of the string. *)
Definition sliceTo (n : Z) (s : string) : string :=
  let len := Z.of_nat (String.length s) in
  let to := if (n <? 0)%Z then Z.max (len + n) 0 else Z.min n len in
  firstChars (Z.to_nat to) s.

(** The character classes of the regular expressions, on code units below
    256: the double quote, [\d], [\w], and the line terminators that [.]
    does not match.  [\s] is [Str.is_space]. *)
Definition is_quote (c : ascii) : bool := N_of_ascii c =? 34.
Definition notQuote (c : ascii) : bool := negb (is_quote c).
Definition is_digit (c : ascii) : bool :=
  let n := N_of_ascii c in (48 <=? n) && (n <=? 57).
Definition is_word (c : ascii) : bool :=
  let n := N_of_ascii c in
  ((48 <=? n) && (n <=? 57)) || ((65 <=? n) && (n <=? 90))
  || ((97 <=? n) && (n <=? 122)) || (n =? 95).
Definition is_terminator (c : ascii) : bool :=
  let n := N_of_ascii c in (n =? 10) || (n =? 13).
Definition notTerminator (c : ascii) : bool := negb (is_terminator c).

(** The match of the first regular expression of [colorizeJsonLine] on a
    line: its four groups, when the line matches.  The expression asks,
    from the start of the line to its end, for white space (the
    indentation), a double quote, one or more characters other than a
    double quote, a double quote (the key, quotes included), white space,
    a colon, white space (the separator), and characters other than line
    terminators (the rest).  Every quantifier is followed by a character
    outside its class, so that the greedy match is the only one. *)
Definition matchLine (line : string) : option (string * string * string * string) :=
  let '(indent, afterIndent) := span Str.is_space line in
  match afterIndent with
  | String q afterQuote =>
      if is_quote q then
        let '(name, afterName) := span notQuote afterQuote in
        match name, afterName with
        | String _ _, String q' afterKey =>
            let key := String q name +:+ String q' "" in
            let '(before, atColon) := span Str.is_space afterKey in
            match atColon with
            | String colon afterColon =>
                if Ascii.eqb colon ":" then
                  let '(after, rest) := span Str.is_space afterColon in
                  if Str.all notTerminator rest
                  then Some (indent, key, before +:+ ":" +:+ after, rest)
                  else None
                else None
            | EmptyString => None
            end
        | _, _ => None
        end
      else None
  | EmptyString => None
  end.

(** The match of the expression for a string at the start of the value:
    a double quote, characters other than a double quote, a double quote.
    The result is the token. *)
Definition matchString (value : string) : option string :=
  match value with
  | String q afterQuote =>
      if is_quote q then
        let '(body, afterBody) := span notQuote afterQuote in
        match afterBody with
        | String q' _ => Some (String q body +:+ String q' "")
        | EmptyString => None
        end
      else None
  | EmptyString => None
  end.

(** The match of the expression for a number at the start of the value:
    an optional minus sign, digits, optionally a point and digits,
    optionally [e] or [E], an optional sign and digits.  The optional
    groups are taken when they match. *)
Definition matchNumber (value : string) : option string :=
  let '(sign, afterSign) :=
    match value with
    | String c s => if Ascii.eqb c "-" then ("-", s) else ("", value)
    | EmptyString => ("", value)
    end in
  let '(int, afterInt) := span is_digit afterSign in
  if String.eqb int "" then None
  else
    let '(frac, afterFrac) :=
      match afterInt with
      | String c s =>
          if Ascii.eqb c "." then
            let '(digits, s') := span is_digit s in
            if String.eqb digits "" then ("", afterInt) else (String c digits, s')
          else ("", afterInt)
      | EmptyString => ("", afterInt)
      end in
    let expo :=
      match afterFrac with
      | String e s =>
          if Ascii.eqb e "e" || Ascii.eqb e "E" then
            let '(esign, s') :=
              match s with
              | String c r =>
                  if Ascii.eqb c "+" || Ascii.eqb c "-" then (String c "", r) else ("", s)
              | EmptyString => ("", s)
              end in
            let '(digits, _) := span is_digit s' in
            if String.eqb digits "" then "" else String e (esign +:+ digits)
          else ""
      | EmptyString => ""
      end in
    Some (sign +:+ int +:+ frac +:+ expo).

(** [\b] after a word: the input ends, or goes on with a character that
    is not of a word. *)
Definition atBoundary (s : string) : bool :=
  match s with
  | EmptyString => true
  | String c _ => negb (is_word c)
  end.

(** The match of the expression for [true], [false] or [null] at the
    start of the value, ending at a word boundary. *)
Definition matchBool (value : string) : option string :=
  let word (w : string) : bool :=
    Str.startsWith value w && atBoundary (sliceFrom (String.length w) value) in
  if word "true" then Some "true"
  else if word "false" then Some "false"
  else if word "null" then Some "null"
  else None.

Definition colorizeJsonLine (line : string) : string :=
  match matchLine line with
  | None => line
  | Some (indent, key, sep, rest) =>
      let keyColored := ANSI_BLUE +:+ key +:+ ANSI_RESET in
      let value :=
        match matchString rest with
        | Some token =>
            ANSI_GREEN +:+ token +:+ ANSI_RESET +:+ sliceFrom (String.length token) rest
        | None =>
            match matchNumber rest with
            | Some token =>
                ANSI_CYAN +:+ token +:+ ANSI_RESET +:+ sliceFrom (String.length token) rest
            | None =>
                match matchBool rest with
                | Some token =>
                    ANSI_MAGENTA +:+ token +:+ ANSI_RESET
                    +:+ sliceFrom (String.length token) rest
                | None => rest
                end
            end
        end in
      indent +:+ keyColored +:+ sep +:+ value
  end.

(** [text.split(sep)] for a separator of one character. *)
Fixpoint splitOn (sep : ascii) (s : string) : list string :=
  match s with
  | EmptyString => [""]
  | String c s' =>
      if Ascii.eqb c sep then "" :: splitOn sep s'
      else match splitOn sep s' with
           | seg :: rest => String c seg :: rest
           | [] => [String c ""]
           end
  end.

(** The line feed. *)
Definition LF : ascii := ascii_of_N 10.

Definition colorizeJson (text : string) : string :=
  Str.join (chr 10) (map colorizeJsonLine (splitOn LF text)).

(** What [formatPayload] is given: the bytes of an image, or the payload
    of a response. *)
Inductive Payload : Type :=
| Buffer (b : bytes)
| Value (v : value).

Section Format.

(** [JSON.parse], [None] where it throws, and [JSON.stringify(v, null, 2)]. *)
Variable JSON_parse : string -> option value.
Variable JSON_stringify_indent : value -> string.

(** The first part of [formatPayload]: the text before truncation. *)
Definition render (value : Payload) : string :=
  match value with
  | Buffer b => "<" +:+ pretty (length b) +:+ " bytes>"
  | Value (Arr _ as v) | Value (Obj _ as v) => JSON_stringify_indent v
  | Value (Text s) =>
      let trimmed := Str.trim s in
      if String.eqb trimmed "" then s
      else match JSON_parse trimmed with
           | Some parsed => JSON_stringify_indent parsed
           | None => s
           end
  | Value v => ToString v
  end.

(** The second part: a text longer than a positive [maxLen] is cut. *)
Definition truncate (maxLen : Z) (rendered : string) : string :=
  if (0 <? maxLen)%Z && (maxLen <? Z.of_nat (String.length rendered))%Z
  then sliceTo (maxLen - 20) rendered +:+ "... (truncated)"
  else rendered.

(** [formatPayload(value, { color, maxLen })], for an integer [maxLen]. *)
Definition formatPayload (value : Payload) (color : bool) (maxLen : Z) : string :=
  let rendered := truncate maxLen (render value) in
  if color then colorizeJson rendered else rendered.

End Format.

(** The five escape sequences, and the length of the one that begins a
    text, if one does. *)
Definition sequences : list string :=
  [ANSI_RESET; ANSI_BLUE; ANSI_GREEN; ANSI_CYAN; ANSI_MAGENTA].

Definition sequenceAt (s : string) : option nat :=
  option_map String.length (find (Str.startsWith s) sequences).

(** What a terminal shows of a text: the text without the escape
    sequences of the module.  [skip] counts the characters of a sequence
    still to pass over. *)
Fixpoint visibleFrom (skip : nat) (s : string) : string :=
  match s with
  | EmptyString => EmptyString
  | String c s' =>
      match skip with
      | S k => visibleFrom k s'
      | O =>
          match sequenceAt s with
          | Some n => visibleFrom (Nat.pred n) s'
          | None => String c (visibleFrom 0 s')
          end
      end
  end.

Definition visible (s : string) : string := visibleFrom 0 s.

Definition is_escape (c : ascii) : bool := N_of_ascii c =? 27.
Definition notEscape (c : ascii) : bool := negb (is_escape c).

End Log.

(** ** Requests with their log lines *)

Module Logged.

Import Http.

(** The options of the constructor that govern the log. *)
Record LogOptions : Type := {
  logResponses : bool;
  colorizeResponses : bool;
  logResponseLimit : Z
}.

Section Client.

Variable options : ClientOptions.
Variable fetchImpl : list FetchCall -> FetchCall -> FetchOutcome.
Variable URL_parse : string -> option URL.
Variable JSON_stringify : value -> string.
Variable JSON_parse : string -> option value.
Variable JSON_stringify_indent : value -> string.
Variable logOptions : LogOptions.

(** The reading of the payload in [request]: [response.json()] for a JSON
    content type, [response.text()] otherwise. *)
Definition readPayload (response : Response) : result value :=
  let contentType := default "" (content_type response) in
  if Str.includes contentType "application/json"
  then match json response with
       | Some v => Ok v
       | None => Throw SyntaxError
       end
  else Ok (Text (text response)).

(** The lines [request] and [downloadImage] hand to [logger.log]. *)
Definition requestLog (response : Response) (payload : value) : list string :=
  if logResponses logOptions then
    let formatted :=
      Log.formatPayload JSON_parse JSON_stringify_indent (Log.Value payload)
        (colorizeResponses logOptions) (logResponseLimit logOptions) in
    ["HTTP " +:+ pretty (status response) +:+ " " +:+ statusText response
     +:+ Log.chr 10 +:+ formatted]
  else [].

Definition downloadLog (response : Response) (buffer : bytes) : list string :=
  if logResponses logOptions then
    let formatted :=
      Log.formatPayload JSON_parse JSON_stringify_indent (Log.Buffer buffer)
        false (logResponseLimit logOptions) in
    ["HTTP " +:+ pretty (status response) +:+ " " +:+ statusText response
     +:+ " image bytes=" +:+ formatted]
  else [].

(** [request], with the lines it logs: the outcome, the client after the
    call, and the lines. *)
Definition request (method path : string) (o : RequestOptions) (c : Client)
  : result value * Client * list string :=
  match requestCall options fetchImpl URL_parse JSON_stringify method path o c with
  | (Throw e, c1) => (Throw e, c1, [])
  | (Ok call, c1) =>
      match _fetchWithTimeout fetchImpl call c1 with
      | (Throw e, c2) => (Throw e, c2, [])
      | (Ok response, c2) =>
          match readPayload response with
          | Throw e => (Throw e, c2, [])
          | Ok payload =>
              let lines := requestLog response payload in
              if negb (ok response)
              then (Throw (HttpError (requestErrorText response payload)), c2, lines)
              else (Ok payload, c2, lines)
          end
      end
  end.

(** [downloadImage], with the lines it logs. *)
Definition downloadImage (urlOrPath : string) (o : DownloadImageOptions) (c : Client)
  : result bytes * Client * list string :=
  match downloadCall options fetchImpl URL_parse urlOrPath o c with
  | (Throw e, c1) => (Throw e, c1, [])
  | (Ok call, c1) =>
      match _fetchWithTimeout fetchImpl call c1 with
      | (Throw e, c2) => (Throw e, c2, [])
      | (Ok response, c2) =>
          let buffer := arrayBuffer response in
          let contentType := default "" (content_type response) in
          let lines := downloadLog response buffer in
          if ok response || looksLikeImage buffer contentType
          then (Ok buffer, c2, lines)
          else (Throw (HttpError (downloadErrorText response)), c2, lines)
      end
  end.

End Client.

End Logged.

(** ** The commands of [VaonisSocketClient] *)

Module VaonisSocketClient.

(** The options of the constructor; [None] is an option left out. *)
Record SocketClientOptions : Type := {
  url : option string;
  path : option string;
  deviceId : option string;
  name : option string;
  countryCode : option string;
  autoConnect : option bool;
  socketOptions : option (gmap string value)
}.

(** The fields of a client, and the arguments of the call of [io] that
    makes its socket. *)
Record Client : Type := {
  client_url : string;
  client_path : string;
  client_deviceId : string;
  client_name : string;
  client_countryCode : string;
  io_url : string;
  io_options : gmap string value
}.

(** The options the constructor writes itself, before the spread of
    [socketOptions]. *)
Definition ownOptions (path deviceId name countryCode : string) (autoConnect : bool)
  : gmap string value :=
  <["path" := Text path]>
    (<["query" := Obj [("id", Text deviceId); ("name", Text name);
                       ("countryCode", Text countryCode)]]>
       (<["autoConnect" := Bool autoConnect]> ∅)).

(** [new VaonisSocketClient(options)] *)
Definition new (o : SocketClientOptions) : Client :=
  let url := default "http://10.0.0.1:8083" (url o) in
  let path := default "/socket.io" (path o) in
  let deviceId := default "" (deviceId o) in
  let name := default "" (name o) in
  let countryCode := default "" (countryCode o) in
  let autoConnect := default false (autoConnect o) in
  let socketOptions := default ∅ (socketOptions o) in
  let this_path := if Str.startsWith path "/" then path else "/" +:+ path in
  {| client_url := url;
     client_path := this_path;
     client_deviceId := deviceId;
     client_name := name;
     client_countryCode := countryCode;
     io_url := url;
     io_options := socketOptions ∪ ownOptions this_path deviceId name countryCode autoConnect |}.

Section Commands.

Variable Callback : Type.
Variable this : Client.

Abbreviation Emits := (list (Socket.Emit Callback)).

(** [takeControl(userId)] and [releaseControl(userId)]; an omitted
    [userId] is [null]. *)
Definition takeControl (userId : option string) (socket : Emits) : Emits :=
  let payload := match Http.truthy userId with
                 | Some u => Obj [("userId", Text u)]
                 | None => Undefined
                 end in
  Socket.sendCommand Callback "takeControl" payload None socket.

Definition releaseControl (userId : option string) (socket : Emits) : Emits :=
  let payload := match Http.truthy userId with
                 | Some u => Obj [("userId", Text u)]
                 | None => Undefined
                 end in
  Socket.sendCommand Callback "releaseControl" payload None socket.

(** [setSystemTime(epochMs, { useObject })] for a number [epochMs]. *)
Definition setSystemTime (epochMs : Z) (useObject : bool) (socket : Emits) : Emits :=
  let payload := if useObject then Obj [("timestamp", Num epochMs)] else Num epochMs in
  Socket.sendCommand Callback "setSystemTime" payload None socket.

(** [setUserName(userName)]; [None] is [null] or [undefined]. *)
Definition setUserName (userName : option string) (socket : Emits) : Emits :=
  let payload := Obj [("device", Text (client_deviceId this));
                      ("user", Text (default "null" userName))] in
  Socket.sendCommand Callback "setUserName" payload None socket.

Definition getStatus (callback : option Callback) (socket : Emits) : Emits :=
  Socket.sendCommand Callback "getStatus" Undefined callback socket.

Definition restartApp (callback : option Callback) (socket : Emits) : Emits :=
  Socket.sendCommand Callback "restartApp" Undefined callback socket.

Definition shutdown (callback : option Callback) (socket : Emits) : Emits :=
  Socket.sendCommand Callback "shutdown" Undefined callback socket.

End Commands.

End VaonisSocketClient.

(** ** The key extraction tool ([tools/extract_auth_key.js]) *)

Module Tool.

(** The errors the tool throws. *)
Inductive failure : Type :=
| PathRequired
| PathOutsideRoots (resolved : string)
| PathNotFound (resolved : string)
| NoKeyFound
| MultipleKeys (details : string).

Definition failure_message (e : failure) : string :=
  match e with
  | PathRequired => "Path is required."
  | PathOutsideRoots resolved => "Path outside allowed roots: " +:+ resolved
  | PathNotFound resolved => "Path not found: " +:+ resolved
  | NoKeyFound => "No 64-byte base64 key found."
  | MultipleKeys details => "Multiple keys found:" +:+ Log.chr 10 +:+ details
  end.

Inductive outcome (A : Type) : Type :=
| Done (a : A)
| Failed (e : failure).
Arguments Done {A} a.
Arguments Failed {A} e.

Section Paths.

(** The platform of the tool; [dirname] is the directory of the script. *)
Variable pf : Auth.Platform.

Definition resolve (args : list string) : string := Path.resolve (Auth.cwd pf) args.

Definition repoRoot : string := resolve [Auth.dirname pf; ".."].

(** On a POSIX platform. *)
Definition normalizeForCompare (value : string) : string := value.

(** [path.sep] is the slash. *)
Definition isWithinRoot (root candidate : string) : bool :=
  let normalizedRoot := normalizeForCompare root in
  let normalizedCandidate := normalizeForCompare candidate in
  if String.eqb normalizedCandidate normalizedRoot then true
  else Str.startsWith normalizedCandidate (normalizedRoot +:+ "/").

Definition safeRoots : list string :=
  map (fun root => resolve [root])
    [Auth.cwd pf; repoRoot; Auth.homedir pf; Auth.tmpdir pf].

(** [normalizeSafePath(candidate, { mustExist })], with the calls of
    [existsSync] it makes. *)
Definition normalizeSafePath (candidate : string) (mustExist : bool)
  : outcome string * list Auth.fs_call :=
  if String.eqb candidate "" then (Failed PathRequired, [])
  else
    let resolved := resolve [candidate] in
    let allowed := existsb (fun root => isWithinRoot root resolved) safeRoots in
    if negb allowed then (Failed (PathOutsideRoots resolved), [])
    else if mustExist then
      if Auth.existsSync pf resolved then (Done resolved, [Auth.CallExists resolved])
      else (Failed (PathNotFound resolved), [Auth.CallExists resolved])
    else (Done resolved, []).

(** [target] is [root] or lies below it, and the way the tool sees it: the
    root directory holds nothing but itself. *)
Definition below (root target : string) : Prop :=
  Path.segments (Auth.cwd pf) root `prefix_of` Path.segments (Auth.cwd pf) target
  /\ (Path.segments (Auth.cwd pf) root = [] -> Path.segments (Auth.cwd pf) target = []).

End Paths.

(** [ScriptArgs]; a field is [None] when it is [null] or [undefined]. *)
Record ScriptArgs : Type := {
  input : option string;
  smali : option string;
  searchRoot : option string;
  apktoolJar : option string;
  out : option string;
  json : bool
}.

Section Arguments.

Variable pf : Auth.Platform.

(** [path.join] of the repository root and plain names, which is their
    [path.resolve]. *)
Definition defaultOutput : string := resolve pf [repoRoot pf; "src"; "python"; ".auth_key"].

Definition defaultArgs : ScriptArgs :=
  {| input := None;
     smali := None;
     searchRoot := None;
     apktoolJar := Some (resolve pf [repoRoot pf; "tools"; "apktool_2.9.3.jar"]);
     out := Some defaultOutput;
     json := false |}.

(** The assignment a flag with a value makes, for the flags that take
    one: [args.field = argv[i + 1]]. *)
Definition assign (flag : string) (v : option string) (args : ScriptArgs)
  : option ScriptArgs :=
  if String.eqb flag "--input" then
    Some {| input := v; smali := smali args; searchRoot := searchRoot args;
            apktoolJar := apktoolJar args; out := out args; json := json args |}
  else if String.eqb flag "--smali" then
    Some {| input := input args; smali := v; searchRoot := searchRoot args;
            apktoolJar := apktoolJar args; out := out args; json := json args |}
  else if String.eqb flag "--search-root" then
    Some {| input := input args; smali := smali args; searchRoot := v;
            apktoolJar := apktoolJar args; out := out args; json := json args |}
  else if String.eqb flag "--apktool-jar" then
    Some {| input := input args; smali := smali args; searchRoot := searchRoot args;
            apktoolJar := v; out := out args; json := json args |}
  else if String.eqb flag "--out" then
    Some {| input := input args; smali := smali args; searchRoot := searchRoot args;
            apktoolJar := apktoolJar args; out := v; json := json args |}
  else None.

(** The loop of [parseArgs]: a flag with a value takes the next argument,
    whatever it is ([undefined] at the end of the list), and the loop goes
    on after it; [--json] sets its field; anything else is passed over. *)
Fixpoint parseLoop (argv : list string) (args : ScriptArgs) : ScriptArgs :=
  match argv with
  | [] => args
  | value :: rest =>
      match assign value (head rest) args with
      | Some assigned =>
          match rest with
          | [] => assigned
          | _ :: rest' => parseLoop rest' assigned
          end
      | None =>
          parseLoop rest
            (if String.eqb value "--json" then
               {| input := input args; smali := smali args; searchRoot := searchRoot args;
                  apktoolJar := apktoolJar args; out := out args; json := true |}
             else args)
      end
  end.

Definition parseArgs (argv : list string) : ScriptArgs := parseLoop argv defaultArgs.

End Arguments.

(** The keys found so far, with the files each was found in, in the order
    of their first finding: the object [keys] of [main]. *)
Abbreviation Keys := (list (string * list string)).

(** [keys[key] = keys[key] || []; keys[key].push(safePath)] *)
Fixpoint addKey (keys : Keys) (key safePath : string) : Keys :=
  match keys with
  | [] => [(key, [safePath])]
  | (k, paths) :: rest =>
      if String.eqb k key then (k, paths ++ [safePath]) :: rest
      else (k, paths) :: addKey rest key safePath
  end.

(** The loop of [main] over the files and the candidates of each:
    [found] lists each file with the candidates [extractCandidates] gives
    for its text. *)
Definition collectKeys (found : list (string * list string)) : Keys :=
  fold_left
    (fun keys file =>
       fold_left (fun keys key => addKey keys key (fst file)) (snd file) keys)
    found [].

Definition selectKey (keys : Keys) : outcome string :=
  match keys with
  | [] => Failed NoKeyFound
  | [(key, _)] => Done key
  | _ =>
      Failed (MultipleKeys
                (Str.join (Log.chr 10)
                   (map (fun entry => fst entry +:+ ": " +:+ Str.join ", " (snd entry))
                      keys)))
  end.

End Tool.
(** ** Query parameters under other names *)

(** A pair whose name is none of [keys]. *)
Definition foreign (keys : list string) (p : string * string) : bool :=
  negb (existsb (String.eqb (fst p)) keys).


(** * Reference implementations of the runtime primitives

    The functions of the Node runtime and of tweetnacl that the client
    calls, as their standards define them: SHA-512 (FIPS 180-4), Ed25519
    (RFC 8032, with the key layout of tweetnacl), a base64 decoder for
    canonical text, a URL parser for URLs without query or fragment, and
    [JSON.stringify].  The client is modelled over any such functions;
    these instantiate it. *)

Module Reference.

(** *** Numbers and bytes *)

Definition N_of_bytes_be (b : bytes) : N :=
  fold_left (fun acc x => acc * 256 + Byte.to_N x) b 0.

Definition N_of_bytes_le (b : bytes) : N :=
  fold_right (fun x acc => Byte.to_N x + 256 * acc) 0 b.

Definition bytes_le (n : nat) (x : N) : bytes :=
  map (fun i => byte_of_N ((x / 2 ^ (8 * N.of_nat i)) mod 256)) (seq 0 n).

Definition bytes_be (n : nat) (x : N) : bytes := rev (bytes_le n x).

(** Consecutive blocks of [size] elements; the last one may be shorter. *)
Fixpoint chunks {A} (fuel size : nat) (l : list A) : list (list A) :=
  match fuel, l with
  | S fuel', _ :: _ => firstn size l :: chunks fuel' size (skipn size l)
  | _, _ => []
  end.

(** *** SHA-512 *)

Definition mask64 : N := 18446744073709551615.

Definition add64 (a b : N) : N := N.land (a + b) mask64.
Definition rotr (n x : N) : N :=
  N.lor (N.shiftr x n) (N.land (N.shiftl x (64 - n)) mask64).
Definition Ch (x y z : N) : N :=
  N.lxor (N.land x y) (N.land (N.lxor x mask64) z).
Definition Maj (x y z : N) : N :=
  N.lxor (N.lxor (N.land x y) (N.land x z)) (N.land y z).
Definition Sigma0 (x : N) : N := N.lxor (N.lxor (rotr 28 x) (rotr 34 x)) (rotr 39 x).
Definition Sigma1 (x : N) : N := N.lxor (N.lxor (rotr 14 x) (rotr 18 x)) (rotr 41 x).
Definition sigma0 (x : N) : N := N.lxor (N.lxor (rotr 1 x) (rotr 8 x)) (N.shiftr x 7).
Definition sigma1 (x : N) : N := N.lxor (N.lxor (rotr 19 x) (rotr 61 x)) (N.shiftr x 6).

Definition primes80 : list N :=
  [2; 3; 5; 7; 11; 13; 17; 19; 23; 29; 31; 37; 41; 43; 47; 53; 59; 61; 67; 71;
   73; 79; 83; 89; 97; 101; 103; 107; 109; 113; 127; 131; 137; 139; 149; 151;
   157; 163; 167; 173; 179; 181; 191; 193; 197; 199; 211; 223; 227; 229; 233;
   239; 241; 251; 257; 263; 269; 271; 277; 281; 283; 293; 307; 311; 313; 317;
   331; 337; 347; 349; 353; 359; 367; 373; 379; 383; 389; 397; 401; 409].

(** The integer cube root, bit by bit from [bits] down. *)
Fixpoint cbrt (bits : nat) (n r : N) : N :=
  match bits with
  | O => r
  | S k =>
      let t := r + 2 ^ N.of_nat k in
      cbrt k n (if t * t * t <=? n then t else r)
  end.

(** The round constants: the first 64 bits of the fractional parts of the
    cube roots of the first eighty primes; the initial hash value: those of
    the square roots of the first eight. *)
Definition roundConstants : list N :=
  Eval vm_compute in map (fun p => N.land (cbrt 70 (p * 2 ^ 192) 0) mask64) primes80.

Definition initialHash : list N :=
  Eval vm_compute in map (fun p => N.land (N.sqrt (p * 2 ^ 128)) mask64) (firstn 8 primes80).

(** The message schedule, most recent word first. *)
Fixpoint schedule (n : nat) (w : list N) : list N :=
  match n with
  | O => w
  | S k =>
      let at_ i := nth i w 0 in
      schedule k (add64 (add64 (sigma1 (at_ 1%nat)) (at_ 6%nat))
                        (add64 (sigma0 (at_ 14%nat)) (at_ 15%nat)) :: w)
  end.

Record state : Type := mkState {
  sa : N; sb : N; sc : N; sd : N; se : N; sf : N; sg : N; sh : N
}.

Definition round (s : state) (kw : N * N) : state :=
  let t1 := add64 (add64 (add64 (sh s) (Sigma1 (se s))) (Ch (se s) (sf s) (sg s)))
                  (add64 (fst kw) (snd kw)) in
  let t2 := add64 (Sigma0 (sa s)) (Maj (sa s) (sb s) (sc s)) in
  mkState (add64 t1 t2) (sa s) (sb s) (sc s) (add64 (sd s) t1) (se s) (sf s) (sg s).

Definition compress (s : state) (block : bytes) : state :=
  let words := map N_of_bytes_be (chunks 16 8 block) in
  let w := rev (schedule 64 (rev words)) in
  let s' := fold_left round (combine roundConstants w) s in
  mkState (add64 (sa s) (sa s')) (add64 (sb s) (sb s')) (add64 (sc s) (sc s'))
          (add64 (sd s) (sd s')) (add64 (se s) (se s')) (add64 (sf s) (sf s'))
          (add64 (sg s) (sg s')) (add64 (sh s) (sh s')).

Definition pad (message : bytes) : bytes :=
  let len := length message in
  let zeros := ((128 - (len + 17) mod 128) mod 128)%nat in
  message ++ [x80] ++ repeat x00 zeros ++ bytes_be 16 (8 * N.of_nat len).

Definition sha512 (message : bytes) : bytes :=
  let padded := pad message in
  let start := mkState (nth 0 initialHash 0) (nth 1 initialHash 0) (nth 2 initialHash 0)
                       (nth 3 initialHash 0) (nth 4 initialHash 0) (nth 5 initialHash 0)
                       (nth 6 initialHash 0) (nth 7 initialHash 0) in
  let s := fold_left compress (chunks (length padded) 128 padded) start in
  bytes_be 8 (sa s) ++ bytes_be 8 (sb s) ++ bytes_be 8 (sc s) ++ bytes_be 8 (sd s)
  ++ bytes_be 8 (se s) ++ bytes_be 8 (sf s) ++ bytes_be 8 (sg s) ++ bytes_be 8 (sh s).

(** *** Ed25519 *)

(** The arithmetic of the curve runs on [bigN], the numbers of machine
    words. *)
Definition p25519 : bigN := (2 ^ 255 - 19)%bigN.
Definition order : bigN := (2 ^ 252 + 27742317777372353535851937790883648493)%bigN.
Definition curve_d : bigN :=
  37095705934669439343138083508754565189542113879843219016388785533085940283555%bigN.
Definition base_x : bigN :=
  15112221349535400772501151409588531511454012693041857206046113283949847762202%bigN.
Definition base_y : bigN :=
  46316835694926478169428394003475163141307993866256225615783033603165251855960%bigN.

Definition fadd (a b : bigN) : bigN := ((a + b) mod p25519)%bigN.
Definition fsub (a b : bigN) : bigN := ((a + p25519 - b mod p25519) mod p25519)%bigN.
Definition fmul (a b : bigN) : bigN := ((a * b) mod p25519)%bigN.

Fixpoint fpow (x : bigN) (e : positive) : bigN :=
  match e with
  | xH => x
  | xO e' => fpow (fmul x x) e'
  | xI e' => fmul x (fpow (fmul x x) e')
  end.

Definition finv (x : bigN) : bigN :=
  match BigN.to_N (p25519 - 2)%bigN with
  | Npos e => fpow x e
  | N0 => 0%bigN
  end.

(** A point in extended coordinates [(X, Y, Z, T)]. *)
Definition point : Type := bigN * bigN * bigN * bigN.

Definition neutral : point := (0, 1, 1, 0)%bigN.
Definition base : point := (base_x, base_y, 1%bigN, fmul base_x base_y).

Definition padd (P Q : point) : point :=
  let '(x1, y1, z1, t1) := P in
  let '(x2, y2, z2, t2) := Q in
  let a := fmul (fsub y1 x1) (fsub y2 x2) in
  let b := fmul (fadd y1 x1) (fadd y2 x2) in
  let c := fmul (fmul 2%bigN (fmul t1 t2)) curve_d in
  let d := fmul 2%bigN (fmul z1 z2) in
  let e := fsub b a in
  let f := fsub d c in
  let g := fadd d c in
  let h := fadd b a in
  (fmul e f, fmul g h, fmul f g, fmul e h).

Fixpoint pmul (s : positive) (P : point) : point :=
  match s with
  | xH => P
  | xO s' => pmul s' (padd P P)
  | xI s' => padd P (pmul s' (padd P P))
  end.

Definition scalarmult (s : N) (P : point) : point :=
  match s with
  | N0 => neutral
  | Npos s' => pmul s' P
  end.

(** The 32 bytes of a point: [y], little-endian, with the parity of [x] in
    the top bit. *)
Definition pack (P : point) : bytes :=
  let '(x, y, z, _) := P in
  let zi := finv z in
  let x := BigN.to_N (fmul x zi) in
  let y := BigN.to_N (fmul y zi) in
  bytes_le 32 (y + (x mod 2) * 2 ^ 255).

(** The secret scalar of a seed: the first half of its hash, clamped. *)
Definition secretScalar (seed : bytes) : N :=
  let h := N_of_bytes_le (firstn 32 (sha512 seed)) in
  N.lor (N.land h (2 ^ 254 - 8)) (2 ^ 254).

(** The public key of a seed ([crypto_sign_keypair]). *)
Definition publicKey (seed : bytes) : bytes :=
  pack (scalarmult (secretScalar seed) base).

Definition modOrder (x : N) : N := BigN.to_N (BigN.of_N x mod order)%bigN.

(** The signature of a message under a secret key, which is a seed followed
    by a public key ([crypto_sign], without the copy of the message). *)
Definition signature (message secretKey : bytes) : bytes :=
  let seed := firstn 32 secretKey in
  let pk := skipn 32 secretKey in
  let a := secretScalar seed in
  let prefix := skipn 32 (sha512 seed) in
  let r := modOrder (N_of_bytes_le (sha512 (prefix ++ message))) in
  let R := pack (scalarmult r base) in
  let h := modOrder (N_of_bytes_le (sha512 (R ++ pk ++ message))) in
  R ++ bytes_le 32 (modOrder (r + h * a)).

(** *** Base64 text, URLs and JSON *)

(** The decoder of the runtime on canonical base64 text; text that is not
    canonical, which the runtime decodes leniently, is outside what the
    examples use. *)
Definition base64_decode (s : string) : bytes := default [] (Base64.decode s).

(** [new URL(text)] for a text that begins with [http://] and has neither
    query nor fragment, written the way the parser prints it.  Other texts
    are outside what the examples use. *)
Definition URL_parse (text : string) : option URL :=
  if Str.startsWith text "http://" && negb (Str.includes text "?")
     && negb (Str.includes text "#")
  then Some (mkURL text "" [] "")
  else None.

Definition hex4 (n : N) : string :=
  String (Query.hexdigit (n / 4096 mod 16))
    (String (Query.hexdigit (n / 256 mod 16))
       (String (Query.hexdigit (n / 16 mod 16))
          (String (Query.hexdigit (n mod 16)) ""))).

Definition lower (s : string) : string := Str.toLowerCase s.

(** The double quote. *)
Definition quote : string := String (ascii_of_N 34) EmptyString.

(** The JSON text of a character of a string. *)
Definition json_char (c : ascii) : string :=
  let n := N_of_ascii c in
  if n =? 34 then String "\" quote else if n =? 92 then "\\"
  else if n =? 8 then "\b" else if n =? 9 then "\t" else if n =? 10 then "\n"
  else if n =? 12 then "\f" else if n =? 13 then "\r"
  else if n <? 32 then "\u" +:+ lower (hex4 n)
  else String c "".

Fixpoint json_string_body (s : string) : string :=
  match s with
  | EmptyString => ""
  | String c s' => json_char c +:+ json_string_body s'
  end.

Definition json_string (s : string) : string := quote +:+ json_string_body s +:+ quote.

(** [JSON.stringify(v)] for a value other than [undefined]: an [undefined]
    element of an array prints as [null], and an [undefined] field of an
    object is left out. *)
Fixpoint JSON_stringify (v : value) : string :=
  match v with
  | Undefined => "null"
  | Null => "null"
  | Bool true => "true"
  | Bool false => "false"
  | Num n => pretty n
  | Text s => json_string s
  | Arr items => "[" +:+ Str.join "," (map JSON_stringify items) +:+ "]"
  | Obj fields =>
      "{" +:+ Str.join ","
                (flat_map (fun kv => let '(k, v') := kv in
                                     match v' with
                                     | Undefined => []
                                     | _ => [json_string k +:+ ":" +:+ JSON_stringify v']
                                     end) fields)
      +:+ "}"
  end.

(** [JSON.stringify(v, null, 2)]: the elements of an array and the fields
    of an object each on a line of their own, two spaces deeper than the
    bracket; an empty array and an empty object on one line. *)
Fixpoint stringify_indented (indent : string) (v : value) : string :=
  let deeper := indent +:+ "  " in
  match v with
  | Arr [] => "[]"
  | Arr items =>
      "[" +:+ Log.chr 10 +:+ deeper
      +:+ Str.join ("," +:+ Log.chr 10 +:+ deeper) (map (stringify_indented deeper) items)
      +:+ Log.chr 10 +:+ indent +:+ "]"
  | Obj fields =>
      match flat_map (fun kv => let '(k, v') := kv in
                                match v' with
                                | Undefined => []
                                | _ => [json_string k +:+ ": " +:+ stringify_indented deeper v']
                                end) fields with
      | [] => "{}"
      | lines =>
          "{" +:+ Log.chr 10 +:+ deeper
          +:+ Str.join ("," +:+ Log.chr 10 +:+ deeper) lines
          +:+ Log.chr 10 +:+ indent +:+ "}"
      end
  | _ => JSON_stringify v
  end.

Definition JSON_stringify_indent (v : value) : string := stringify_indented "" v.

(** The white space of JSON: space, tab, line feed, carriage return. *)
Definition json_space (c : ascii) : bool :=
  let n := N_of_ascii c in (n =? 32) || (n =? 9) || (n =? 10) || (n =? 13).

Definition hexval (c : ascii) : option N :=
  let n := N_of_ascii c in
  if (48 <=? n) && (n <=? 57) then Some (n - 48)
  else if (65 <=? n) && (n <=? 70) then Some (n - 55)
  else if (97 <=? n) && (n <=? 102) then Some (n - 87)
  else None.

(** The characters of a JSON string after its opening quote, and what
    follows its closing quote. *)
Fixpoint parse_string (s : string) : option (string * string) :=
  match s with
  | EmptyString => None
  | String c s' =>
      let n := N_of_ascii c in
      if n =? 34 then Some ("", s')
      else if n =? 92 then
        match s' with
        | String e s'' =>
            let simple (x : N) :=
              match parse_string s'' with
              | Some (body, rest) => Some (String (ascii_of_N x) body, rest)
              | None => None
              end in
            let m := N_of_ascii e in
            if m =? 34 then simple 34 else if m =? 92 then simple 92
            else if m =? 47 then simple 47 else if m =? 98 then simple 8
            else if m =? 102 then simple 12 else if m =? 110 then simple 10
            else if m =? 114 then simple 13 else if m =? 116 then simple 9
            else if m =? 117 then
              match s'' with
              | String a (String b (String c' (String d s4))) =>
                  match hexval a, hexval b, hexval c', hexval d, parse_string s4 with
                  | Some 0, Some 0, Some h, Some l, Some (body, rest) =>
                      Some (String (ascii_of_N (h * 16 + l)) body, rest)
                  | _, _, _, _, _ => None
                  end
              | _ => None
              end
            else None
        | EmptyString => None
        end
      else if n <? 32 then None
      else match parse_string s' with
           | Some (body, rest) => Some (String c body, rest)
           | None => None
           end
  end.

(** The value of a string of digits. *)
Definition digits_value (digits : string) : Z :=
  fold_left (fun acc c => (acc * 10 + Z.of_N (N_of_ascii c - 48))%Z)
    (list_ascii_of_string digits) 0%Z.

(** A JSON number without fraction and exponent, and what follows it. *)
Definition parse_integer (s : string) : option (Z * string) :=
  let '(negative, s1) :=
    match s with
    | String c s' => if Ascii.eqb c "-" then (true, s') else (false, s)
    | EmptyString => (false, s)
    end in
  let '(digits, rest) := Log.span Log.is_digit s1 in
  let leadingZero := Str.startsWith digits "0" && negb (String.eqb digits "0") in
  let goesOn :=
    match rest with
    | String c _ => Ascii.eqb c "." || Ascii.eqb c "e" || Ascii.eqb c "E"
    | EmptyString => false
    end in
  if String.eqb digits "" || leadingZero || goesOn then None
  else Some (if negative then (- digits_value digits)%Z else digits_value digits, rest).

Definition skip_space (s : string) : string := Str.dropWhile json_space s.

(** A key that is an array index: the decimal text, without leading
    zero, of an integer below [2^32 - 1]. *)
Definition is_index (key : string) : bool :=
  negb (String.eqb key "") && Str.all Log.is_digit key
  && (String.eqb key "0" || negb (Str.startsWith key "0"))
  && (String.length key <=? 10)%nat
  && (digits_value key <? 4294967295)%Z.

(** [obj[key] = v] on the fields of an object: a key that is present
    keeps its place and takes the value, a new key comes last. *)
Fixpoint define (fields : list (string * value)) (key : string) (v : value)
  : list (string * value) :=
  match fields with
  | [] => [(key, v)]
  | (k, w) :: rest =>
      if String.eqb k key then (k, v) :: rest else (k, w) :: define rest key v
  end.

(** A field under an index, put in its place among fields sorted by
    index. *)
Fixpoint placeIndex (field : string * value) (sorted : list (string * value))
  : list (string * value) :=
  match sorted with
  | [] => [field]
  | other :: rest =>
      if (digits_value (fst field) <? digits_value (fst other))%Z
      then field :: sorted
      else other :: placeIndex field rest
  end.

(** The fields of the object that [JSON.parse] builds from the members
    of the text, in the order in which the runtime lists them: the keys
    that are array indices first, by ascending index, then the other keys
    in the order in which they first occur; a repeated key holds its last
    value. *)
Definition objectFields (members : list (string * value)) : list (string * value) :=
  let fields := fold_left (fun fields member => define fields (fst member) (snd member))
                  members [] in
  fold_right placeIndex [] (List.filter (fun field => is_index (fst field)) fields)
  ++ List.filter (fun field => negb (is_index (fst field))) fields.

(** A JSON value, and what follows it; the elements of an array after its
    bracket; the members of an object after its brace. *)
Fixpoint parse_value (fuel : nat) (s : string) : option (value * string) :=
  match fuel with
  | O => None
  | S fuel' =>
      match skip_space s with
      | EmptyString => None
      | String c s' as s0 =>
          let n := N_of_ascii c in
          if n =? 34 then
            match parse_string s' with
            | Some (body, rest) => Some (Text body, rest)
            | None => None
            end
          else if n =? 91 then
            match skip_space s' with
            | String c' rest =>
                if Ascii.eqb c' "]" then Some (Arr [], rest)
                else match parse_elements fuel' s' with
                     | Some (items, rest') => Some (Arr items, rest')
                     | None => None
                     end
            | EmptyString => None
            end
          else if n =? 123 then
            match skip_space s' with
            | String c' rest =>
                if Ascii.eqb c' "}" then Some (Obj [], rest)
                else match parse_members fuel' s' with
                     | Some (members, rest') => Some (Obj (objectFields members), rest')
                     | None => None
                     end
            | EmptyString => None
            end
          else if Str.startsWith s0 "true" then Some (Bool true, Log.sliceFrom 4 s0)
          else if Str.startsWith s0 "false" then Some (Bool false, Log.sliceFrom 5 s0)
          else if Str.startsWith s0 "null" then Some (Null, Log.sliceFrom 4 s0)
          else match parse_integer s0 with
               | Some (z, rest) => Some (Num z, rest)
               | None => None
               end
      end
  end
with parse_elements (fuel : nat) (s : string) : option (list value * string) :=
  match fuel with
  | O => None
  | S fuel' =>
      match parse_value fuel' s with
      | Some (v, rest) =>
          match skip_space rest with
          | String c rest' =>
              if Ascii.eqb c "]" then Some ([v], rest')
              else if Ascii.eqb c "," then
                match parse_elements fuel' rest' with
                | Some (items, rest'') => Some (v :: items, rest'')
                | None => None
                end
              else None
          | EmptyString => None
          end
      | None => None
      end
  end
with parse_members (fuel : nat) (s : string) : option (list (string * value) * string) :=
  match fuel with
  | O => None
  | S fuel' =>
      match skip_space s with
      | String q s' =>
          if N_of_ascii q =? 34 then
            match parse_string s' with
            | Some (key, afterKey) =>
                match skip_space afterKey with
                | String colon afterColon =>
                    if Ascii.eqb colon ":" then
                      match parse_value fuel' afterColon with
                      | Some (v, rest) =>
                          match skip_space rest with
                          | String c rest' =>
                              if Ascii.eqb c "}" then Some ([(key, v)], rest')
                              else if Ascii.eqb c "," then
                                match parse_members fuel' rest' with
                                | Some (fields, rest'') => Some ((key, v) :: fields, rest'')
                                | None => None
                                end
                              else None
                          | EmptyString => None
                          end
                      | None => None
                      end
                    else None
                | EmptyString => None
                end
            | None => None
            end
          else None
      | EmptyString => None
      end
  end.

(** [JSON.parse(text)] for a text whose numbers are integers written
    without fraction and exponent and whose escapes are of characters
    below 256; [None] where the runtime throws.  Other texts are outside
    what the examples use. *)
Definition JSON_parse (text : string) : option value :=
  match parse_value (2 * String.length text + 2) text with
  | Some (v, rest) => if String.eqb (skip_space rest) "" then Some v else None
  | None => None
  end.

End Reference.

(** * Concrete inputs *)

Module Examples.

(** The parameters of the example of the specification:
    [{a: 1, b: ["x", "y"]}], and a URL without query. *)
Definition example_params : list (string * value) :=
  [("a", Num 1); ("b", Arr [Text "x"; Text "y"])].

Definition example_url : URL := mkURL "http://example:8082/v1/app/status" "" [] "".

(** [{a: 1, skipped: null, absent: undefined, flag: true}] *)
Definition scalar_params : list (string * value) :=
  [("a", Num 1); ("skipped", Null); ("absent", Undefined); ("flag", Bool true)].



(** The URL of [http://example:8082/v1/app/status?x=a%20b]: the query as
    it is written, and its one pair, whose value is [a b]. *)
Definition queried_url : URL :=
  mkURL "http://example:8082/v1/app/status" "?x=a%20b" [("x", "a b")] "".

(** A platform: a working directory under the home directory, the module
    installed under [/opt/oneane], an optional environment variable, and
    the files of the file system with their texts. *)
Definition platform (env : option string) (files : list (string * string)) : Auth.Platform :=
  {| Auth.cwd := "/home/user/project";
     Auth.homedir := "/home/user";
     Auth.tmpdir := "/tmp";
     Auth.dirname := "/opt/oneane/src/node/vaonis_instruments_unified/src";
     Auth.env_VAONIS_AUTH_KEY_FILE := env;
     Auth.existsSync := fun p => existsb (fun f => String.eqb (fst f) p) files;
     Auth.readFileSync :=
       fun p => option_map snd (find (fun f => String.eqb (fst f) p) files) |}.

(** The keys of the tests: 64 bytes of value 1, and 32 bytes of value 3. *)
Definition key64 : bytes := repeat x01 64.
Definition key32 : bytes := repeat x03 32.

(** The contexts of the tests of [auth.test.js]: the challenges are [A] and
    [B] followed by the base64 text of [abc] and of [payload]. *)
Definition ctxA : Auth.AuthContext :=
  {| Auth.challenge := "AYWJj"; Auth.telescopeId := "scope"; Auth.bootCount := Num 2 |}.
Definition ctxB : Auth.AuthContext :=
  {| Auth.challenge := "BcGF5bG9hZA=="; Auth.telescopeId := "scope"; Auth.bootCount := Num 1 |}.
Definition ctxShort : Auth.AuthContext :=
  {| Auth.challenge := "A"; Auth.telescopeId := "scope"; Auth.bootCount := Num 1 |}.

Definition withKey (key : bytes) : Auth.AuthOptions :=
  {| Auth.keyMaterial := Some (Auth.KeyBytes key); Auth.keyFile := None |}.

(** No key material and no key file. *)
Definition noKey : Auth.AuthOptions :=
  {| Auth.keyMaterial := None; Auth.keyFile := None |}.

(** A key file outside the permitted roots. *)
Definition outsideFile : string := "/etc/vaonis/.auth_key".

Definition withFile (file : string) : Auth.AuthOptions :=
  {| Auth.keyMaterial := None; Auth.keyFile := Some file |}.

(** [buildAuthorizationHeader] and [resolveKeyMaterial] over the reference
    primitives. *)
Definition buildAuthorizationHeader (pf : Auth.Platform) :=
  Auth.buildAuthorizationHeader pf Reference.base64_decode Reference.sha512
    Reference.signature Reference.publicKey.

Definition resolveKeyMaterial (pf : Auth.Platform) :=
  Auth.resolveKeyMaterial pf Reference.base64_decode.

(** A file system whose only file is the key file outside the roots, and
    one that also has [.auth_key] in the working directory. *)
Definition outsideOnly : Auth.Platform := platform None [(outsideFile, "AQEB")].
Definition outsideAndDefault : Auth.Platform :=
  platform None [(outsideFile, "AQEB"); ("/home/user/project/.auth_key", "AgIC")].

(** The key and the signature of the first test of RFC 8032, in base64:
    the seed followed by the public key, and the signature of the empty
    message. *)
Definition rfc8032_secretKey : bytes :=
  Reference.base64_decode
    "nWGxne/9WmC6hEr0kuwsxERJxWl7MmkZcDusAxyuf2DXWpgBgrEKt9VL/tPJZAc6DuFy89qmIyWvAhpo9wdRGg==".
Definition rfc8032_signature : string :=
  "5VZDAMNgrHKQhuLMgG6CioSHfx645dl02HPgZSJJAVVfuIIVkKM7rMYeOXAc+bRr0lv18FlbviRlUUFDjnoQCw==".

(** The client of the tests: host [example], port 8082. *)
Definition clientOptions (apiBasePath : string) (prefixes : list string) : Http.ClientOptions :=
  {| Http.host := "example"; Http.port := 8082;
     Http.apiBasePath := apiBasePath; Http.prefixes := prefixes |}.

Definition fresh : Http.Client := {| Http.baseUrl := None; Http.calls := [] |}.

Definition cached : Http.Client :=
  {| Http.baseUrl := Some "http://example:8082/v1"; Http.calls := [] |}.

(** [new Response(text, { status, headers: { "content-type": "text/plain" } })] *)
Definition textResponse (text : string) (status : N) : Http.Response :=
  {| Http.status := status; Http.statusText := "";
     Http.content_type := Some "text/plain";
     Http.json := None; Http.text := text; Http.arrayBuffer := Str.utf8 text |}.

(** A response with a body of bytes; the readers that [downloadImage] does
    not call are left empty. *)
Definition bytesResponse (body : bytes) (status : N) (contentType : string) : Http.Response :=
  {| Http.status := status; Http.statusText := "";
     Http.content_type := Some contentType;
     Http.json := None; Http.text := ""; Http.arrayBuffer := body |}.

(** A response that announces JSON and carries a body that is not JSON. *)
Definition brokenJsonResponse (status : N) : Http.Response :=
  {| Http.status := status; Http.statusText := "Bad Request";
     Http.content_type := Some "application/json";
     Http.json := None; Http.text := "<html>"; Http.arrayBuffer := Str.utf8 "<html>" |}.

Definition png : bytes := [x89; x50; x4e; x47; x0d; x0a; x1a; x0a].
Definition jpegMagic : bytes := [xff; xd8; xff].

(** The fetch layer of the test of [detectBaseUrl]: status 200 for the
    status path under [/stellina/http], 404 elsewhere. *)
Definition fetchStellina (earlier : list Http.FetchCall) (call : Http.FetchCall)
  : Http.FetchOutcome :=
  if Str.includes (Http.call_url call) "/stellina/http/v1/app/status"
  then Http.Responds (textResponse "ok" 200)
  else Http.Responds (textResponse "no" 404).

(** A fetch layer that answers every call with the same response. *)
Definition fetchAlways (r : Http.Response) (earlier : list Http.FetchCall)
    (call : Http.FetchCall) : Http.FetchOutcome :=
  Http.Responds r.

Definition noOptions : Http.RequestOptions :=
  {| Http.auth := None; Http.params := None; Http.jsonBody := None;
     Http.body := None; Http.headers := ∅ |}.

Definition noImageOptions : Http.DownloadImageOptions :=
  {| Http.dl_auth := None; Http.dl_headers := ∅; Http.dl_params := None |}.

(** Two entries of the route catalog. *)
Definition appGetStatus : Http.RouteDefinition :=
  {| Http.operationId := "appGetStatus"; Http.method := "GET"; Http.path := "/app/status" |}.
Definition appPostSetSettings : Http.RouteDefinition :=
  {| Http.operationId := "appPostSetSettings"; Http.method := "POST";
     Http.path := "/app/setSettings" |}.
Definition routes : list Http.RouteDefinition := [appGetStatus; appPostSetSettings].

(** The methods of the client over the reference primitives. *)
Definition detectBaseUrl (o : Http.ClientOptions) fetchImpl :=
  Http.detectBaseUrl o fetchImpl.
Definition request (o : Http.ClientOptions) fetchImpl :=
  Http.request o fetchImpl Reference.URL_parse Reference.JSON_stringify.
Definition requestCall (o : Http.ClientOptions) fetchImpl :=
  Http.requestCall o fetchImpl Reference.URL_parse Reference.JSON_stringify.
Definition callOperation (o : Http.ClientOptions) fetchImpl :=
  Http.callOperation o fetchImpl Reference.URL_parse Reference.JSON_stringify routes.
Definition downloadImage (o : Http.ClientOptions) fetchImpl :=
  Http.downloadImage o fetchImpl Reference.URL_parse.
Definition downloadCall (o : Http.ClientOptions) fetchImpl :=
  Http.downloadCall o fetchImpl Reference.URL_parse.

(** The call [request("GET", "/app/status")] and [downloadImage("/image")]
    make on the client with a cached base URL. *)
Definition statusCall : Http.FetchCall :=
  {| Http.call_url := "http://example:8082/v1/app/status"; Http.call_method := "GET";
     Http.call_headers := ∅; Http.call_body := None |}.
Definition imageCall : Http.FetchCall :=
  {| Http.call_url := "http://example:8082/v1/image"; Http.call_method := "GET";
     Http.call_headers := ∅; Http.call_body := None |}.

(** The key file of the working directory. *)
Definition defaultFile : string := "/home/user/project/.auth_key".

(** A key file in the temporary directory, as the extraction tool writes
    it: the base64 text of the key and a line feed. *)
Definition writtenFile : string := "/tmp/barnard/auth.key".
Definition written : Auth.Platform :=
  platform None [(writtenFile, "AQEB" +:+ Log.chr 10)].

(** A path that goes down and up again inside the working directory. *)
Definition roundabout : string := "keys/../.auth_key".

(** The platform of the tool: the script in [/opt/oneane/tools]. *)
Definition toolPlatform : Auth.Platform :=
  {| Auth.cwd := "/home/user/project";
     Auth.homedir := "/home/user";
     Auth.tmpdir := "/tmp";
     Auth.dirname := "/opt/oneane/tools";
     Auth.env_VAONIS_AUTH_KEY_FILE := None;
     Auth.existsSync := fun p => String.eqb p writtenFile;
     Auth.readFileSync := fun _ => None |}.

(** The headers of the examples [header_of_64_byte_key] and
    [header_of_32_byte_key] after their prefix. *)
Definition textA : string :=
  "wkFLSsKgXqaQSYJ0EkINQr8CPnYa96a2jafK/0jkOx7QM8o13m74NOQZh5KUrA/C"
  +:+ "aneCVzlOtjwM1emsbaLgDOAqumAZWmmOM3iAqBNm1jKem4pTrUA2gUcosdPFHshg"
  +:+ "3lf+je8K56HRBd4sPpyUjpedQVlzr68PVEkUBFq2N9o=".
Definition textB : string :=
  "hsLWzdbQL6n4z1NKFV83qI/0Xjc0pvmkRnspeQxA9NmKDdIHQIS9ocT166Zg9OtV"
  +:+ "A1zQAfFnc8VwTt0qTeUsB8BK1PNkv8X9m2DZPdclnf58vVaIpXF4qFBQrsqCGdpj"
  +:+ "IKuVutkZra1y7hLJtHFtF0720I/jluFM9USQ59UMHkI=".

(** The options of the test of [request]: [auth], [params] and [jsonBody]. *)
Definition postOptions : Http.RequestOptions :=
  {| Http.auth := Some "token";
     Http.params := Some example_params;
     Http.jsonBody := Some (Obj [("hello", Text "world")]);
     Http.body := None;
     Http.headers := ∅ |}.

Definition postCall : Http.FetchCall :=
  {| Http.call_url := "http://example:8082/v1/app/status?a=1&b=x&b=y";
     Http.call_method := "POST";
     Http.call_headers :=
       <["Content-Type" := "application/json"]> (<["Authorization" := "token"]> ∅);
     Http.call_body := Some (Reference.JSON_stringify (Obj [("hello", Text "world")])) |}.


(** The logging options of the constructor's defaults. *)
Definition logDefaults : Logged.LogOptions :=
  {| Logged.logResponses := true;
     Logged.colorizeResponses := true;
     Logged.logResponseLimit := 4000 |}.

(** A response with a JSON body. *)
Definition jsonResponse (v : value) (status : N) : Http.Response :=
  {| Http.status := status; Http.statusText := "OK";
     Http.content_type := Some "application/json";
     Http.json := Some v;
     Http.text := Reference.JSON_stringify v;
     Http.arrayBuffer := Str.utf8 (Reference.JSON_stringify v) |}.

Definition longText : string := "hello world, this is a long text".

(** What the tool finds in two files that hold the same key. *)
Definition agreeing : list (string * list string) :=
  [("/tmp/a/InstrumentRepository.smali", ["S2V5"]);
   ("/tmp/b/InstrumentRepository.smali", ["S2V5"])].

End Examples.

(** * Properties *)

(** ** Query strings *)

Section QueryFacts.

Import Query.

Lemma named_eq (k : string) (p : string * string) : named k p = true <-> fst p = k.
Proof.
  unfold named. rewrite String.eqb_eq. split; congruence.
Qed.

Lemma filter_named_append (k : string) (q : searchParams) (name val : string) :
  List.filter (named k) (append q name val)
  = List.filter (named k) q ++ (if String.eqb k name then [(name, val)] else []).
Proof.
  unfold append. rewrite List.filter_app. simpl. unfold named at 2. simpl.
  destruct (String.eqb k name); reflexivity.
Qed.




Lemma fold_append_items (key : string) (items : list value) (q : searchParams) :
  fold_left (fun q item => append q key (ToString item)) items q
  = q ++ arrayPairs key items.
Proof.
  revert q. induction items as [|item items IH]; intros q; simpl.
  - rewrite app_nil_r. reflexivity.
  - rewrite IH. unfold append. rewrite <- app_assoc. reflexivity.
Qed.






End QueryFacts.

(** ** The query of a URL *)

Section UrlFacts.

(** The search parameters after [buildQuery] are the ones the loop makes
    of the pairs. *)
Lemma append_items_searchParams (key : string) (items : list value) (url : URL) :
  url_searchParams
    (fold_left (fun u item => searchParams_append u key (ToString item)) items url)
  = fold_left (fun q item => Query.append q key (ToString item)) items (url_searchParams url).
Proof.
  revert url. induction items as [|item items IH]; intros url; [reflexivity|].
  cbn [fold_left]. rewrite IH. reflexivity.
Qed.

Lemma turn_searchParams (url : URL) (entry : string * value) :
  url_searchParams (buildQuery_turn url entry) = Query.addEntry (url_searchParams url) entry.
Proof.
  destruct entry as [key v].
  destruct v as [| |b|n|s|items|fields]; try reflexivity.
  apply append_items_searchParams.
Qed.

Lemma buildQuery_searchParams (url : URL) (params : option (list (string * value))) :
  url_searchParams (buildQuery url params) = Query.buildQuery (url_searchParams url) params.
Proof.
  destruct params as [entries|]; [|reflexivity]. cbn [buildQuery Query.buildQuery].
  revert url. induction entries as [|entry entries IH]; intros url; [reflexivity|].
  cbn [fold_left]. rewrite IH, turn_searchParams. reflexivity.
Qed.

(** The text before the query and the fragment stay. *)
Lemma turn_frame (url : URL) (entry : string * value) :
  url_base (buildQuery_turn url entry) = url_base url
  /\ url_hash (buildQuery_turn url entry) = url_hash url.
Proof.
  destruct entry as [key v].
  destruct v as [| |b|n|s|items|fields]; try (split; reflexivity).
  cbn [buildQuery_turn]. revert url.
  induction items as [|item items IH]; intros url; [split; reflexivity|].
  cbn [fold_left]. destruct (IH (searchParams_append url key (ToString item))) as [-> ->].
  split; reflexivity.
Qed.

Lemma buildQuery_frame (url : URL) (params : option (list (string * value))) :
  url_base (buildQuery url params) = url_base url
  /\ url_hash (buildQuery url params) = url_hash url.
Proof.
  destruct params as [entries|]; [|split; reflexivity]. cbn [buildQuery].
  revert url. induction entries as [|entry entries IH]; intros url; [split; reflexivity|].
  cbn [fold_left]. destruct (IH (buildQuery_turn url entry)) as [-> ->].
  apply turn_frame.
Qed.





End UrlFacts.

(** ** Parameters of any kind *)

Section AnyParamsFacts.











End AnyParamsFacts.

(** ** Paths *)

Section PathFacts.
Import Path.

Lemma append_cons (c : ascii) (a b : string) : String c a +:+ b = String c (a +:+ b).
Proof. reflexivity. Qed.

Lemma append_nil_l (b : string) : "" +:+ b = b.
Proof. reflexivity. Qed.

Lemma append_nil_r (a : string) : a +:+ "" = a.
Proof. induction a as [|c a IH]; [reflexivity|]. rewrite append_cons, IH. reflexivity. Qed.

Lemma append_assoc (a b c : string) : (a +:+ b) +:+ c = a +:+ (b +:+ c).
Proof. induction a as [|x a IH]; [reflexivity|]. rewrite !append_cons, IH. reflexivity. Qed.

Lemma split_not_nil (s : string) : split s <> [].
Proof.
  induction s as [|c s IH]; simpl; [discriminate|].
  destruct (Str.is_slash c); [discriminate|]. destruct (split s); discriminate.
Qed.

Lemma split_all_notSlash (s : string) :
  Forall (fun seg => Str.all Path.notSlash seg = true) (split s).
Proof.
  induction s as [|c s IH]; simpl.
  - repeat constructor.
  - destruct (Str.is_slash c) eqn:E.
    + constructor; [reflexivity|exact IH].
    + destruct (split s) as [|seg rest]; [repeat constructor; simpl; unfold notSlash; rewrite E; reflexivity|].
      inversion IH; subst. constructor; [|assumption].
      simpl. unfold notSlash at 1. rewrite E. simpl. assumption.
Qed.

Lemma split_app_slash (a b : string) :
  split (a +:+ String "/" b) = split a ++ split b.
Proof.
  induction a as [|c a IH].
  - reflexivity.
  - rewrite append_cons. simpl. rewrite IH.
    destruct (Str.is_slash c); [reflexivity|].
    pose proof (split_not_nil a) as Hne.
    destruct (split a); [contradiction|reflexivity].
Qed.

Lemma split_notSlash (s : string) : Str.all Path.notSlash s = true -> split s = [s].
Proof.
  induction s as [|c s IH]; simpl; [reflexivity|].
  intros H. apply andb_prop in H as [Hc Hs]. unfold notSlash in Hc.
  apply negb_true_iff in Hc. rewrite Hc, (IH Hs). reflexivity.
Qed.

Lemma isName_notSlash (seg : string) : Path.isName seg = true -> Str.all Path.notSlash seg = true.
Proof. unfold isName. intros H. apply andb_prop in H as [_ H]. exact H. Qed.

Lemma normalizeStep_name (b : bool) (stack : list string) (seg : string) :
  Path.isName seg = true -> normalizeStep b stack seg = seg :: stack.
Proof.
  unfold isName, normalizeStep. intros H.
  apply andb_prop in H as [H _]. apply andb_prop in H as [H H2].
  apply andb_prop in H as [H0 H1].
  apply negb_true_iff in H0, H1, H2. rewrite H0, H1, H2. reflexivity.
Qed.

Lemma fold_names (b : bool) (segs stack : list string) :
  Forall (fun seg => Path.isName seg = true) segs ->
  fold_left (normalizeStep b) segs stack = rev segs ++ stack.
Proof.
  intros H. revert stack. induction H as [|seg segs Hseg _ IH]; intros stack; simpl.
  - reflexivity.
  - rewrite normalizeStep_name by exact Hseg. rewrite IH, <- app_assoc. reflexivity.
Qed.

Lemma normalizeStep_keeps_names (stack : list string) (seg : string) :
  Str.all Path.notSlash seg = true ->
  Forall (fun seg => Path.isName seg = true) stack ->
  Forall (fun seg => Path.isName seg = true) (normalizeStep false stack seg).
Proof.
  intros Hseg Hstack. unfold normalizeStep.
  destruct (String.eqb seg "") eqn:E0; [exact Hstack|].
  destruct (String.eqb seg ".") eqn:E1; [exact Hstack|]. cbn [orb].
  destruct (String.eqb seg "..") eqn:E2.
  - destruct stack as [|top rest]; [constructor|].
    destruct (String.eqb top ".."); [exact Hstack|]. inversion Hstack; assumption.
  - constructor; [|exact Hstack]. unfold isName. rewrite E0, E1, E2, Hseg. reflexivity.
Qed.

Lemma fold_keeps_names (segs stack : list string) :
  Forall (fun seg => Str.all Path.notSlash seg = true) segs ->
  Forall (fun seg => Path.isName seg = true) stack ->
  Forall (fun seg => Path.isName seg = true) (fold_left (normalizeStep false) segs stack).
Proof.
  intros H. revert stack. induction H as [|seg segs Hseg _ IH]; intros stack Hstack; simpl.
  - exact Hstack.
  - apply IH, normalizeStep_keeps_names; assumption.
Qed.

Lemma normalizeSegments_names (s : string) :
  Forall (fun seg => Path.isName seg = true) (normalizeSegments false (split s)).
Proof.
  unfold normalizeSegments. apply Forall_rev.
  apply fold_keeps_names; [apply split_all_notSlash|constructor].
Qed.

Lemma split_join (segs : list string) :
  Forall (fun seg => Path.isName seg = true) segs -> segs <> [] ->
  split (Str.join "/" segs) = segs.
Proof.
  intros H. induction H as [|seg segs Hseg Hsegs IH]; intros Hne; [contradiction|].
  destruct segs as [|seg' segs'].
  - simpl. apply split_notSlash, isName_notSlash, Hseg.
  - change (Str.join "/" (seg :: seg' :: segs'))
      with (seg +:+ String "/" (Str.join "/" (seg' :: segs'))).
    rewrite split_app_slash, IH by discriminate.
    rewrite split_notSlash by (apply isName_notSlash, Hseg). reflexivity.
Qed.

(** Resolving a path that is already resolved gives it back. *)
Lemma normalize_resolved (segs : list string) :
  Forall (fun seg => Path.isName seg = true) segs ->
  normalizeSegments false (split (("/" +:+ Str.join "/" segs) +:+ "/")) = segs.
Proof.
  intros H. rewrite append_assoc.
  change ("/" +:+ (Str.join "/" segs +:+ "/")) with (String "/" (Str.join "/" segs +:+ String "/" "")).
  cbn [split]. change (Str.is_slash "/") with true. cbn iota.
  rewrite split_app_slash. unfold normalizeSegments.
  destruct segs as [|seg segs'] eqn:E.
  - reflexivity.
  - rewrite <- E in *. rewrite split_join by (try exact H; subst; discriminate).
    cbn [fold_left]. change (normalizeStep false [] "") with (@nil string).
    rewrite fold_left_app. rewrite (fold_names false segs) by exact H.
    cbn [split fold_left]. rewrite app_nil_r.
    change (normalizeStep false (rev segs) "") with (rev segs).
    apply rev_involutive.
Qed.

Lemma resolveLoop_absolute (cwd : string) (args : list string) (acc : string) :
  Str.startsWith cwd "/" = true ->
  exists p, resolveLoop (args ++ [cwd]) acc = (p, true).
Proof.
  intros Habs. revert acc. induction args as [|a args IH]; intros acc; cbn [app resolveLoop].
  - destruct (String.eqb_spec cwd ""); [subst; discriminate|].
    rewrite Habs. eauto.
  - destruct (String.eqb a ""); [apply IH|].
    destruct (Str.startsWith a "/"); [eauto|apply IH].
Qed.

Lemma resolve_shape (cwd : string) (args : list string) :
  Str.startsWith cwd "/" = true ->
  exists segs, Forall (fun seg => Path.isName seg = true) segs
    /\ resolve cwd args = "/" +:+ Str.join "/" segs.
Proof.
  intros Habs. unfold resolve.
  destruct (resolveLoop_absolute cwd (rev args) "" Habs) as [p ->].
  cbn. unfold normalizeString.
  exists (normalizeSegments false (split p)). split; [apply normalizeSegments_names|reflexivity].
Qed.

Lemma resolve_resolved (cwd : string) (segs : list string) :
  Forall (fun seg => Path.isName seg = true) segs ->
  resolve cwd ["/" +:+ Str.join "/" segs] = "/" +:+ Str.join "/" segs.
Proof.
  intros H. unfold resolve. cbn [rev app resolveLoop].
  replace (String.eqb ("/" +:+ Str.join "/" segs) "") with false by reflexivity.
  replace (Str.startsWith ("/" +:+ Str.join "/" segs) "/") with true by reflexivity.
  cbn iota. cbn [negb]. unfold normalizeString. rewrite append_nil_r.
  rewrite normalize_resolved by exact H. reflexivity.
Qed.

Lemma resolve_idempotent (cwd : string) (args : list string) :
  Str.startsWith cwd "/" = true ->
  resolve cwd [resolve cwd args] = resolve cwd args.
Proof.
  intros Habs. destruct (resolve_shape cwd args Habs) as (segs & Hsegs & ->).
  apply resolve_resolved, Hsegs.
Qed.

End PathFacts.

(** ** Texts *)

Section TextFacts.

Lemma pretty_N_char_notSpace (x : N) : Str.notSpace (pretty_N_char x) = true.
Proof.
  unfold pretty_N_char.
  destruct x as [|p]; [reflexivity|].
  do 4 (try destruct p as [p|p|]); reflexivity.
Qed.

Lemma all_app (p : ascii -> bool) (a b : string) :
  Str.all p (a +:+ b) = Str.all p a && Str.all p b.
Proof.
  induction a as [|c a IH]; [reflexivity|].
  rewrite append_cons. simpl. rewrite IH, andb_assoc. reflexivity.
Qed.

Lemma pretty_N_go_digits (x : N) (s : string) :
  exists digits, pretty_N_go x s = digits +:+ s
    /\ Str.all Str.notSpace digits = true
    /\ (0 < x -> digits <> "").
Proof.
  revert s. induction (N.lt_wf_0 x) as [x _ IH]. intros s.
  destruct (N.eq_dec x 0) as [->|Hx].
  - exists "". rewrite pretty_N_go_0. split; [reflexivity|]. split; [reflexivity|lia].
  - rewrite pretty_N_go_step by lia.
    destruct (IH (x / 10)) with (s := String (pretty_N_char (x mod 10)) s)
      as (digits & -> & Hall & _).
    { apply N.div_lt; lia. }
    exists (digits +:+ String (pretty_N_char (x mod 10)) "").
    rewrite append_assoc. split; [reflexivity|]. split.
    + rewrite all_app, Hall. simpl. rewrite pretty_N_char_notSpace. reflexivity.
    + intros _. destruct digits; discriminate.
Qed.

Lemma pretty_N_digits (x : N) :
  Str.all Str.notSpace (pretty x) = true /\ pretty x <> "".
Proof.
  unfold pretty, pretty_N. destruct (decide (x = 0)) as [->|Hx].
  - split; [reflexivity|discriminate].
  - destruct (pretty_N_go_digits x "") as (digits & -> & Hall & Hne).
    rewrite append_nil_r. split; [exact Hall|apply Hne; lia].
Qed.

Lemma dropWhileEnd_keeps (p : ascii -> bool) (a b : string) :
  Str.all (fun c => negb (p c)) a = true -> a <> "" ->
  Str.dropWhileEnd p (a +:+ b) = a +:+ Str.dropWhileEnd p b.
Proof.
  induction a as [|c a IH]; intros Hall Hne; [contradiction|].
  simpl in Hall. apply andb_prop in Hall as [Hc Hall]. apply negb_true_iff in Hc.
  rewrite append_cons. cbn [Str.dropWhileEnd].
  destruct a as [|c' a'].
  - rewrite append_nil_l. rewrite Hc. destruct (Str.dropWhileEnd p b); reflexivity.
  - rewrite IH by (try exact Hall; discriminate). reflexivity.
Qed.

Lemma trim_carriesStatus (status : N) (rest : string) :
  Http.carriesStatus (Str.trim ("HTTP " +:+ pretty status +:+ " " +:+ rest)) status.
Proof.
  destruct (pretty_N_digits status) as [Hall Hne].
  unfold Http.carriesStatus, Str.trim.
  assert (Hdrop : Str.dropWhileEnd Str.is_space (pretty status +:+ String " " rest)
                  = pretty status +:+ Str.dropWhileEnd Str.is_space (String " " rest))
    by (apply dropWhileEnd_keeps; assumption).
  replace (Str.dropWhile Str.is_space ("HTTP " +:+ pretty status +:+ " " +:+ rest))
    with ("HTTP" +:+ String " " (pretty status +:+ String " " rest)) by reflexivity.
  rewrite (dropWhileEnd_keeps Str.is_space "HTTP") by (reflexivity || discriminate).
  cbn [Str.dropWhileEnd]. rewrite Hdrop. clear Hdrop.
  destruct (pretty status) as [|d ds]; [contradiction|]. rewrite append_cons.
  exists (Str.dropWhileEnd Str.is_space (String " " rest)). split; [reflexivity|].
  cbn [Str.dropWhileEnd]. destruct (Str.dropWhileEnd Str.is_space rest); auto.
Qed.

End TextFacts.

(** ** Image signatures *)

Section ImageFacts.
Import Http.

Lemma equals_eq (a b : bytes) : equals a b = true <-> a = b.
Proof.
  revert b. induction a as [|x a IH]; intros [|y b]; simpl; split; try congruence.
  - intros H. apply andb_prop in H as [Hxy Hab].
    apply Byte.byte_dec_bl in Hxy. apply IH in Hab. congruence.
  - intros [= -> ->]. rewrite (Byte.byte_dec_lb eq_refl). apply IH. reflexivity.
Qed.

(** [buffer.slice(from, from + n).equals(magic)], for a [magic] of [n]
    bytes, says that [magic] is what [buffer] holds at [from]. *)
Lemma equals_slice (from : nat) (magic buffer : bytes) :
  equals (slice from (from + length magic) buffer) magic = true
  <-> magic `prefix_of` skipn from buffer.
Proof.
  unfold slice. replace (from + length magic - from)%nat with (length magic) by lia.
  rewrite equals_eq. split.
  - intros H. exists (skipn (length magic) (skipn from buffer)).
    rewrite <- H at 1. symmetry. apply firstn_skipn.
  - intros [k ->]. rewrite firstn_app, Nat.sub_diag, firstn_all. simpl. apply app_nil_r.
Qed.

Lemma prefix_length (magic buffer : bytes) :
  magic `prefix_of` buffer -> (length magic <= length buffer)%nat.
Proof. intros [k ->]. rewrite length_app. lia. Qed.

Lemma declaresImage_nonempty (contentType : string) :
  declaresImage contentType -> String.eqb contentType "" = false.
Proof. destruct contentType; [discriminate|reflexivity]. Qed.

(** [looksLikeImage] decides: the content type is [image/*], or the body
    has at least four bytes and starts with one of the signatures. *)
Lemma looksLikeImage_spec (buffer : bytes) (contentType : string) :
  looksLikeImage buffer contentType = true
  <-> declaresImage contentType
      \/ ((4 <= length buffer)%nat /\ hasImageSignature buffer).
Proof.
  unfold looksLikeImage, hasImageSignature, declaresImage.
  destruct (Str.startsWith (Str.toLowerCase contentType) "image/") eqn:Ect.
  { rewrite (declaresImage_nonempty contentType Ect). simpl. tauto. }
  rewrite andb_false_r.
  destruct (Nat.ltb_spec (length buffer) 4) as [Hshort|Hlong].
  { split; [discriminate|]. intros [?|[? _]]; [discriminate|lia]. }
  pose proof (equals_slice 0 [xff; xd8; xff] buffer) as Hjpeg.
  pose proof (equals_slice 0 [x89; x50; x4e; x47; x0d; x0a; x1a; x0a] buffer) as Hpng.
  pose proof (equals_slice 0 (Str.utf8 "BM") buffer) as Hbmp.
  pose proof (equals_slice 0 (Str.utf8 "GIF87a") buffer) as Hgif87.
  pose proof (equals_slice 0 (Str.utf8 "GIF89a") buffer) as Hgif89.
  pose proof (equals_slice 0 [x49; x49; x2a; x00] buffer) as Htiffle.
  pose proof (equals_slice 0 [x4d; x4d; x00; x2a] buffer) as Htiffbe.
  pose proof (equals_slice 0 (Str.utf8 "RIFF") buffer) as Hriff.
  pose proof (equals_slice 8 (Str.utf8 "WEBP") buffer) as Hwebp.
  cbn [length Str.utf8 app Nat.add skipn] in *.
  change (N_of_ascii _ <? 128) with true in *. cbn iota in *. cbn [app length Nat.add] in *.
  destruct (equals (slice 0 3 buffer) _); [tauto|].
  destruct (equals (slice 0 8 buffer) _); [tauto|].
  destruct (equals (slice 0 2 buffer) _); [tauto|].
  destruct (equals (slice 0 6 buffer) _); [simpl; tauto|].
  destruct (equals (slice 0 6 buffer) _); [simpl; tauto|].
  destruct (equals (slice 0 4 buffer) _); [simpl; tauto|].
  destruct (equals (slice 0 4 buffer) _); [simpl; tauto|].
  destruct (equals (slice 0 4 buffer) _).
  - destruct (equals (slice 8 12 buffer) _).
    + destruct (Nat.leb_spec 12 (length buffer)) as [H12|H12]; [simpl; tauto|].
      pose proof (prefix_length _ _ (proj1 Hwebp eq_refl)) as Hlen.
      cbn [length] in Hlen. rewrite length_skipn in Hlen. lia.
    + rewrite andb_false_r. simpl. split; [discriminate|].
      intros [?|[_ H]]; [discriminate|].
      repeat (destruct H as [H|H]; [intuition discriminate|]).
      intuition discriminate.
  - rewrite andb_false_r. simpl. split; [discriminate|].
    intros [?|[_ H]]; [discriminate|].
    repeat (destruct H as [H|H]; [intuition discriminate|]).
    intuition discriminate.
Qed.

End ImageFacts.

(** ** Containment of paths *)

Section ContainmentFacts.
Import Path.

Lemma plainName_notSep (seg : string) :
  plainName seg = true -> Str.all notSep seg = true /\ seg <> "".
Proof.
  unfold plainName, isName. intros H. apply andb_prop in H as [H Hsep].
  split; [exact Hsep|]. intros ->. discriminate H.
Qed.

Lemma plain_names (segs : list string) :
  plain segs -> Forall (fun seg => isName seg = true) segs.
Proof.
  unfold plain. apply List.Forall_impl. intros seg H. unfold plainName in H.
  apply andb_prop in H as [H _]. exact H.
Qed.

(** [rooted segs] is the text of the path, except for the root directory. *)
Lemma rooted_join (segs : list string) :
  segs <> [] -> "/" +:+ Str.join "/" segs = rooted segs.
Proof.
  induction segs as [|seg segs IH]; intros Hne; [contradiction|].
  destruct segs as [|seg' segs'].
  - cbn. rewrite append_nil_r. reflexivity.
  - change (Str.join "/" (seg :: seg' :: segs'))
      with (seg +:+ ("/" +:+ Str.join "/" (seg' :: segs'))).
    rewrite IH by discriminate. reflexivity.
Qed.

Lemma rooted_slashed (segs : list string) : slashed (rooted segs).
Proof. destruct segs; [left|right]; reflexivity. Qed.

Lemma startsWith_nil_r (s : string) : Str.startsWith s "" = true.
Proof. reflexivity. Qed.

Lemma startsWith_cons (c d : ascii) (s p : string) :
  Str.startsWith (String d s) (String c p)
  = if Ascii.eqb c d then Str.startsWith s p else false.
Proof. reflexivity. Qed.

Lemma notSep_not_slash (c : ascii) : notSep c = true -> Ascii.eqb "/" c = false.
Proof.
  unfold notSep, Str.is_sep. intros H. apply negb_true_iff, orb_false_iff in H as [H _].
  rewrite Ascii.eqb_sym. exact H.
Qed.

(** Matching a name followed by a slash against a name followed by the end
    or by a slash: the names are the same, and the rest matches. *)
Lemma startsWith_name (t r x y : string) :
  Str.all notSep t = true -> Str.all notSep r = true ->
  slashed x ->
  Str.startsWith (t +:+ x) (r +:+ String "/" y) = true
  <-> t = r /\ Str.startsWith x (String "/" y) = true.
Proof.
  intros Ht Hr Hx. revert t Ht. induction r as [|b r IH]; intros t Ht.
  - rewrite append_nil_l. destruct t as [|a t].
    + rewrite append_nil_l. tauto.
    + simpl in Ht. apply andb_prop in Ht as [Ha _].
      rewrite append_cons, startsWith_cons, (notSep_not_slash a Ha).
      split; [discriminate|]. intros [[=] _].
  - simpl in Hr. apply andb_prop in Hr as [Hb Hr].
    rewrite append_cons. destruct t as [|a t].
    + rewrite append_nil_l. split; [|intros [[=] _]].
      destruct Hx as [->|Hx]; [discriminate|].
      destruct x as [|c x]; [discriminate|]. rewrite startsWith_cons in *.
      destruct (Ascii.eqb_spec "/" c) as [<-|]; [|discriminate].
      rewrite Ascii.eqb_sym, (notSep_not_slash b Hb). discriminate.
    + simpl in Ht. apply andb_prop in Ht as [_ Ht].
      rewrite append_cons, startsWith_cons.
      destruct (Ascii.eqb_spec b a) as [->|Hne].
      * rewrite (IH Hr t Ht). split; intros [H1 H2]; split; congruence.
      * split; [discriminate|]. intros [[=] _]. congruence.
Qed.

(** The text of [root] followed by a slash begins the text of [target]
    exactly when [target] lies strictly below [root]. *)
Lemma startsWith_rooted (root target : list string) :
  plain root -> plain target ->
  Str.startsWith (rooted target) (rooted root +:+ "/") = true
  <-> exists seg rest, target = root ++ seg :: rest.
Proof.
  intros Hroot. revert target. induction Hroot as [|r root Hr Hroot IH]; intros target Htarget.
  - cbn [rooted]. rewrite append_nil_l. destruct target as [|t target].
    + split; [discriminate|]. intros (seg & rest & [=]).
    + split; [eauto|reflexivity].
  - cbn [rooted]. rewrite append_cons. destruct Htarget as [|t target Ht Htarget].
    + split; [discriminate|]. intros (seg & rest & [=]).
    + cbn [rooted]. rewrite startsWith_cons. cbn iota.
      replace (Ascii.eqb "/" "/") with true by reflexivity.
      apply plainName_notSep in Hr as [Hr _]. apply plainName_notSep in Ht as [Ht _].
      rewrite append_assoc.
      destruct (rooted root +:+ "/") as [|c y] eqn:Ey.
      { destruct (rooted root); discriminate Ey. }
      assert (Hc : c = "/"%char).
      { destruct root; cbn [rooted] in Ey;
          [rewrite append_nil_l in Ey | rewrite append_cons in Ey];
          injection Ey as <- _; reflexivity. }
      subst c. rewrite startsWith_name by (try assumption; apply rooted_slashed).
      rewrite (IH target Htarget). split.
      * intros [-> (seg & rest & ->)]. eauto.
      * intros (seg & rest & [= -> ->]). eauto.
Qed.

Lemma rooted_inj (root target : list string) :
  plain root -> plain target -> rooted root = rooted target -> root = target.
Proof.
  intros Hroot. revert target. induction Hroot as [|r root Hr Hroot IH]; intros target Htarget.
  - destruct target; [reflexivity|discriminate].
  - destruct Htarget as [|t target Ht Htarget]; [discriminate|].
    cbn [rooted]. intros [= Heq].
    apply plainName_notSep in Hr as [Hr _]. apply plainName_notSep in Ht as [Ht _].
    assert (Hboth : r = t /\ rooted root = rooted target).
    { clear IH Hroot Htarget. revert t Ht Heq. induction r as [|b r IHr]; intros t Ht Heq.
      - destruct t as [|a t]; [rewrite !append_nil_l in Heq; auto|].
        exfalso. rewrite append_nil_l, append_cons in Heq.
        simpl in Ht. apply andb_prop in Ht as [Ha _].
        destruct root; [discriminate|]. cbn [rooted] in Heq. injection Heq as <- _.
        discriminate Ha.
      - simpl in Hr. apply andb_prop in Hr as [Hb Hr].
        destruct t as [|a t].
        + exfalso. rewrite append_nil_l, append_cons in Heq.
          destruct target; [discriminate|]. cbn [rooted] in Heq. injection Heq as -> _.
          discriminate Hb.
        + simpl in Ht. apply andb_prop in Ht as [_ Ht].
          rewrite !append_cons in Heq. injection Heq as -> Heq.
          destruct (IHr Hr t Ht Heq) as [-> ->]. auto. }
    destruct Hboth as [-> Hrest]. f_equal. apply IH; assumption.
Qed.

Lemma all_notSep_dropWhileEnd (b : string) :
  Str.all notSep b = true -> Str.dropWhileEnd Str.is_sep b = b.
Proof.
  induction b as [|c b IH]; [reflexivity|]. simpl. intros H.
  apply andb_prop in H as [Hc Hb]. rewrite (IH Hb).
  unfold notSep in Hc. apply negb_true_iff in Hc. rewrite Hc.
  destruct b; reflexivity.
Qed.

Lemma dropWhileEnd_rooted (segs : list string) :
  plain segs -> Str.dropWhileEnd Str.is_sep (rooted segs) = rooted segs.
Proof.
  induction 1 as [|seg segs Hseg Hsegs IH]; [reflexivity|].
  apply plainName_notSep in Hseg as [Hall Hne].
  cbn [rooted Str.dropWhileEnd].
  rewrite (dropWhileEnd_keeps Str.is_sep seg) by assumption.
  rewrite IH. destruct seg; [contradiction|]. reflexivity.
Qed.

Lemma endsWith_app_single (a b : string) (c : ascii) :
  b <> "" ->
  Str.endsWith (a +:+ b) (String c "") = Str.endsWith b (String c "").
Proof.
  intros Hb. induction a as [|x a IH]; [reflexivity|].
  rewrite append_cons. cbn [Str.endsWith]. rewrite IH.
  destruct (a +:+ b) eqn:E.
  - destruct a; [rewrite append_nil_l in E; contradiction|discriminate E].
  - cbn [String.eqb]. destruct (Ascii.eqb x c); reflexivity.
Qed.

Lemma endsWith_name (seg : string) (c : ascii) :
  Str.is_sep c = true -> Str.all notSep seg = true ->
  Str.endsWith seg (String c "") = false.
Proof.
  intros Hc. induction seg as [|x seg IH]; [reflexivity|]. simpl. intros H.
  apply andb_prop in H as [Hx Hseg]. rewrite (IH Hseg), orb_false_r.
  destruct (Ascii.eqb_spec x c) as [->|]; [|reflexivity].
  unfold notSep in Hx. rewrite Hc in Hx. discriminate.
Qed.

Lemma endsWith_rooted (segs : list string) (c : ascii) :
  Str.is_sep c = true -> plain segs ->
  Str.endsWith (rooted segs) (String c "") = false.
Proof.
  intros Hc. induction 1 as [|seg segs Hseg Hsegs IH]; [reflexivity|].
  apply plainName_notSep in Hseg as [Hall Hne].
  cbn [rooted]. change (String "/" (seg +:+ rooted segs)) with ("/" +:+ (seg +:+ rooted segs)).
  rewrite endsWith_app_single by (destruct seg; [contradiction|discriminate]).
  destruct segs as [|seg' segs'].
  - cbn [rooted]. rewrite append_nil_r. apply endsWith_name; assumption.
  - rewrite endsWith_app_single by discriminate. exact IH.
Qed.

Lemma includes_backslash_name (seg rest : string) :
  Str.all notSep seg = true ->
  Str.includes (seg +:+ rest) "\" = Str.includes rest "\".
Proof.
  induction seg as [|x seg IH]; [reflexivity|]. cbn [Str.all]. intros H.
  apply andb_prop in H as [Hx Hseg]. rewrite append_cons. cbn [Str.includes].
  rewrite (IH Hseg), startsWith_cons.
  unfold notSep, Str.is_sep in Hx. apply negb_true_iff, orb_false_iff in Hx as [_ Hx].
  rewrite Ascii.eqb_sym, Hx. reflexivity.
Qed.

Lemma includes_backslash_rooted (segs : list string) :
  plain segs -> Str.includes (rooted segs) "\" = false.
Proof.
  induction 1 as [|seg segs Hseg Hsegs IH]; [reflexivity|].
  apply plainName_notSep in Hseg as [Hall _].
  cbn [rooted Str.includes]. rewrite includes_backslash_name by exact Hall.
  rewrite IH. reflexivity.
Qed.

Section Rooted.

Variable cwd : string.
Hypothesis cwd_absolute : Str.startsWith cwd "/" = true.

Lemma resolve_segments (path : string) :
  resolve cwd [path] = "/" +:+ Str.join "/" (segments cwd path).
Proof.
  unfold resolve, segments. cbn [rev app].
  destruct (resolveLoop_absolute cwd [path] "" cwd_absolute) as [p Hp].
  cbn [app] in Hp. rewrite Hp. reflexivity.
Qed.

Lemma segments_names (path : string) :
  Forall (fun seg => isName seg = true) (segments cwd path).
Proof. apply normalizeSegments_names. Qed.

Lemma segments_resolve (path : string) :
  segments cwd (resolve cwd [path]) = segments cwd path.
Proof.
  rewrite resolve_segments. unfold segments at 1. cbn [resolveLoop].
  replace (String.eqb ("/" +:+ Str.join "/" (segments cwd path)) "") with false by reflexivity.
  replace (Str.startsWith ("/" +:+ Str.join "/" (segments cwd path)) "/") with true
    by reflexivity.
  cbn [fst]. rewrite append_nil_r. apply normalize_resolved, segments_names.
Qed.

(** What [normalizeForCompare] makes of a path whose names are plain. *)
Lemma normalizeForCompare_rooted (path : string) :
  plain (segments cwd path) ->
  Str.dropWhileEnd Str.is_sep (resolve cwd [path]) = rooted (segments cwd path).
Proof.
  intros Hplain. rewrite resolve_segments.
  destruct (segments cwd path) as [|seg segs] eqn:E; [reflexivity|].
  rewrite rooted_join by discriminate. apply dropWhileEnd_rooted. exact Hplain.
Qed.

End Rooted.

End ContainmentFacts.

(** ** Key resolution *)

Section ResolverFacts.

Import Auth.

Variable pf : Platform.
Variable base64_decode : string -> bytes.

(** [process.cwd()] is an absolute path. *)
Hypothesis cwd_absolute : Str.startsWith (cwd pf) "/" = true.

(** On paths whose names are plain, [isWithinRoot] decides containment. *)
Lemma isWithinRoot_within (root target : string) :
  Path.plain (Path.segments (cwd pf) root) ->
  Path.plain (Path.segments (cwd pf) target) ->
  isWithinRoot pf root target = true <-> within pf root target.
Proof.
  intros Hroot Htarget. unfold isWithinRoot, normalizeForCompare, resolve, within.
  rewrite !normalizeForCompare_rooted by assumption.
  set (R := Path.segments (cwd pf) root) in *.
  set (T := Path.segments (cwd pf) target) in *.
  rewrite !endsWith_rooted, includes_backslash_rooted by (reflexivity || assumption).
  cbn [orb].
  destruct (String.eqb_spec (Path.rooted R) (Path.rooted T)) as [Heq|Hne].
  - apply rooted_inj in Heq; [|assumption..]. rewrite Heq.
    split; [intros _; exists []; symmetry; apply app_nil_r|reflexivity].
  - rewrite startsWith_rooted by assumption. split.
    + intros (seg & rest & ->). exists (seg :: rest). reflexivity.
    + intros [[|seg rest] ->].
      * rewrite app_nil_r in Hne. contradiction.
      * eauto.
Qed.

(** A path outside the roots fails the test of every root. *)
Lemma outsideRoots_refused (path : string) :
  outsideRoots pf path ->
  existsb (allowedBy pf (resolve pf [path])) (SAFE_KEY_ROOTS pf) = false.
Proof.
  intros [Hplain Hroots]. apply not_true_is_false. intros Hex.
  apply existsb_exists in Hex as (root & Hin & Hallowed).
  unfold allowedBy in Hallowed. apply andb_prop in Hallowed as [Hne Hwithin].
  destruct (String.eqb_spec root "") as [|Hroot]; [discriminate Hne|].
  destruct (Hroots root Hin Hroot) as [Hrootplain Hout].
  assert (Hseg : Path.segments (cwd pf) (resolve pf [path]) = Path.segments (cwd pf) path)
    by (apply segments_resolve, cwd_absolute).
  apply isWithinRoot_within in Hwithin; [|exact Hrootplain|rewrite Hseg; exact Hplain].
  apply Hout. unfold within in *. rewrite <- Hseg. exact Hwithin.
Qed.

Lemma normalizeKeyPath_Ok (value path : string) :
  normalizeKeyPath pf value = Ok path ->
  path = resolve pf [value]
  /\ existsb (allowedBy pf path) (SAFE_KEY_ROOTS pf) = true.
Proof.
  unfold normalizeKeyPath.
  destruct (existsb _ _) eqn:E; intros H; inversion H; subst. auto.
Qed.

Lemma normalizeKeyPath_resolved (value path : string) :
  normalizeKeyPath pf value = Ok path -> normalizeKeyPath pf path = Ok path.
Proof.
  intros H. apply normalizeKeyPath_Ok in H as [-> Hallowed].
  assert (Hidem : resolve pf [resolve pf [value]] = resolve pf [value])
    by (unfold resolve; apply resolve_idempotent, cwd_absolute).
  unfold normalizeKeyPath. rewrite Hidem, Hallowed. reflexivity.
Qed.

Lemma findKeyPathLoop_calls (cands : list string) (c : fs_call) :
  In c (snd (findKeyPathLoop pf cands)) -> exists path, c = CallExists path.
Proof.
  induction cands as [|candidate rest IH]; simpl; [tauto|].
  destruct (String.eqb candidate ""); [exact IH|].
  destruct (existsSync pf candidate).
  - destruct (normalizeKeyPath pf candidate).
    + simpl. intros [<-|[]]. eauto.
    + destruct (findKeyPathLoop pf rest) as [r calls]. simpl in *.
      intros [<-|H]; eauto.
  - destruct (findKeyPathLoop pf rest) as [r calls]. simpl in *.
    intros [<-|H]; eauto.
Qed.

Lemma findKeyPathLoop_found (cands : list string) (path : string) :
  fst (findKeyPathLoop pf cands) = Some path ->
  exists candidate, In candidate cands
    /\ existsSync pf candidate = true
    /\ normalizeKeyPath pf candidate = Ok path.
Proof.
  induction cands as [|candidate rest IH]; simpl; [discriminate|].
  destruct (String.eqb candidate "").
  { intros H. destruct (IH H) as (c & ? & ? & ?). eauto. }
  destruct (existsSync pf candidate) eqn:Ex.
  - destruct (normalizeKeyPath pf candidate) eqn:En.
    + simpl. intros [= ->]. eauto.
    + destruct (findKeyPathLoop pf rest) as [r calls]. simpl in *.
      intros H. destruct (IH H) as (c & ? & ? & ?). eauto.
  - destruct (findKeyPathLoop pf rest) as [r calls]. simpl in *.
    intros H. destruct (IH H) as (c & ? & ? & ?). eauto.
Qed.

(** The loop passes over a candidate that is outside the roots. *)
Lemma findKeyPathLoop_outside (candidate : string) (rest : list string) :
  candidate <> "" ->
  existsb (allowedBy pf (resolve pf [candidate])) (SAFE_KEY_ROOTS pf) = false ->
  findKeyPathLoop pf (candidate :: rest)
  = (fst (findKeyPathLoop pf rest), CallExists candidate :: snd (findKeyPathLoop pf rest)).
Proof.
  intros Hne Hout. cbn [findKeyPathLoop].
  destruct (String.eqb_spec candidate ""); [contradiction|].
  unfold normalizeKeyPath. rewrite Hout.
  destruct (existsSync pf candidate); destruct (findKeyPathLoop pf rest); reflexivity.
Qed.

(** What [resolveKeyMaterial] reads is inside a root, and its failures are
    a missing key or an unreadable file. *)
Lemma resolveKeyMaterial_outcome (options : AuthOptions) :
  let '(r, calls) := resolveKeyMaterial pf base64_decode options in
  (forall path, In (CallRead path) calls ->
     existsb (allowedBy pf path) (SAFE_KEY_ROOTS pf) = true)
  /\ (forall resolved, r <> Throw (PathNotAllowed resolved)).
Proof.
  unfold resolveKeyMaterial.
  destruct (keyMaterial options) as [[s|b]|].
  - split; [intros ? []|discriminate].
  - split; [intros ? []|discriminate].
  - unfold findKeyPath.
    pose proof (findKeyPathLoop_calls (candidates pf (keyFile options))) as Hcalls.
    pose proof (findKeyPathLoop_found (candidates pf (keyFile options))) as Hfound.
    destruct (findKeyPathLoop pf (candidates pf (keyFile options))) as [[path|] calls];
      simpl in Hcalls, Hfound.
    + destruct (Hfound path eq_refl) as (candidate & _ & _ & Hnorm).
      pose proof (normalizeKeyPath_resolved _ _ Hnorm) as Hagain.
      apply normalizeKeyPath_Ok in Hnorm as [_ Hallowed].
      unfold readKeyFile. rewrite Hagain.
      destruct (readFileSync pf path); (split; [|discriminate]);
        intros p Hin; apply in_app_or in Hin as [Hin|Hin];
        try (apply Hcalls in Hin as [? [=]]);
        destruct Hin as [[= <-]|[]]; exact Hallowed.
    + split; [|discriminate].
      intros p Hin. apply Hcalls in Hin as [? [=]].
Qed.

(** A candidate that fails the test of every root is passed over. *)
Lemma refused_candidate_passed_over (candidate : string) :
  candidate <> "" ->
  existsb (allowedBy pf (resolve pf [candidate])) (SAFE_KEY_ROOTS pf) = false ->
  normalizeKeyPath pf candidate = Throw (PathNotAllowed (resolve pf [candidate]))
  /\ (forall rest,
        findKeyPathLoop pf (candidate :: rest)
        = (fst (findKeyPathLoop pf rest),
           CallExists candidate :: snd (findKeyPathLoop pf rest)))
  /\ (forall options,
        ~ In (CallRead (resolve pf [candidate]))
            (snd (resolveKeyMaterial pf base64_decode options))
        /\ forall resolved,
             fst (resolveKeyMaterial pf base64_decode options)
             <> Throw (PathNotAllowed resolved)).
Proof.
  intros Hne Hout. split; [|split].
  - unfold normalizeKeyPath. rewrite Hout. reflexivity.
  - intros rest. apply findKeyPathLoop_outside; assumption.
  - intros options. pose proof (resolveKeyMaterial_outcome options) as H.
    destruct (resolveKeyMaterial pf base64_decode options) as [r calls].
    destruct H as [Hread Hfail]. cbn [fst snd]. split; [|exact Hfail].
    intros Hin. apply Hread in Hin. congruence.
Qed.

(** C2, as the code has it.  A candidate that resolves outside every
    permitted root is refused by [normalizeKeyPath] with [PathNotAllowed];
    [findKeyPath] catches that error and passes over the candidate, so that
    the search goes on with the candidates that follow; the file is never
    read, and [PathNotAllowed] is never the outcome of the resolution. *)
Theorem outside_candidate_passed_over (candidate : string) :
  candidate <> "" ->
  outsideRoots pf candidate ->
  normalizeKeyPath pf candidate = Throw (PathNotAllowed (resolve pf [candidate]))
  /\ (forall rest,
        findKeyPathLoop pf (candidate :: rest)
        = (fst (findKeyPathLoop pf rest),
           CallExists candidate :: snd (findKeyPathLoop pf rest)))
  /\ (forall options,
        ~ In (CallRead (resolve pf [candidate]))
            (snd (resolveKeyMaterial pf base64_decode options))
        /\ forall resolved,
             fst (resolveKeyMaterial pf base64_decode options)
             <> Throw (PathNotAllowed resolved)).
Proof.
  intros Hne Hout. apply refused_candidate_passed_over; [exact Hne|].
  apply outsideRoots_refused. exact Hout.
Qed.

End ResolverFacts.

(** ** Base64 *)

Section Base64Facts.
Import Base64.

Lemma below_64_cases (P : N -> Prop) :
  Forall P (map N.of_nat (seq 0 64)) -> forall n, n < 64 -> P n.
Proof.
  intros HP n Hn. rewrite List.Forall_forall in HP. apply HP.
  rewrite <- (N2Nat.id n). apply in_map. apply in_seq. lia.
Qed.

Lemma index_char (n : N) : n < 64 -> index (char n) = Some n.
Proof.
  revert n. apply below_64_cases. repeat constructor.
Qed.

Lemma char_not_pad (n : N) : n < 64 -> is_pad (char n) = false.
Proof.
  revert n. apply below_64_cases. repeat constructor.
Qed.

Lemma to_N_below (x : byte) : Byte.to_N x < 256.
Proof.
  destruct (N.lt_ge_cases (Byte.to_N x) 256) as [H|H]; [exact H|].
  assert (Hn : Byte.of_N (Byte.to_N x) = None) by (apply Byte.of_N_None_iff; lia).
  rewrite Byte.of_to_N in Hn. discriminate.
Qed.

Lemma byte_of_to_N (x : byte) : byte_of_N (Byte.to_N x) = x.
Proof. unfold byte_of_N. rewrite Byte.of_to_N. reflexivity. Qed.

Ltac divmod := zify; Z.to_euclidean_division_equations; lia.

Lemma list_ind3 {A} (P : list A -> Prop) :
  P [] -> (forall x, P [x]) -> (forall x y, P [x; y]) ->
  (forall x y z l, P l -> P (x :: y :: z :: l)) ->
  forall l, P l.
Proof.
  intros H0 H1 H2 H3.
  fix IH 1. intros [|x [|y [|z l]]];
    [exact H0 | apply H1 | apply H2 | apply H3; apply IH].
Qed.

Lemma decode_encode (b : bytes) : decode (encode b) = Some b.
Proof.
  induction b as [|x|x y|x y z l IH] using list_ind3.
  - reflexivity.
  - pose proof (to_N_below x) as Hx. cbn [encode].
    set (n := Byte.to_N x) in *. cbn [decode].
    rewrite (index_char (n / 4)), (index_char (n mod 4 * 16)) by divmod.
    cbn.
    replace (n / 4 * 4 + n mod 4 * 16 / 16) with n by divmod.
    subst n. rewrite byte_of_to_N. reflexivity.
  - pose proof (to_N_below x) as Hx. pose proof (to_N_below y) as Hy.
    cbn [encode].
    set (n := Byte.to_N x) in *. set (m := Byte.to_N y) in *. cbn [decode].
    rewrite (index_char (n / 4)), (index_char (n mod 4 * 16 + m / 16)),
      (index_char (m mod 16 * 4)), (char_not_pad (m mod 16 * 4)) by divmod.
    cbn.
    replace (n / 4 * 4 + (n mod 4 * 16 + m / 16) / 16) with n by divmod.
    replace ((n mod 4 * 16 + m / 16) mod 16 * 16 + m mod 16 * 4 / 4) with m by divmod.
    subst n m. rewrite !byte_of_to_N. reflexivity.
  - pose proof (to_N_below x) as Hx. pose proof (to_N_below y) as Hy.
    pose proof (to_N_below z) as Hz.
    cbn [encode].
    set (n := Byte.to_N x) in *. set (m := Byte.to_N y) in *. set (k := Byte.to_N z) in *.
    cbn [decode].
    rewrite (index_char (n / 4)), (index_char (n mod 4 * 16 + m / 16)),
      (index_char (m mod 16 * 4 + k / 64)), (index_char (k mod 64)),
      (char_not_pad (m mod 16 * 4 + k / 64)), (char_not_pad (k mod 64)) by divmod.
    rewrite IH.
    replace (n / 4 * 4 + (n mod 4 * 16 + m / 16) / 16) with n by divmod.
    replace ((n mod 4 * 16 + m / 16) mod 16 * 16 + (m mod 16 * 4 + k / 64) / 4) with m by divmod.
    replace ((m mod 16 * 4 + k / 64) mod 4 * 64 + k mod 64) with k by divmod.
    subst n m k. rewrite !byte_of_to_N. reflexivity.
Qed.
End Base64Facts.

(** ** Claims on [buildQuery] *)




(** ** Claims on the Authorization header *)

Section SignerFacts.

Import Auth.

Variable pf : Platform.
Variable base64_decode : string -> bytes.
Variable sha512 : bytes -> bytes.
Variable signature : bytes -> bytes -> bytes.
Variable publicKey : bytes -> bytes.

(** What the model takes from the primitives: a SHA-512 digest has 64
    bytes, an Ed25519 signature under a 64-byte secret key has 64 bytes, and
    the public key of a 32-byte seed has 32 bytes. *)
Hypothesis sha512_length : forall m, length (sha512 m) = 64%nat.
Hypothesis signature_length :
  forall m sk, length sk = 64%nat -> length (signature m sk) = 64%nat.
Hypothesis publicKey_length :
  forall seed, length seed = 32%nat -> length (publicKey seed) = 32%nat.

Lemma buildPayload_ok (ctx : AuthContext) :
  (2 <= String.length (challenge ctx))%nat ->
  buildPayload base64_decode ctx
  = Ok (base64_decode (Str.slice1 (challenge ctx))
        ++ Str.utf8 ("|" +:+ telescopeId ctx +:+ "|" +:+ ToString (bootCount ctx))).
Proof.
  intros Hlen. unfold buildPayload.
  destruct (challenge ctx) as [|c rest] eqn:E; [simpl in Hlen; lia|].
  replace (String.eqb (String c rest) "") with false by reflexivity.
  cbn [orb].
  destruct (Nat.ltb_spec (String.length (String c rest)) 2); [lia|reflexivity].
Qed.

Lemma buildPayload_short (ctx : AuthContext) :
  (String.length (challenge ctx) < 2)%nat ->
  buildPayload base64_decode ctx = Throw InvalidChallenge.
Proof.
  intros Hlen. unfold buildPayload.
  destruct (Nat.ltb_spec (String.length (challenge ctx)) 2); [|lia].
  rewrite orb_true_r. reflexivity.
Qed.

Lemma expandedKey_length (keyBytes : bytes) :
  length keyBytes = 32%nat \/ length keyBytes = 64%nat ->
  length (expandedKey publicKey keyBytes) = 64%nat.
Proof.
  unfold expandedKey. intros [H|H].
  - rewrite H. simpl. rewrite length_app, publicKey_length, H by exact H. reflexivity.
  - rewrite H. simpl. exact H.
Qed.

Lemma signDigest_ok (digest keyBytes : bytes) :
  length keyBytes = 32%nat \/ length keyBytes = 64%nat ->
  signDigest signature publicKey digest keyBytes
  = Ok (signature digest (expandedKey publicKey keyBytes) ++ digest).
Proof.
  intros Hlen. pose proof (expandedKey_length keyBytes Hlen) as Hexp.
  unfold signDigest, expandedKey in *. destruct Hlen as [H|H]; rewrite H in *; simpl in *.
  - unfold fromSeed_secretKey. rewrite H. simpl.
    unfold nacl_sign. rewrite Hexp. reflexivity.
  - unfold nacl_sign. rewrite H. reflexivity.
Qed.

Lemma signDigest_rejects (digest keyBytes : bytes) :
  length keyBytes <> 32%nat -> length keyBytes <> 64%nat ->
  signDigest signature publicKey digest keyBytes
  = Throw (UnsupportedKeyLength (length keyBytes)).
Proof.
  intros H32 H64. unfold signDigest.
  destruct (Nat.eqb_spec (length keyBytes) 64); [contradiction|].
  destruct (Nat.eqb_spec (length keyBytes) 32); [contradiction|].
  reflexivity.
Qed.

(** C1. With a challenge of at least two characters and a key of 32 or 64
    bytes, [buildAuthorizationHeader] returns [Basic android|], the first
    character of the challenge, [|], and the base64 text of the signed
    message: the 64-byte signature followed by the 64-byte SHA-512 digest
    of the decoded challenge remainder and the bytes of
    [|telescopeId|bootCount].  The signed message has 128 bytes for either
    key form, and decoding the base64 text gives it back. *)
Theorem buildAuthorizationHeader_format (ctx : AuthContext) (options : AuthOptions)
    (keyBytes : bytes) (calls : list fs_call) :
  resolveKeyMaterial pf base64_decode options = (Ok keyBytes, calls) ->
  (2 <= String.length (challenge ctx))%nat ->
  length keyBytes = 32%nat \/ length keyBytes = 64%nat ->
  let payload := base64_decode (Str.slice1 (challenge ctx))
                 ++ Str.utf8 ("|" +:+ telescopeId ctx +:+ "|" +:+ ToString (bootCount ctx)) in
  let digest := sha512 payload in
  let signed := signature digest (expandedKey publicKey keyBytes) in
  let blob := signed ++ digest in
  fst (buildAuthorizationHeader pf base64_decode sha512 signature publicKey ctx options)
  = Ok ("Basic android|" +:+ Str.head (challenge ctx) +:+ "|" +:+ Base64.encode blob)
  /\ length signed = 64%nat
  /\ length digest = 64%nat
  /\ length blob = 128%nat
  /\ Base64.decode (Base64.encode blob) = Some blob.
Proof.
  intros Hkey Hlen Hk payload digest signed blob.
  assert (Hsig : length signed = 64%nat)
    by (apply signature_length, expandedKey_length, Hk).
  assert (Hdig : length digest = 64%nat) by apply sha512_length.
  split; [|split; [exact Hsig|split; [exact Hdig|split]]].
  - unfold buildAuthorizationHeader. rewrite Hkey. cbn [fst].
    unfold signHeader. rewrite (buildPayload_ok ctx Hlen). cbn [rbind].
    rewrite (signDigest_ok _ keyBytes Hk). reflexivity.
  - unfold blob. rewrite length_app, Hsig, Hdig. reflexivity.
  - apply decode_encode.
Qed.

(** C4, as the code has it.  [buildAuthorizationHeader] resolves the key
    before it looks at the challenge: when the resolution fails, its error
    is the error of the call, whatever the challenge.  With the key
    resolved, a challenge shorter than two characters makes it fail with
    [InvalidChallenge], and a challenge of at least two characters with a
    key that has neither 32 nor 64 bytes makes it fail with
    [UnsupportedKeyLength].  The failure is the direct result of the call;
    the file-system calls are the ones of the resolution of the key, and
    there are none, and the resolution succeeds, when the key material is
    supplied in the options. *)
Theorem buildAuthorizationHeader_rejects (ctx : AuthContext) (options : AuthOptions) :
  let resolution := resolveKeyMaterial pf base64_decode options in
  let outcome :=
    buildAuthorizationHeader pf base64_decode sha512 signature publicKey ctx options in
  snd outcome = snd resolution
  /\ (keyMaterial options <> None ->
      snd resolution = [] /\ exists keyBytes, fst resolution = Ok keyBytes)
  /\ match fst resolution with
     | Throw e => fst outcome = Throw e
     | Ok keyBytes =>
         ((String.length (challenge ctx) < 2)%nat ->
          fst outcome = Throw InvalidChallenge)
         /\ ((2 <= String.length (challenge ctx))%nat ->
             length keyBytes <> 32%nat -> length keyBytes <> 64%nat ->
             fst outcome = Throw (UnsupportedKeyLength (length keyBytes)))
     end.
Proof.
  intros resolution outcome. subst resolution outcome.
  unfold buildAuthorizationHeader.
  split; [|split].
  - destruct (resolveKeyMaterial pf base64_decode options) as [[keyBytes|e] calls];
      reflexivity.
  - intros Hmem. unfold resolveKeyMaterial.
    destruct (keyMaterial options) as [[s|b]|]; [| |contradiction];
      (split; [reflexivity|eexists; reflexivity]).
  - destruct (resolveKeyMaterial pf base64_decode options) as [[keyBytes|e] calls];
      cbn [fst]; [|reflexivity].
    unfold signHeader. split.
    + intros Hshort. rewrite (buildPayload_short ctx Hshort). reflexivity.
    + intros Hlong H32 H64. rewrite (buildPayload_ok ctx Hlong). cbn [rbind].
      rewrite (signDigest_rejects _ keyBytes H32 H64). reflexivity.
Qed.

End SignerFacts.

(** ** The HTTP client *)

Section ClientFacts.

Import Http.

Variable options : ClientOptions.
Variable fetchImpl : list FetchCall -> FetchCall -> FetchOutcome.
Variable URL_parse : string -> option URL.
Variable JSON_stringify : value -> string.
Variable routesData : list RouteDefinition.

Lemma allProbesFail_cons (earlier : list FetchCall) (prefix : string) (rest : list string) :
  allProbesFail options fetchImpl earlier (prefix :: rest) ->
  probeSucceeds options fetchImpl earlier prefix = false
  /\ allProbesFail options fetchImpl (earlier ++ [probeOf options prefix]) rest.
Proof.
  intros H. split.
  - specialize (H 0%nat prefix eq_refl). simpl in H. rewrite app_nil_r in H. exact H.
  - intros i q Hq. specialize (H (S i) q Hq). simpl in H.
    rewrite <- app_assoc. exact H.
Qed.

Lemma detectLoop_step_fail (prefix : string) (rest : list string) (c : Client) :
  probeSucceeds options fetchImpl (calls c) prefix = false ->
  detectLoop options fetchImpl (prefix :: rest) c
  = detectLoop options fetchImpl rest
      {| baseUrl := baseUrl c; calls := calls c ++ [probeOf options prefix] |}.
Proof.
  unfold probeSucceeds, probeOf. intros H. cbn [detectLoop]. unfold _fetchWithTimeout.
  destruct (fetchImpl (calls c) _) as [r|]; [rewrite H|]; reflexivity.
Qed.

Lemma detectLoop_step_success (prefix : string) (rest : list string) (c : Client) :
  probeSucceeds options fetchImpl (calls c) prefix = true ->
  detectLoop options fetchImpl (prefix :: rest) c
  = (Ok (_makeBaseUrl options prefix),
     {| baseUrl := Some (_makeBaseUrl options prefix);
        calls := calls c ++ [probeOf options prefix] |}).
Proof.
  unfold probeSucceeds, probeOf. intros H. cbn [detectLoop]. unfold _fetchWithTimeout.
  destruct (fetchImpl (calls c) _) as [r|]; [rewrite H; reflexivity|discriminate].
Qed.

Lemma detectLoop_none (prefixes : list string) (c : Client) :
  allProbesFail options fetchImpl (calls c) prefixes ->
  detectLoop options fetchImpl prefixes c
  = (Throw BaseUrlNotDetected,
     {| baseUrl := baseUrl c; calls := calls c ++ map (probeOf options) prefixes |}).
Proof.
  revert c. induction prefixes as [|prefix rest IH]; intros c Hfail.
  - simpl. rewrite app_nil_r. destruct c; reflexivity.
  - apply allProbesFail_cons in Hfail as [Hp Hrest].
    rewrite detectLoop_step_fail by exact Hp.
    rewrite IH by exact Hrest. cbn [calls baseUrl map].
    rewrite <- app_assoc. reflexivity.
Qed.

Lemma detectLoop_first (before : list string) (prefix : string) (after : list string)
    (c : Client) :
  allProbesFail options fetchImpl (calls c) before ->
  probeSucceeds options fetchImpl (calls c ++ map (probeOf options) before) prefix = true ->
  detectLoop options fetchImpl (before ++ prefix :: after) c
  = (Ok (_makeBaseUrl options prefix),
     {| baseUrl := Some (_makeBaseUrl options prefix);
        calls := calls c ++ map (probeOf options) (before ++ [prefix]) |}).
Proof.
  revert c. induction before as [|q before IH]; intros c Hfail Hok.
  - simpl in *. rewrite app_nil_r in Hok. apply detectLoop_step_success. exact Hok.
  - apply allProbesFail_cons in Hfail as [Hq Hrest].
    cbn [app]. rewrite detectLoop_step_fail by exact Hq.
    rewrite IH; cbn [calls baseUrl map app].
    + rewrite <- app_assoc. reflexivity.
    + exact Hrest.
    + rewrite <- app_assoc. exact Hok.
Qed.

(** *** The route catalog *)

Lemma find_app_first {A} (f : A -> bool) (l k : list A) :
  find f (l ++ k) = match find f l with
                    | Some x => Some x
                    | None => find f k
                    end.
Proof.
  induction l as [|x l IH]; simpl; [reflexivity|].
  destruct (f x); [reflexivity|exact IH].
Qed.

Lemma loadRoutes_fold (data : list RouteDefinition) (m : gmap string RouteDefinition)
    (id : string) :
  fold_left (fun m item => <[operationId item := item]> m) data m !! id
  = match find (fun item => String.eqb (operationId item) id) (rev data) with
    | Some route => Some route
    | None => m !! id
    end.
Proof.
  revert m. induction data as [|item data IH]; intros m; simpl; [reflexivity|].
  rewrite IH, find_app_first.
  destruct (find _ (rev data)); [reflexivity|]. simpl.
  destruct (String.eqb_spec (operationId item) id) as [<-|Hne].
  - apply lookup_insert_eq.
  - apply lookup_insert_ne. exact Hne.
Qed.

(** An identifier no entry of the catalog carries is absent of the map. *)
Lemma loadRoutes_absent (id : string) :
  ~ In id (map operationId routesData) -> loadRoutes routesData !! id = None.
Proof.
  intros Hnot. unfold loadRoutes. rewrite loadRoutes_fold, lookup_empty.
  destruct (find _ (rev routesData)) as [route|] eqn:E; [|reflexivity].
  apply find_some in E as [Hin Heq]. apply String.eqb_eq in Heq.
  exfalso. apply Hnot. rewrite <- Heq. apply in_map, in_rev, Hin.
Qed.

(** The map holds, for an identifier, the last entry that carries it. *)
Lemma loadRoutes_present (before after : list RouteDefinition) (route : RouteDefinition) :
  routesData = before ++ route :: after ->
  ~ In (operationId route) (map operationId after) ->
  loadRoutes routesData !! operationId route = Some route.
Proof.
  intros -> Hlast. unfold loadRoutes. rewrite loadRoutes_fold.
  rewrite rev_app_distr. cbn [rev]. rewrite <- app_assoc, find_app_first.
  destruct (find _ (rev after)) as [r|] eqn:E.
  - apply find_some in E as [Hin Heq]. apply String.eqb_eq in Heq.
    exfalso. apply Hlast. rewrite <- Heq. apply in_map, in_rev, Hin.
  - simpl. rewrite String.eqb_refl. reflexivity.
Qed.

(** C6. An [operationId] that no entry of the catalog carries makes
    [callOperation] fail with [UnknownOperation] and leaves the client as it
    was: the fetch layer has received no call.  For an [operationId] of the
    catalog, [callOperation] is [request] with the method and the path of
    its entry (the last one, should the file repeat an identifier). *)
Theorem callOperation_catalog (o : RequestOptions) (c : Client) :
  (forall id, ~ In id (map operationId routesData) ->
     callOperation options fetchImpl URL_parse JSON_stringify routesData id o c
     = (Throw (UnknownOperation id), c))
  /\ (forall before route after,
        routesData = before ++ route :: after ->
        ~ In (operationId route) (map operationId after) ->
        callOperation options fetchImpl URL_parse JSON_stringify routesData
          (operationId route) o c
        = request options fetchImpl URL_parse JSON_stringify
            (method route) (path route) o c).
Proof.
  split.
  - intros id Hid. unfold callOperation. rewrite (loadRoutes_absent id Hid). reflexivity.
  - intros before route after Hdata Hlast. unfold callOperation.
    rewrite (loadRoutes_present before after route Hdata Hlast). reflexivity.
Qed.

(** C5, as the code has it.  [detectBaseUrl] probes the prefixes in their
    order, each with a GET of [/app/status] under its candidate, the text
    [http://host:port] + prefix + [apiBasePath] without its trailing
    slashes.  It returns, and stores in the client, the candidate of the
    first prefix whose probe is answered with a successful status, having
    probed that prefix and the ones before it and no other; it fails with
    [BaseUrlNotDetected], having probed every prefix, when no probe
    succeeds. *)
Theorem detectBaseUrl_first_success (c : Client) :
  (forall before prefix after,
     prefixes options = before ++ prefix :: after ->
     allProbesFail options fetchImpl (calls c) before ->
     probeSucceeds options fetchImpl (calls c ++ map (probeOf options) before) prefix = true ->
     detectBaseUrl options fetchImpl c
     = (Ok (_makeBaseUrl options prefix),
        {| baseUrl := Some (_makeBaseUrl options prefix);
           calls := calls c ++ map (probeOf options) (before ++ [prefix]) |}))
  /\ (allProbesFail options fetchImpl (calls c) (prefixes options) ->
      detectBaseUrl options fetchImpl c
      = (Throw BaseUrlNotDetected,
         {| baseUrl := baseUrl c;
            calls := calls c ++ map (probeOf options) (prefixes options) |}))
  /\ (forall prefix,
        _makeBaseUrl options prefix
        = stripTrailingSlashes ("http://" +:+ host options +:+ ":" +:+ pretty (port options)
                                +:+ prefix +:+ apiBasePath options)
        /\ probeOf options prefix
           = {| call_url := _makeBaseUrl options prefix +:+ "/app/status";
                call_method := "GET";
                call_headers := ∅;
                call_body := None |}).
Proof.
  split; [|split].
  - intros before prefix after Hp Hfail Hok. unfold detectBaseUrl. rewrite Hp.
    apply detectLoop_first; assumption.
  - intros Hfail. apply detectLoop_none. exact Hfail.
  - intros prefix. split; reflexivity.
Qed.


Lemma downloadCall_query (urlOrPath : string) (o : DownloadImageOptions) (c c1 : Client)
    (base : string) (url : URL) :
  currentBase options fetchImpl c = (Ok base, c1) ->
  URL_parse (if Str.startsWith urlOrPath "http://" || Str.startsWith urlOrPath "https://"
             then urlOrPath
             else stripTrailingSlashes base +:+ "/" +:+ stripLeadingSlash urlOrPath)
  = Some url ->
  exists call,
    downloadCall options fetchImpl URL_parse urlOrPath o c = (Ok call, c1)
    /\ call_url call = URL_toString (buildQuery url (dl_params o))
    /\ call_method call = "GET".
Proof.
  intros Hbase Hurl. unfold downloadCall, bind. rewrite Hbase.
  unfold parseURL. rewrite Hurl. unfold ret.
  eexists. split; [reflexivity|]. split; reflexivity.
Qed.

Lemma request_reaches (method path : string) (o : RequestOptions) (c c1 : Client)
    (call : FetchCall) (response : Response) :
  requestCall options fetchImpl URL_parse JSON_stringify method path o c = (Ok call, c1) ->
  fetchImpl (calls c1) call = Responds response ->
  request options fetchImpl URL_parse JSON_stringify method path o c
  = requestPayload response {| baseUrl := baseUrl c1; calls := calls c1 ++ [call] |}.
Proof.
  intros Hcall Hfetch. unfold request, bind. rewrite Hcall.
  unfold _fetchWithTimeout. rewrite Hfetch. reflexivity.
Qed.

Lemma downloadImage_reaches (urlOrPath : string) (o : DownloadImageOptions) (c c1 : Client)
    (call : FetchCall) (response : Response) :
  downloadCall options fetchImpl URL_parse urlOrPath o c = (Ok call, c1) ->
  fetchImpl (calls c1) call = Responds response ->
  downloadImage options fetchImpl URL_parse urlOrPath o c
  = downloadBytes response {| baseUrl := baseUrl c1; calls := calls c1 ++ [call] |}.
Proof.
  intros Hcall Hfetch. unfold downloadImage, bind. rewrite Hcall.
  unfold _fetchWithTimeout. rewrite Hfetch. reflexivity.
Qed.

(** C7, as the code has it.  When the response of [request] has a status
    outside 200..299 and its payload can be read (the content type is not
    JSON, or the JSON body parses), [request] fails with an error whose
    text begins with [HTTP] and the status in decimal. *)
Theorem request_http_error (method path : string) (o : RequestOptions) (c c1 : Client)
    (call : FetchCall) (response : Response) :
  requestCall options fetchImpl URL_parse JSON_stringify method path o c = (Ok call, c1) ->
  fetchImpl (calls c1) call = Responds response ->
  ok response = false ->
  (Str.includes (default "" (content_type response)) "application/json" = true ->
   json response <> None) ->
  exists text,
    fst (request options fetchImpl URL_parse JSON_stringify method path o c)
    = Throw (HttpError text)
    /\ carriesStatus text (status response).
Proof.
  intros Hcall Hfetch Hok Hjson.
  rewrite (request_reaches _ _ _ _ _ _ _ Hcall Hfetch).
  unfold requestPayload, bind.
  destruct (Str.includes _ "application/json").
  - destruct (json response) as [v|]; [|exfalso; apply Hjson; reflexivity].
    unfold ret. rewrite Hok. cbn. eexists. split; [reflexivity|].
    unfold requestErrorText. apply trim_carriesStatus.
  - unfold ret. rewrite Hok. cbn. eexists. split; [reflexivity|].
    unfold requestErrorText. apply trim_carriesStatus.
Qed.

(** C3, as the code has it.  [downloadImage] returns the bytes of the body
    unchanged when the status is successful.  When it is not, it returns
    them if and only if the response declares an [image/*] content type, or
    the body has at least four bytes and begins with one of the listed
    signatures; otherwise it fails with an error whose text begins with
    [HTTP] and the status in decimal. *)
Theorem downloadImage_tolerant (urlOrPath : string) (o : DownloadImageOptions)
    (c c1 : Client) (call : FetchCall) (response : Response) :
  downloadCall options fetchImpl URL_parse urlOrPath o c = (Ok call, c1) ->
  fetchImpl (calls c1) call = Responds response ->
  let buffer := arrayBuffer response in
  let contentType := default "" (content_type response) in
  let outcome := fst (downloadImage options fetchImpl URL_parse urlOrPath o c) in
  (ok response = true -> outcome = Ok buffer)
  /\ (ok response = false ->
      (outcome = Ok buffer
       <-> declaresImage contentType
           \/ ((4 <= length buffer)%nat /\ hasImageSignature buffer))
      /\ (outcome <> Ok buffer ->
          exists text, outcome = Throw (HttpError text)
                       /\ carriesStatus text (status response))).
Proof.
  intros Hcall Hfetch buffer contentType outcome. subst outcome.
  rewrite (downloadImage_reaches _ _ _ _ _ _ Hcall Hfetch).
  unfold downloadBytes. fold buffer. fold contentType.
  pose proof (looksLikeImage_spec buffer contentType) as Hspec.
  split.
  - intros ->. reflexivity.
  - intros ->. cbn [orb].
    destruct (looksLikeImage buffer contentType); cbn.
    + split; [|congruence]. split; [intros _; apply Hspec; reflexivity|reflexivity].
    + split.
      * split; [discriminate|]. intros H. apply Hspec in H. discriminate.
      * intros _. eexists. split; [reflexivity|].
        unfold downloadErrorText. apply trim_carriesStatus.
Qed.

End ClientFacts.

(** ** Claims on the command channel *)

(** C9. [sendCommand] makes one emit, under the event [message]: its data
    is the array [[name]] when the payload is [undefined] (none was
    supplied) and [[name, payload]] otherwise, and its acknowledgement is
    the callback when one was supplied and absent otherwise. *)
Theorem sendCommand_emits (Callback : Type) (command : string) (payload : value)
    (callback : option Callback) (socket : list (Socket.Emit Callback)) :
  exists data,
    Socket.sendCommand Callback command payload callback socket
    = socket ++ [Socket.Build_Emit Callback "message" data callback]
    /\ (payload = Undefined -> data = [Text command])
    /\ (payload <> Undefined -> data = [Text command; payload]).
Proof.
  unfold Socket.sendCommand.
  destruct payload; destruct callback; eexists; (split; [reflexivity|]);
    split; intros H; try reflexivity; try discriminate; contradiction.
Qed.

(** ** The reference primitives *)

Section ReferenceFacts.

Import Reference.

Lemma length_bytes_le (n : nat) (x : N) : length (bytes_le n x) = n.
Proof. unfold bytes_le. rewrite length_map, length_seq. reflexivity. Qed.

Lemma length_bytes_be (n : nat) (x : N) : length (bytes_be n x) = n.
Proof. unfold bytes_be. rewrite length_rev. apply length_bytes_le. Qed.

Lemma sha512_length (message : bytes) : length (sha512 message) = 64%nat.
Proof.
  unfold sha512. cbv zeta. rewrite !length_app, !length_bytes_be. reflexivity.
Qed.

Lemma pack_length (P : point) : length (pack P) = 32%nat.
Proof. destruct P as [[[x y] z] t]. unfold pack. apply length_bytes_le. Qed.

Lemma publicKey_length (seed : bytes) : length (publicKey seed) = 32%nat.
Proof. apply pack_length. Qed.

Lemma signature_length (message secretKey : bytes) :
  length (signature message secretKey) = 64%nat.
Proof.
  unfold signature. cbv zeta. rewrite length_app, pack_length, length_bytes_le.
  reflexivity.
Qed.

(** The digest of [abc] (FIPS 180-4, appendix C.1), in base64. *)
Example sha512_abc :
  Base64.encode (sha512 (Str.utf8 "abc"))
  = "3a81oZNherrMQXNJriBBMRLm+k6JqX6iCp7u5ktV05ohkpkqJ0/BqDa6PCOj/uu9RU1EI2Q86A4qmslPpUyknw==".
Proof. vm_compute. reflexivity. Qed.

(** The keys of a parsed object: the index first, and the repeated key
    once, with its last value. *)
Example JSON_parse_orders_keys :
  JSON_parse ("{" +:+ quote +:+ "b" +:+ quote +:+ ":1,"
              +:+ quote +:+ "2" +:+ quote +:+ ":2,"
              +:+ quote +:+ "b" +:+ quote +:+ ":4}")
  = Some (Obj [("2", Num 2); ("b", Num 4)]).
Proof. vm_compute. reflexivity. Qed.

(** The first test of RFC 8032: the public key of the seed, and the
    signature of the empty message. *)
Example ed25519_rfc8032_test1 :
  publicKey (firstn 32 Examples.rfc8032_secretKey) = skipn 32 Examples.rfc8032_secretKey
  /\ Base64.encode (signature [] Examples.rfc8032_secretKey) = Examples.rfc8032_signature.
Proof. split; vm_compute; reflexivity. Qed.

End ReferenceFacts.

(** ** Concrete runs *)

Section Runs.

Import Examples.


Example buildQuery_example_string :
  URL_toString (buildQuery example_url (Some example_params))
  = "http://example:8082/v1/app/status?a=1&b=x&b=y".
Proof. vm_compute. reflexivity. Qed.



(** A query that is written with [%20] stays as it is written when
    [params] adds nothing, and is serialized anew, the space as [+], when
    [params] adds a pair. *)
Example buildQuery_query_as_written :
  URL_toString (buildQuery queried_url None)
  = "http://example:8082/v1/app/status?x=a%20b"
  /\ URL_toString (buildQuery queried_url (Some [("skipped", Null)]))
     = "http://example:8082/v1/app/status?x=a%20b"
  /\ URL_toString (buildQuery queried_url (Some [("a", Num 1)]))
     = "http://example:8082/v1/app/status?x=a+b&a=1".
Proof. repeat split; vm_compute; reflexivity. Qed.

Example buildQuery_scalar_string :
  URL_toString (buildQuery example_url (Some scalar_params))
  = "http://example:8082/v1/app/status?a=1&flag=true".
Proof. vm_compute. reflexivity. Qed.

(** The two signing tests of [auth.test.js], run to the end. *)
Example header_of_64_byte_key :
  buildAuthorizationHeader (platform None []) ctxA (withKey key64)
  = (Ok ("Basic android|A|"
         +:+ "wkFLSsKgXqaQSYJ0EkINQr8CPnYa96a2jafK/0jkOx7QM8o13m74NOQZh5KUrA/C"
         +:+ "aneCVzlOtjwM1emsbaLgDOAqumAZWmmOM3iAqBNm1jKem4pTrUA2gUcosdPFHshg"
         +:+ "3lf+je8K56HRBd4sPpyUjpedQVlzr68PVEkUBFq2N9o="), []).
Proof. vm_compute. reflexivity. Qed.

Example header_of_32_byte_key :
  buildAuthorizationHeader (platform None []) ctxB (withKey key32)
  = (Ok ("Basic android|B|"
         +:+ "hsLWzdbQL6n4z1NKFV83qI/0Xjc0pvmkRnspeQxA9NmKDdIHQIS9ocT166Zg9OtV"
         +:+ "A1zQAfFnc8VwTt0qTeUsB8BK1PNkv8X9m2DZPdclnf58vVaIpXF4qFBQrsqCGdpj"
         +:+ "IKuVutkZra1y7hLJtHFtF0720I/jluFM9USQ59UMHkI="), []).
Proof. vm_compute. reflexivity. Qed.

Lemma buildAuthorizationHeader_format_witness :
  resolveKeyMaterial (platform None []) (withKey key32) = (Ok key32, [])
  /\ (2 <= String.length (Auth.challenge ctxB))%nat
  /\ (length key32 = 32%nat \/ length key32 = 64%nat)
  /\ let payload := Reference.base64_decode (Str.slice1 (Auth.challenge ctxB))
                    ++ Str.utf8 ("|" +:+ Auth.telescopeId ctxB +:+ "|"
                                 +:+ ToString (Auth.bootCount ctxB)) in
     let digest := Reference.sha512 payload in
     let signed := Reference.signature digest (Auth.expandedKey Reference.publicKey key32) in
     let blob := signed ++ digest in
     fst (Auth.buildAuthorizationHeader (platform None []) Reference.base64_decode
            Reference.sha512 Reference.signature Reference.publicKey ctxB (withKey key32))
     = Ok ("Basic android|" +:+ Str.head (Auth.challenge ctxB) +:+ "|" +:+ Base64.encode blob)
     /\ length signed = 64%nat
     /\ length digest = 64%nat
     /\ length blob = 128%nat
     /\ Base64.decode (Base64.encode blob) = Some blob.
Proof.
  assert (Hkey : resolveKeyMaterial (platform None []) (withKey key32) = (Ok key32, []))
    by reflexivity.
  assert (Hlen : (2 <= String.length (Auth.challenge ctxB))%nat) by (simpl; lia).
  assert (Hk : length key32 = 32%nat \/ length key32 = 64%nat) by (left; reflexivity).
  split; [exact Hkey|]. split; [exact Hlen|]. split; [exact Hk|].
  exact (buildAuthorizationHeader_format (platform None []) Reference.base64_decode
           Reference.sha512 Reference.signature Reference.publicKey
           sha512_length (fun m sk _ => signature_length m sk)
           (fun seed _ => publicKey_length seed)
           ctxB (withKey key32) key32 [] Hkey Hlen Hk).
Defined.

(** The test with the challenge [A], and a key of five bytes. *)
Lemma buildAuthorizationHeader_rejects_witness :
  buildAuthorizationHeader (platform None []) ctxShort (withKey key64)
  = (Throw InvalidChallenge, [])
  /\ buildAuthorizationHeader (platform None []) ctxA (withKey (repeat x01 5))
     = (Throw (UnsupportedKeyLength 5), []).
Proof.
  pose proof (buildAuthorizationHeader_rejects (platform None []) Reference.base64_decode
                Reference.sha512 Reference.signature Reference.publicKey
                ctxShort (withKey key64)) as (Hcalls & _ & Hshort & _).
  pose proof (buildAuthorizationHeader_rejects (platform None []) Reference.base64_decode
                Reference.sha512 Reference.signature Reference.publicKey
                ctxA (withKey (repeat x01 5))) as (Hcalls' & _ & _ & Hkey).
  split; apply injective_projections.
  - apply Hshort. simpl. lia.
  - exact Hcalls.
  - apply (Hkey ltac:(simpl; lia) ltac:(discriminate) ltac:(discriminate)).
  - exact Hcalls'.
Defined.

(** C4 as the specification states it fails: with the challenge [A] and
    no key in the options, the key is looked for in the file system first.
    When no key file exists the call fails with [KeyMaterialNotFound], not
    with [InvalidChallenge]; when one exists it is read before the call
    fails with [InvalidChallenge]. *)
Lemma short_challenge_resolves_key_first :
  (String.length (Auth.challenge ctxShort) < 2)%nat
  /\ buildAuthorizationHeader (platform None []) ctxShort noKey
     = (Throw KeyMaterialNotFound,
        [Auth.CallExists "/home/user/project/.auth_key";
         Auth.CallExists "/opt/oneane/src/node/vaonis_instruments_unified/.auth_key";
         Auth.CallExists "/opt/oneane/src/python/.auth_key"])
  /\ buildAuthorizationHeader (platform None [("/home/user/project/.auth_key", "AQEB")])
       ctxShort noKey
     = (Throw InvalidChallenge,
        [Auth.CallExists "/home/user/project/.auth_key";
         Auth.CallRead "/home/user/project/.auth_key"]).
Proof.
  split; [simpl; lia|]. split; vm_compute; reflexivity.
Qed.

(** The test with the key of five bytes. *)
Example five_byte_key_rejected :
  buildAuthorizationHeader (platform None []) ctxA (withKey (repeat x01 5))
  = (Throw (UnsupportedKeyLength 5), []).
Proof. vm_compute. reflexivity. Qed.

(** C2 as the specification states it fails: the key file outside the
    roots exists and [normalizeKeyPath] refuses it with [PathNotAllowed],
    yet the resolution ends with [KeyMaterialNotFound] when no other
    candidate exists. *)
Lemma outside_candidate_not_PathNotAllowed :
  Auth.existsSync outsideOnly outsideFile = true
  /\ Auth.normalizeKeyPath outsideOnly outsideFile = Throw (PathNotAllowed outsideFile)
  /\ fst (resolveKeyMaterial outsideOnly (withFile outsideFile)) = Throw KeyMaterialNotFound
  /\ fst (resolveKeyMaterial outsideOnly (withFile outsideFile))
     <> Throw (PathNotAllowed outsideFile).
Proof.
  split; [reflexivity|]. split; [reflexivity|]. split; [reflexivity|].
  vm_compute. discriminate.
Qed.

(** With a key file in the working directory, the resolution passes over
    the file outside the roots, reads the other one, and succeeds. *)
Example outside_candidate_falls_back :
  resolveKeyMaterial outsideAndDefault (withFile outsideFile)
  = (Ok [x02; x02; x02],
     [Auth.CallExists outsideFile;
      Auth.CallExists "/home/user/project/.auth_key";
      Auth.CallRead "/home/user/project/.auth_key"]).
Proof. vm_compute. reflexivity. Qed.

Lemma outside_candidate_passed_over_witness :
  Str.startsWith (Auth.cwd outsideOnly) "/" = true
  /\ outsideFile <> ""
  /\ Auth.outsideRoots outsideOnly outsideFile
  /\ Auth.normalizeKeyPath outsideOnly outsideFile
     = Throw (PathNotAllowed (Auth.resolve outsideOnly [outsideFile]))
  /\ ~ In (Auth.CallRead (Auth.resolve outsideOnly [outsideFile]))
         (snd (Auth.resolveKeyMaterial outsideOnly Reference.base64_decode
                 (withFile outsideFile))).
Proof.
  assert (Hcwd : Str.startsWith (Auth.cwd outsideOnly) "/" = true) by reflexivity.
  assert (Hne : outsideFile <> "") by discriminate.
  assert (Hout : Auth.outsideRoots outsideOnly outsideFile).
  { split; [vm_compute; repeat constructor|].
    intros root Hin Hroot. simpl in Hin.
    repeat (destruct Hin as [<-|Hin]); try contradiction;
      (split; [vm_compute; repeat constructor|]);
      intros [k Hk]; vm_compute in Hk; discriminate Hk. }
  split; [exact Hcwd|]. split; [exact Hne|]. split; [exact Hout|].
  destruct (outside_candidate_passed_over outsideOnly Reference.base64_decode Hcwd
              outsideFile Hne Hout) as (Hrefused & _ & Hres).
  split; [exact Hrefused|]. exact (proj1 (Hres (withFile outsideFile))).
Defined.

(** A path that ends with a backslash is outside what the theorem covers:
    the comparison of [isWithinRoot] drops the backslash, and the file
    [tmp\] of the root directory passes for the directory [/tmp]. *)
Example trailing_backslash_accepted :
  resolveKeyMaterial (platform (Some "/tmp\") [("/tmp\", "AQEB")])
    {| Auth.keyMaterial := None; Auth.keyFile := None |}
  = (Ok [x01; x01; x01], [Auth.CallExists "/tmp\"; Auth.CallRead "/tmp\"]).
Proof. vm_compute. reflexivity. Qed.

(** The test of [detectBaseUrl]: the probe of the empty prefix is answered
    with 404 and the probe of [/stellina/http] with 200. *)
Lemma detectBaseUrl_first_success_witness :
  Http.allProbesFail (clientOptions "/v1" [""; "/stellina/http"]) fetchStellina [] [""]
  /\ Http.probeSucceeds (clientOptions "/v1" [""; "/stellina/http"]) fetchStellina
       ([] ++ map (Http.probeOf (clientOptions "/v1" [""; "/stellina/http"])) [""])
       "/stellina/http" = true
  /\ detectBaseUrl (clientOptions "/v1" [""; "/stellina/http"]) fetchStellina fresh
     = (Ok "http://example:8082/stellina/http/v1",
        {| Http.baseUrl := Some "http://example:8082/stellina/http/v1";
           Http.calls :=
             [Http.probe "http://example:8082/v1";
              Http.probe "http://example:8082/stellina/http/v1"] |}).
Proof.
  assert (Hfail : Http.allProbesFail (clientOptions "/v1" [""; "/stellina/http"])
                    fetchStellina [] [""]).
  { intros [|i] prefix Hp; [|destruct i; discriminate Hp].
    injection Hp as <-. vm_compute. reflexivity. }
  assert (Hok : Http.probeSucceeds (clientOptions "/v1" [""; "/stellina/http"]) fetchStellina
                  ([] ++ map (Http.probeOf (clientOptions "/v1" [""; "/stellina/http"])) [""])
                  "/stellina/http" = true) by (vm_compute; reflexivity).
  split; [exact Hfail|]. split; [exact Hok|].
  exact (proj1 (detectBaseUrl_first_success (clientOptions "/v1" [""; "/stellina/http"])
                  fetchStellina fresh)
           [""] "/stellina/http" [] eq_refl Hfail Hok).
Defined.

Example detectBaseUrl_none_succeeds :
  fst (detectBaseUrl (clientOptions "/v1" [""; "/stellina/http"])
         (fetchAlways (textResponse "no" 404)) fresh)
  = Throw BaseUrlNotDetected.
Proof. vm_compute. reflexivity. Qed.

(** C5 as the specification states it fails: with the base path [/v1/] the
    text [http://host:port] + prefix + [apiBasePath] is
    [http://example:8082/v1/], but the candidate that is probed and
    returned is [http://example:8082/v1]. *)
Lemma detectBaseUrl_trims_candidate :
  "http://" +:+ Http.host (clientOptions "/v1/" [""]) +:+ ":"
    +:+ pretty (Http.port (clientOptions "/v1/" [""])) +:+ "" +:+ "/v1/"
  = "http://example:8082/v1/"
  /\ detectBaseUrl (clientOptions "/v1/" [""]) (fetchAlways (textResponse "ok" 200)) fresh
     = (Ok "http://example:8082/v1",
        {| Http.baseUrl := Some "http://example:8082/v1";
           Http.calls := [Http.probe "http://example:8082/v1"] |})
  /\ fst (detectBaseUrl (clientOptions "/v1/" [""]) (fetchAlways (textResponse "ok" 200)) fresh)
     <> Ok "http://example:8082/v1/".
Proof.
  split; [vm_compute; reflexivity|]. split; [vm_compute; reflexivity|].
  vm_compute. discriminate.
Qed.

(** The test of [callOperation] with an unknown identifier, and a call of
    an operation of the catalog. *)
Lemma callOperation_catalog_witness :
  ~ In "nope" (map Http.operationId routes)
  /\ callOperation (clientOptions "/v1" [""]) (fetchAlways (textResponse "hello" 200))
       "nope" noOptions cached
     = (Throw (UnknownOperation "nope"), cached)
  /\ callOperation (clientOptions "/v1" [""]) (fetchAlways (textResponse "hello" 200))
       "appGetStatus" noOptions cached
     = request (clientOptions "/v1" [""]) (fetchAlways (textResponse "hello" 200))
         "GET" "/app/status" noOptions cached.
Proof.
  assert (Hnope : ~ In "nope" (map Http.operationId routes))
    by (simpl; intuition discriminate).
  pose proof (callOperation_catalog (clientOptions "/v1" [""])
                (fetchAlways (textResponse "hello" 200))
                Reference.URL_parse Reference.JSON_stringify routes noOptions cached)
    as [Habsent Hpresent].
  split; [exact Hnope|]. split; [exact (Habsent "nope" Hnope)|].
  apply (Hpresent [] appGetStatus [appPostSetSettings] eq_refl).
  simpl. intuition discriminate.
Defined.

(** The test of [request] with status 400. *)
Lemma request_http_error_witness :
  requestCall (clientOptions "/v1" [""]) (fetchAlways (textResponse "bad" 400))
    "GET" "/app/status" noOptions cached = (Ok statusCall, cached)
  /\ Http.ok (textResponse "bad" 400) = false
  /\ exists text,
       fst (request (clientOptions "/v1" [""]) (fetchAlways (textResponse "bad" 400))
              "GET" "/app/status" noOptions cached)
       = Throw (HttpError text)
       /\ Http.carriesStatus text 400.
Proof.
  assert (Hcall : requestCall (clientOptions "/v1" [""]) (fetchAlways (textResponse "bad" 400))
                    "GET" "/app/status" noOptions cached = (Ok statusCall, cached))
    by (vm_compute; reflexivity).
  assert (Hok : Http.ok (textResponse "bad" 400) = false) by reflexivity.
  split; [exact Hcall|]. split; [exact Hok|].
  apply (request_http_error (clientOptions "/v1" [""]) (fetchAlways (textResponse "bad" 400))
           Reference.URL_parse Reference.JSON_stringify
           "GET" "/app/status" noOptions cached cached statusCall (textResponse "bad" 400)
           Hcall eq_refl Hok).
  intros Hjson. vm_compute in Hjson. discriminate Hjson.
Defined.

Example request_status_400 :
  fst (request (clientOptions "/v1" [""]) (fetchAlways (textResponse "bad" 400))
         "GET" "/app/status" noOptions cached)
  = Throw (HttpError "HTTP 400  bad").
Proof. vm_compute. reflexivity. Qed.

(** C7 as the specification states it fails: a response with status 400
    that announces JSON and whose body does not parse makes [request] fail
    with the [SyntaxError] of the parser, which carries no status. *)
Lemma request_broken_json_error :
  Http.ok (brokenJsonResponse 400) = false
  /\ fst (request (clientOptions "/v1" [""]) (fetchAlways (brokenJsonResponse 400))
            "GET" "/app/status" noOptions cached)
     = Throw SyntaxError.
Proof. split; vm_compute; reflexivity. Qed.

(** The test of [downloadImage] with status 500 and the PNG signature. *)
Lemma downloadImage_tolerant_witness :
  downloadCall (clientOptions "/v1" [""])
    (fetchAlways (bytesResponse png 500 "application/octet-stream"))
    "/image" noImageOptions cached = (Ok imageCall, cached)
  /\ Http.ok (bytesResponse png 500 "application/octet-stream") = false
  /\ fst (downloadImage (clientOptions "/v1" [""])
            (fetchAlways (bytesResponse png 500 "application/octet-stream"))
            "/image" noImageOptions cached)
     = Ok png.
Proof.
  assert (Hcall : downloadCall (clientOptions "/v1" [""])
                    (fetchAlways (bytesResponse png 500 "application/octet-stream"))
                    "/image" noImageOptions cached = (Ok imageCall, cached))
    by (vm_compute; reflexivity).
  assert (Hok : Http.ok (bytesResponse png 500 "application/octet-stream") = false)
    by reflexivity.
  split; [exact Hcall|]. split; [exact Hok|].
  destruct (downloadImage_tolerant (clientOptions "/v1" [""])
              (fetchAlways (bytesResponse png 500 "application/octet-stream"))
              Reference.URL_parse "/image" noImageOptions cached cached imageCall
              (bytesResponse png 500 "application/octet-stream") Hcall eq_refl)
    as [_ Hbad].
  apply (Hbad Hok). right. split; [simpl; lia|].
  right. left. exists []. reflexivity.
Defined.

Example downloadImage_plain_text_500 :
  fst (downloadImage (clientOptions "/v1" [""]) (fetchAlways (textResponse "no" 500))
         "/image" noImageOptions cached)
  = Throw (HttpError "HTTP 500").
Proof. vm_compute. reflexivity. Qed.

(** C3 as the specification states it fails: a body of three bytes that is
    the JPEG signature, under status 500 and a content type that is not an
    image, is refused, because [looksLikeImage] requires at least four
    bytes before it compares signatures. *)
Lemma downloadImage_short_signature_refused :
  Http.ok (bytesResponse jpegMagic 500 "text/plain") = false
  /\ Http.hasImageSignature jpegMagic
  /\ fst (downloadImage (clientOptions "/v1" [""])
            (fetchAlways (bytesResponse jpegMagic 500 "text/plain"))
            "/image" noImageOptions cached)
     = Throw (HttpError "HTTP 500").
Proof.
  split; [reflexivity|]. split; [left; exists []; reflexivity|].
  vm_compute. reflexivity.
Qed.

(** A command with a payload and an acknowledgement. *)
Lemma sendCommand_emits_witness :
  Socket.sendCommand nat "getStatus" Undefined None []
  = [Socket.Build_Emit nat "message" [Text "getStatus"] None]
  /\ Socket.sendCommand nat "setSystemTime" (Num 1700000000000) (Some 7%nat) []
     = [Socket.Build_Emit nat "message" [Text "setSystemTime"; Num 1700000000000]
          (Some 7%nat)].
Proof.
  destruct (sendCommand_emits nat "getStatus" Undefined None []) as (d1 & -> & H1 & _).
  destruct (sendCommand_emits nat "setSystemTime" (Num 1700000000000) (Some 7%nat) [])
    as (d2 & -> & _ & H2).
  rewrite (H1 eq_refl), (H2 ltac:(discriminate)). split; reflexivity.
Defined.

End Runs.

(** * Further properties *)

(** ** Key files *)

Section KeyFileFacts.

Import Auth.

Variable pf : Platform.
Variable base64_decode : string -> bytes.

(** [path.resolve] never returns the empty string. *)
Lemma resolve_not_empty (args : list string) : resolve pf args <> "".
Proof.
  unfold resolve, Path.resolve.
  destruct (Path.resolveLoop (rev args ++ [cwd pf]) "") as [p [|]].
  - discriminate.
  - destruct (String.eqb_spec (Path.normalizeString p (negb false)) "") as [|Hne];
      [discriminate|exact Hne].
Qed.

Lemma candidates_not_empty (explicitPath : option string) :
  Forall (fun c => c <> "") (candidates pf explicitPath).
Proof.
  unfold candidates. repeat apply Forall_app_2.
  - destruct explicitPath as [p|]; [|constructor].
    destruct (String.eqb_spec p ""); repeat constructor; assumption.
  - destruct (env_VAONIS_AUTH_KEY_FILE pf) as [p|]; [|constructor].
    destruct (String.eqb_spec p ""); repeat constructor; assumption.
  - repeat constructor; apply resolve_not_empty.
Qed.

(** The loop over candidates none of which is usable. *)
Lemma findKeyPathLoop_none (cands : list string) :
  Forall (fun c => c <> "") cands ->
  Forall (fun c => existsSync pf c = false
                   \/ normalizeKeyPath pf c = Throw (PathNotAllowed (resolve pf [c]))) cands ->
  findKeyPathLoop pf cands = (None, map CallExists cands).
Proof.
  induction cands as [|c cands IH]; intros Hne Hbad; [reflexivity|].
  apply Forall_cons_1 in Hne as [Hc Hne]. apply Forall_cons_1 in Hbad as [Hbad Hrest].
  cbn [findKeyPathLoop map].
  destruct (String.eqb_spec c ""); [contradiction|].
  rewrite (IH Hne Hrest).
  destruct Hbad as [Hex|Hnorm].
  - rewrite Hex. reflexivity.
  - rewrite Hnorm. destruct (existsSync pf c); reflexivity.
Qed.

Lemma findKeyPathLoop_first (before : list string) (candidate : string) (after : list string) :
  Forall (fun c => c <> "") (before ++ candidate :: after) ->
  Forall (fun c => existsSync pf c = false
                   \/ normalizeKeyPath pf c = Throw (PathNotAllowed (resolve pf [c]))) before ->
  existsSync pf candidate = true ->
  normalizeKeyPath pf candidate = Ok (resolve pf [candidate]) ->
  findKeyPathLoop pf (before ++ candidate :: after)
  = (Some (resolve pf [candidate]), map CallExists (before ++ [candidate])).
Proof.
  intros Hne Hbad Hex Hnorm.
  induction before as [|c before IH]; cbn [app findKeyPathLoop map] in *.
  - apply Forall_cons_1 in Hne as [Hc _].
    destruct (String.eqb_spec candidate ""); [contradiction|].
    rewrite Hex, Hnorm. reflexivity.
  - apply Forall_cons_1 in Hne as [Hc Hne]. apply Forall_cons_1 in Hbad as [Hbadc Hbad].
    destruct (String.eqb_spec c ""); [contradiction|].
    rewrite (IH Hne Hbad).
    destruct Hbadc as [Hexc|Hnormc].
    + rewrite Hexc. reflexivity.
    + rewrite Hnormc. destruct (existsSync pf c); reflexivity.
Qed.

(** X1. [findKeyPath] tries its candidates in order (the explicit key
    file, the file of the environment variable, then the three default
    locations) and returns the resolved path of the first one that exists
    and that [normalizeKeyPath] accepts, having asked the file system about
    that candidate and the ones before it, and no other; when no candidate
    is usable it returns nothing, having asked about every candidate. *)
Theorem findKeyPath_first_usable (explicitPath : option string) :
  let unusable (c : string) :=
    existsSync pf c = false
    \/ normalizeKeyPath pf c = Throw (PathNotAllowed (resolve pf [c])) in
  (forall before candidate after,
     candidates pf explicitPath = before ++ candidate :: after ->
     Forall unusable before ->
     existsSync pf candidate = true ->
     normalizeKeyPath pf candidate = Ok (resolve pf [candidate]) ->
     findKeyPath pf explicitPath
     = (Some (resolve pf [candidate]), map CallExists (before ++ [candidate])))
  /\ (Forall unusable (candidates pf explicitPath) ->
      findKeyPath pf explicitPath = (None, map CallExists (candidates pf explicitPath))).
Proof.
  intros unusable. pose proof (candidates_not_empty explicitPath) as Hne.
  split.
  - intros before candidate after Hc Hbad Hex Hnorm. unfold findKeyPath.
    rewrite Hc in *. apply findKeyPathLoop_first; assumption.
  - intros Hbad. unfold findKeyPath. apply findKeyPathLoop_none; assumption.
Qed.

(** [process.cwd()] is an absolute path. *)
Hypothesis cwd_absolute : Str.startsWith (cwd pf) "/" = true.

(** X2. When no key material is passed and [findKeyPath] finds a path,
    [readKeyFile] checks that path again and accepts it: the key is read
    from that very path, after the existence checks of the search, and is
    the base64 decoding of the trimmed text of the file; a failure to read
    is the only error left. *)
Theorem resolveKeyMaterial_reads_found (options : AuthOptions) (path : string)
    (calls : list fs_call) :
  keyMaterial options = None ->
  findKeyPath pf (keyFile options) = (Some path, calls) ->
  normalizeKeyPath pf path = Ok path
  /\ resolveKeyMaterial pf base64_decode options
     = (match readFileSync pf path with
        | Some text => Ok (base64_decode (Str.trim text))
        | None => Throw (FsError path)
        end,
        calls ++ [CallRead path]).
Proof.
  intros Hmem Hfound.
  assert (Hagain : normalizeKeyPath pf path = Ok path).
  { unfold findKeyPath in Hfound.
    destruct (findKeyPathLoop_found pf (candidates pf (keyFile options)) path)
      as (candidate & _ & _ & Hnorm); [rewrite Hfound; reflexivity|].
    apply (normalizeKeyPath_resolved pf cwd_absolute candidate path Hnorm). }
  split; [exact Hagain|].
  unfold resolveKeyMaterial. rewrite Hmem, Hfound. unfold readKeyFile. rewrite Hagain.
  destruct (readFileSync pf path); reflexivity.
Qed.

(** X3. On paths whose names are plain, [normalizeKeyPath] accepts a path
    exactly when it is one of the permitted roots or lies below one, and
    what it returns is the resolved path. *)
Theorem normalizeKeyPath_accepts_within (value : string) :
  Path.plain (Path.segments (cwd pf) value) ->
  (forall root, In root (SAFE_KEY_ROOTS pf) -> root <> "" ->
     Path.plain (Path.segments (cwd pf) root)) ->
  (normalizeKeyPath pf value = Ok (resolve pf [value])
   <-> exists root, In root (SAFE_KEY_ROOTS pf) /\ root <> "" /\ within pf root value)
  /\ (forall path, normalizeKeyPath pf value = Ok path -> path = resolve pf [value]).
Proof.
  intros Hplain Hroots.
  assert (Hseg : Path.segments (cwd pf) (resolve pf [value]) = Path.segments (cwd pf) value)
    by (apply segments_resolve, cwd_absolute).
  split.
  - unfold normalizeKeyPath. split.
    + destruct (existsb _ _) eqn:E; [intros _|discriminate].
      apply existsb_exists in E as (root & Hin & Hallowed).
      unfold allowedBy in Hallowed. apply andb_prop in Hallowed as [Hne Hwithin].
      destruct (String.eqb_spec root "") as [|Hroot]; [discriminate Hne|].
      exists root. split; [exact Hin|]. split; [exact Hroot|].
      apply (isWithinRoot_within pf cwd_absolute) in Hwithin;
        [|apply Hroots; assumption|rewrite Hseg; exact Hplain].
      unfold within in *. rewrite <- Hseg. exact Hwithin.
    + intros (root & Hin & Hroot & Hwithin).
      assert (E : existsb (allowedBy pf (resolve pf [value])) (SAFE_KEY_ROOTS pf) = true).
      { apply existsb_exists. exists root. split; [exact Hin|].
        unfold allowedBy. destruct (String.eqb_spec root ""); [contradiction|].
        cbn [negb andb].
        apply (isWithinRoot_within pf cwd_absolute);
          [apply Hroots; assumption|rewrite Hseg; exact Hplain|].
        unfold within in *. rewrite Hseg. exact Hwithin. }
      rewrite E. reflexivity.
  - intros path H. apply normalizeKeyPath_Ok in H as [-> _]. reflexivity.
Qed.

End KeyFileFacts.

(** ** The header *)

Section HeaderFacts.

Import Auth.

Lemma string_length_app (a b : string) :
  String.length (a +:+ b) = (String.length a + String.length b)%nat.
Proof. induction a as [|c a IH]; [reflexivity|]. rewrite append_cons. simpl. rewrite IH. reflexivity. Qed.

(** The base64 text of [n] bytes has four characters for every three
    bytes, the last group being padded. *)
Lemma encode_length (b : bytes) :
  String.length (Base64.encode b) = (4 * ((length b + 2) / 3))%nat.
Proof.
  induction b as [| x | x y | x y z rest IH] using list_ind3; try reflexivity.
  cbn [Base64.encode String.length length]. rewrite IH.
  replace (S (S (S (length rest))) + 2)%nat with ((length rest + 2) + 1 * 3)%nat by lia.
  rewrite Nat.div_add by lia. lia.
Qed.

Variable pf : Platform.
Variable base64_decode : string -> bytes.
Variable sha512 : bytes -> bytes.
Variable signature : bytes -> bytes -> bytes.
Variable publicKey : bytes -> bytes.

Hypothesis sha512_length : forall m, length (sha512 m) = 64%nat.
Hypothesis signature_length :
  forall m sk, length sk = 64%nat -> length (signature m sk) = 64%nat.
Hypothesis publicKey_length :
  forall seed, length seed = 32%nat -> length (publicKey seed) = 32%nat.

(** X4. A 32-byte seed and the 64-byte secret key made of that seed and
    its public key give the same header: [signDigest] signs with the
    expanded key in both cases. *)
Theorem seed_and_secret_key_agree (ctx : AuthContext) (seed : bytes)
    (keyFile : option string) :
  length seed = 32%nat ->
  buildAuthorizationHeader pf base64_decode sha512 signature publicKey ctx
    {| keyMaterial := Some (KeyBytes seed); keyFile := keyFile |}
  = buildAuthorizationHeader pf base64_decode sha512 signature publicKey ctx
      {| keyMaterial := Some (KeyBytes (seed ++ publicKey seed)); keyFile := keyFile |}.
Proof.
  intros Hseed.
  assert (Hfull : length (seed ++ publicKey seed) = 64%nat)
    by (rewrite length_app, publicKey_length, Hseed by exact Hseed; reflexivity).
  unfold buildAuthorizationHeader, resolveKeyMaterial. cbn [keyMaterial].
  f_equal. unfold signHeader.
  destruct (buildPayload base64_decode ctx) as [payload|e]; [|reflexivity].
  cbn [rbind]. unfold signDigest, fromSeed_secretKey, nacl_sign.
  rewrite Hseed, Hfull. cbn. rewrite Hfull. reflexivity.
Qed.

(** X5. A header has 188 characters: the 14 of [Basic android|], the
    prefix character, a bar, and the 172 of the base64 text of the 128
    bytes. *)
Theorem header_has_188_characters (ctx : AuthContext) (options : AuthOptions)
    (header : string) :
  fst (buildAuthorizationHeader pf base64_decode sha512 signature publicKey ctx options)
  = Ok header ->
  String.length header = 188%nat
  /\ Str.startsWith header "Basic android|" = true.
Proof.
  unfold buildAuthorizationHeader.
  destruct (resolveKeyMaterial pf base64_decode options) as [[keyBytes|e] calls];
    [|discriminate].
  cbn [fst]. unfold signHeader, buildPayload.
  destruct (challenge ctx) as [|c rest] eqn:E; [discriminate|].
  destruct (String.eqb (String c rest) "" || (String.length (String c rest) <? 2)%nat);
    [discriminate|].
  cbn [rbind]. unfold signDigest.
  set (digest := sha512 _).
  assert (Hdig : length digest = 64%nat) by apply sha512_length.
  assert (Hsigned : forall sk, length sk = 64%nat ->
            nacl_sign signature digest sk = Ok (signature digest sk ++ digest)
            /\ length (signature digest sk ++ digest) = 128%nat).
  { intros sk Hsk. unfold nacl_sign. rewrite Hsk. split; [reflexivity|].
    rewrite length_app, signature_length, Hdig by exact Hsk. reflexivity. }
  assert (Hlen : forall blob, length blob = 128%nat ->
            String.length ("Basic android|" +:+ Str.head (String c rest) +:+ "|"
                           +:+ Base64.encode blob) = 188%nat).
  { intros blob Hblob. rewrite !string_length_app, encode_length, Hblob. reflexivity. }
  destruct (Nat.eqb_spec (length keyBytes) 64) as [H64|_].
  - destruct (Hsigned keyBytes H64) as [-> Hblob]. cbn [rbind].
    intros [= <-]. split; [apply Hlen, Hblob|reflexivity].
  - destruct (Nat.eqb_spec (length keyBytes) 32) as [H32|_]; [|discriminate].
    unfold fromSeed_secretKey. rewrite H32. cbn [Nat.eqb rbind].
    assert (Hfull : length (keyBytes ++ publicKey keyBytes) = 64%nat)
      by (rewrite length_app, publicKey_length, H32 by exact H32; reflexivity).
    destruct (Hsigned _ Hfull) as [-> Hblob]. cbn [rbind].
    intros [= <-]. split; [apply Hlen, Hblob|reflexivity].
Qed.

End HeaderFacts.

Section KeyTextFacts.

Import Auth.

Variable pf : Platform.
Variable base64_decode : string -> bytes.

Lemma dropWhile_spaces (pad s : string) :
  Str.all Str.is_space pad = true ->
  Str.dropWhile Str.is_space (pad +:+ s) = Str.dropWhile Str.is_space s.
Proof.
  induction pad as [|c pad IH]; [reflexivity|]. cbn [Str.all]. intros H.
  apply andb_prop in H as [Hc Hpad]. rewrite append_cons. cbn [Str.dropWhile].
  rewrite Hc. apply IH, Hpad.
Qed.

Lemma dropWhileEnd_spaces (pad : string) :
  Str.all Str.is_space pad = true -> Str.dropWhileEnd Str.is_space pad = "".
Proof.
  induction pad as [|c pad IH]; [reflexivity|]. cbn [Str.all]. intros H.
  apply andb_prop in H as [Hc Hpad]. cbn [Str.dropWhileEnd].
  rewrite (IH Hpad), Hc. reflexivity.
Qed.

(** White space around a text without white space is trimmed away. *)
Lemma trim_padded (before key after : string) :
  Str.all Str.is_space before = true ->
  Str.all Str.is_space after = true ->
  Str.all Str.notSpace key = true ->
  Str.trim (before +:+ key +:+ after) = key.
Proof.
  intros Hb Ha Hk. unfold Str.trim. rewrite dropWhile_spaces by exact Hb.
  destruct key as [|c key]; [rewrite append_nil_l|].
  - assert (H : Str.dropWhile Str.is_space after = "").
    { clear -Ha. induction after as [|c after IH]; [reflexivity|].
      cbn [Str.all] in Ha. apply andb_prop in Ha as [Hc Ha].
      cbn [Str.dropWhile]. rewrite Hc. apply IH, Ha. }
    rewrite H. reflexivity.
  - pose proof Hk as Hk'. cbn [Str.all] in Hk'. apply andb_prop in Hk' as [Hc _].
    unfold Str.notSpace in Hc. apply negb_true_iff in Hc.
    rewrite append_cons. cbn [Str.dropWhile]. rewrite Hc. rewrite <- append_cons.
    rewrite dropWhileEnd_keeps by (exact Hk || discriminate).
    rewrite dropWhileEnd_spaces by exact Ha. apply append_nil_r.
Qed.

(** X6. White space around the key in the key file does not matter: a
    file inside the permitted roots that holds a text without white space
    (the base64 text of the key), with white space before it and after it
    (the line feed the extraction tool writes), is read as the decoding of
    that text. *)
Theorem readKeyFile_ignores_padding (path before key after : string) :
  normalizeKeyPath pf path = Ok path ->
  readFileSync pf path = Some (before +:+ key +:+ after) ->
  Str.all Str.is_space before = true ->
  Str.all Str.is_space after = true ->
  Str.all Str.notSpace key = true ->
  readKeyFile pf base64_decode path = (Ok (base64_decode key), [CallRead path]).
Proof.
  intros Hnorm Hread Hb Ha Hk. unfold readKeyFile. rewrite Hnorm, Hread.
  rewrite trim_padded by assumption. reflexivity.
Qed.

End KeyTextFacts.

Section PrefixFacts.

Import Auth.

Variable pf : Platform.
Variable base64_decode : string -> bytes.
Variable sha512 : bytes -> bytes.
Variable signature : bytes -> bytes -> bytes.
Variable publicKey : bytes -> bytes.

(** X7. The prefix character of the challenge is copied into the header
    and is not signed: two challenges that differ in their first character
    only give headers that differ in that character only, with the same
    base64 text. *)
Theorem prefix_is_not_signed (ctx : AuthContext) (options : AuthOptions)
    (prefix other : ascii) (rest header : string) :
  challenge ctx = String prefix rest ->
  fst (buildAuthorizationHeader pf base64_decode sha512 signature publicKey ctx options)
  = Ok header ->
  exists text,
    header = "Basic android|" +:+ String prefix "" +:+ "|" +:+ text
    /\ fst (buildAuthorizationHeader pf base64_decode sha512 signature publicKey
              {| challenge := String other rest;
                 telescopeId := telescopeId ctx;
                 bootCount := bootCount ctx |} options)
       = Ok ("Basic android|" +:+ String other "" +:+ "|" +:+ text).
Proof.
  intros Hc. unfold buildAuthorizationHeader.
  destruct (resolveKeyMaterial pf base64_decode options) as [[keyBytes|e] calls];
    [|discriminate].
  cbn [fst]. unfold signHeader, buildPayload. rewrite Hc.
  cbn [challenge telescopeId bootCount Str.slice1 Str.head String.length].
  replace (String.eqb (String prefix rest) "") with false by reflexivity.
  replace (String.eqb (String other rest) "") with false by reflexivity.
  destruct (false || (S (String.length rest) <? 2)%nat); [discriminate|].
  cbn [rbind].
  destruct (signDigest signature publicKey _ keyBytes) as [signedMessage|e];
    [|discriminate].
  cbn [rbind]. intros [= <-]. eexists. split; reflexivity.
Qed.

End PrefixFacts.

(** ** Requests *)

Section RequestFacts.

Import Http.

Lemma dropWhileEnd_end (p : ascii -> bool) (s : string) (c : ascii) :
  p c = true -> Str.endsWith (Str.dropWhileEnd p s) (String c "") = false.
Proof.
  intros Hc. induction s as [|x s IH]; [reflexivity|]. cbn [Str.dropWhileEnd].
  destruct (Str.dropWhileEnd p s) as [|y d] eqn:E.
  - destruct (p x) eqn:Hx; [reflexivity|]. cbn.
    destruct (Ascii.eqb_spec x c) as [->|]; [congruence|reflexivity].
  - change (Str.endsWith (String x (String y d)) (String c ""))
      with (String.eqb (String x (String y d)) (String c "")
            || Str.endsWith (String y d) (String c "")).
    rewrite IH, orb_false_r. cbn [String.eqb].
    destruct (Ascii.eqb x c); reflexivity.
Qed.

Lemma dropWhileEnd_idempotent (p : ascii -> bool) (s : string) :
  Str.dropWhileEnd p (Str.dropWhileEnd p s) = Str.dropWhileEnd p s.
Proof.
  induction s as [|x s IH]; [reflexivity|]. cbn [Str.dropWhileEnd].
  destruct (Str.dropWhileEnd p s) as [|y d] eqn:E.
  - destruct (p x) eqn:Hx; [reflexivity|]. cbn. rewrite Hx. reflexivity.
  - change (Str.dropWhileEnd p (String x (String y d)))
      with (match Str.dropWhileEnd p (String y d) with
            | EmptyString => if p x then EmptyString else String x EmptyString
            | rest => String x rest
            end).
    rewrite IH. reflexivity.
Qed.

Variable options : ClientOptions.
Variable fetchImpl : list FetchCall -> FetchCall -> FetchOutcome.
Variable URL_parse : string -> option URL.
Variable JSON_stringify : value -> string.
Variable routesData : list RouteDefinition.


Lemma currentBase_unknown (c : Client) :
  truthy (baseUrl c) = None ->
  currentBase options fetchImpl c = detectBaseUrl options fetchImpl c.
Proof. intros H. unfold currentBase. rewrite H. reflexivity. Qed.




Lemma makeBaseUrl_stripped (prefix : string) :
  stripTrailingSlashes (_makeBaseUrl options prefix) = _makeBaseUrl options prefix.
Proof. unfold _makeBaseUrl, stripTrailingSlashes. apply dropWhileEnd_idempotent. Qed.

(** X8. The candidate base URLs never end with a slash, so that the
    removal of trailing slashes in [request] and [downloadImage] leaves a
    detected base URL as it is. *)
Theorem base_url_has_no_trailing_slash (prefix : string) :
  Str.endsWith (_makeBaseUrl options prefix) "/" = false
  /\ stripTrailingSlashes (_makeBaseUrl options prefix) = _makeBaseUrl options prefix.
Proof.
  split.
  - unfold _makeBaseUrl, stripTrailingSlashes. apply dropWhileEnd_end. reflexivity.
  - apply makeBaseUrl_stripped.
Qed.



(** X10. Without a known base URL (none, or the empty string) and with no
    prefix answering the probe, nothing is sent: [request] and
    [downloadImage] fail with [BaseUrlNotDetected] after the probes, also
    for a download whose address is an absolute URL, which needs no base. *)
Theorem nothing_sent_without_base (c : Client) :
  truthy (baseUrl c) = None ->
  allProbesFail options fetchImpl (calls c) (prefixes options) ->
  let after := {| baseUrl := baseUrl c;
                  calls := calls c ++ map (probeOf options) (prefixes options) |} in
  (forall method path o,
     request options fetchImpl URL_parse JSON_stringify method path o c
     = (Throw BaseUrlNotDetected, after))
  /\ (forall urlOrPath o,
        downloadImage options fetchImpl URL_parse urlOrPath o c
        = (Throw BaseUrlNotDetected, after)).
Proof.
  intros Hbase Hfail after.
  assert (Hdetect : currentBase options fetchImpl c = (Throw BaseUrlNotDetected, after)).
  { rewrite (currentBase_unknown c Hbase). unfold detectBaseUrl.
    apply detectLoop_none. exact Hfail. }
  split.
  - intros method path o. unfold request, requestCall, bind. rewrite Hdetect. reflexivity.
  - intros urlOrPath o. unfold downloadImage, downloadCall, bind. rewrite Hdetect.
    reflexivity.
Qed.


(** X12. A response with a successful status is returned as its payload:
    the parsed body when the content type contains [application/json], the
    text of the body otherwise. *)
Theorem request_returns_payload (method path : string) (o : RequestOptions)
    (c c1 : Client) (call : FetchCall) (response : Response) :
  requestCall options fetchImpl URL_parse JSON_stringify method path o c = (Ok call, c1) ->
  fetchImpl (calls c1) call = Responds response ->
  ok response = true ->
  fst (request options fetchImpl URL_parse JSON_stringify method path o c)
  = if Str.includes (default "" (content_type response)) "application/json"
    then match json response with
         | Some v => Ok v
         | None => Throw SyntaxError
         end
    else Ok (Text (text response)).
Proof.
  intros Hcall Hfetch Hok.
  rewrite (request_reaches _ _ _ _ _ _ _ _ _ _ _ Hcall Hfetch).
  unfold requestPayload, bind, ret, throw.
  destruct (Str.includes _ _); [destruct (json response)|]; rewrite ?Hok; reflexivity.
Qed.

(** X13. The headers and the body [request] sends: [Authorization] is
    the [auth] option when it is not empty, whatever the caller's headers
    say; with a [jsonBody] the body is its JSON text, whatever [body] is,
    and [Content-Type] is [application/json] unless the caller's headers
    carry one that is not empty; every other header is the caller's. *)
Theorem request_headers_and_body (method path : string) (o : RequestOptions)
    (c c1 : Client) (call : FetchCall) :
  requestCall options fetchImpl URL_parse JSON_stringify method path o c = (Ok call, c1) ->
  call_headers call !! "Authorization"
  = match truthy (auth o) with
    | Some a => Some a
    | None => headers o !! "Authorization"
    end
  /\ call_headers call !! "Content-Type"
     = match jsonBody o, truthy (headers o !! "Content-Type") with
       | Some _, None => Some "application/json"
       | _, _ => headers o !! "Content-Type"
       end
  /\ (forall name, name <> "Authorization" -> name <> "Content-Type" ->
        call_headers call !! name = headers o !! name)
  /\ call_body call
     = match jsonBody o with
       | Some j => Some (JSON_stringify j)
       | None => body o
       end.
Proof.
  unfold requestCall, bind, parseURL, ret, throw.
  destruct (currentBase options fetchImpl c) as [[base|e] c']; [|discriminate].
  destruct (URL_parse _) as [url|]; [|discriminate].
  assert (Hauth : forall name, name <> "Authorization" ->
            withAuth (auth o) (headers o) !! name = headers o !! name).
  { intros name Hname. unfold withAuth. destruct (truthy (auth o)); [|reflexivity].
    apply lookup_insert_ne. congruence. }
  assert (Hct : withAuth (auth o) (headers o) !! "Content-Type"
                = headers o !! "Content-Type") by (apply Hauth; discriminate).
  destruct (jsonBody o) as [j|].
  - rewrite Hct. destruct (truthy (headers o !! "Content-Type")) as [ct|] eqn:Et;
      intros [= <- _]; cbn [call_headers call_body].
    + repeat split.
      * unfold withAuth. destruct (truthy (auth o)); [apply lookup_insert_eq|reflexivity].
      * exact Hct.
      * intros name Hn _. apply Hauth, Hn.
    + repeat split.
      * rewrite lookup_insert_ne by discriminate.
        unfold withAuth. destruct (truthy (auth o)); [apply lookup_insert_eq|reflexivity].
      * apply lookup_insert_eq.
      * intros name Hn Hn'. rewrite lookup_insert_ne by congruence. apply Hauth, Hn.
  - intros [= <- _]; cbn [call_headers call_body].
    repeat split.
    + unfold withAuth. destruct (truthy (auth o)); [apply lookup_insert_eq|reflexivity].
    + rewrite Hct. destruct (truthy (headers o !! "Content-Type")); reflexivity.
    + intros name Hn _. apply Hauth, Hn.
Qed.

End RequestFacts.

(** ** Images and queries *)

Section ImageQueryFacts.

Import Http.

(** X14. Whether a body looks like an image depends on its first twelve
    bytes only, and on the content type. *)
Theorem looksLikeImage_first_twelve_bytes (buffer : bytes) (contentType : string) :
  looksLikeImage buffer contentType = looksLikeImage (firstn 12 buffer) contentType.
Proof.
  unfold looksLikeImage, slice.
  do 12 (destruct buffer as [|? buffer]; [reflexivity|]).
  reflexivity.
Qed.

Import Query.

Lemma filter_foreign_set (keys : list string) (q : searchParams) (key val : string) :
  In key keys ->
  List.filter (foreign keys) (set q key val) = List.filter (foreign keys) q.
Proof.
  intros Hin.
  assert (Hkey : forall p, named key p = true -> foreign keys p = false).
  { intros p Hp. apply named_eq in Hp. unfold foreign. apply negb_false_iff.
    apply existsb_exists. exists key. split; [exact Hin|]. rewrite Hp. apply String.eqb_refl. }
  induction q as [|p q IH]; cbn [set].
  - cbn. rewrite (Hkey (key, val)) by (apply named_eq; reflexivity). reflexivity.
  - destruct (named key p) eqn:E.
    + cbn [List.filter]. rewrite (Hkey (key, val)) by (apply named_eq; reflexivity).
      rewrite (Hkey p E). clear IH.
      induction q as [|r q IH]; [reflexivity|]. cbn [List.filter].
      destruct (named key r) eqn:Er; cbn [negb].
      * rewrite (Hkey r Er). exact IH.
      * cbn [List.filter]. rewrite IH. reflexivity.
    + cbn [List.filter]. rewrite IH. reflexivity.
Qed.

Lemma filter_foreign_addEntry (keys : list string) (q : searchParams)
    (entry : string * value) :
  In (fst entry) keys ->
  List.filter (foreign keys) (addEntry q entry) = List.filter (foreign keys) q.
Proof.
  destruct entry as [key v]. cbn [fst]. intros Hin.
  assert (Hset : forall val, List.filter (foreign keys) (set q key val)
                             = List.filter (foreign keys) q)
    by (intros val; apply filter_foreign_set, Hin).
  destruct v as [| |b|n|s|items|fields]; cbn [addEntry]; try reflexivity; try apply Hset.
  rewrite fold_append_items, List.filter_app.
  replace (List.filter (foreign keys) (arrayPairs key items)) with (@nil (string * string)).
  - apply app_nil_r.
  - symmetry. induction items as [|item items IH]; [reflexivity|].
    cbn [arrayPairs map List.filter]. unfold foreign at 1. cbn [fst].
    replace (existsb (String.eqb key) keys) with true; [exact IH|].
    symmetry. apply existsb_exists. exists key. split; [exact Hin|apply String.eqb_refl].
Qed.

End ImageQueryFacts.

(** X15. [buildQuery] touches only the parameters that [params] names:
    the pairs of the URL under other names stay, in their order, and so do
    the text before the query and the fragment. *)
Theorem buildQuery_keeps_other_parameters (url : URL) (entries : list (string * value)) :
  List.filter (foreign (map fst entries)) (url_searchParams (buildQuery url (Some entries)))
  = List.filter (foreign (map fst entries)) (url_searchParams url)
  /\ url_base (buildQuery url (Some entries)) = url_base url
  /\ url_hash (buildQuery url (Some entries)) = url_hash url
  /\ buildQuery url None = url.
Proof.
  split; [|split; [apply buildQuery_frame|split; [apply buildQuery_frame|reflexivity]]].
  rewrite buildQuery_searchParams. unfold Query.buildQuery.
  generalize (url_searchParams url) as q.
  assert (H : forall done todo q,
            List.filter (foreign (done ++ map fst todo)) (fold_left Query.addEntry todo q)
            = List.filter (foreign (done ++ map fst todo)) q).
  { intros done todo. revert done. induction todo as [|e todo IH]; intros done q; [reflexivity|].
    cbn [fold_left map].
    replace (done ++ fst e :: map fst todo) with ((done ++ [fst e]) ++ map fst todo)
      by (rewrite <- app_assoc; reflexivity).
    rewrite IH. apply filter_foreign_addEntry.
    apply in_or_app. left. apply in_or_app. right. left. reflexivity. }
  intros q. apply (H [] entries q).
Qed.

Section FreshQueryFacts.

Import Query.




End FreshQueryFacts.



Section DownloadFacts.

Import Http.

Variable options : ClientOptions.
Variable fetchImpl : list FetchCall -> FetchCall -> FetchOutcome.
Variable URL_parse : string -> option URL.
Variable routesData : list RouteDefinition.


(** X18. The route map holds the entries of the catalog by their
    identifiers: what is found under an identifier is an entry of the
    catalog with that identifier, every entry of the catalog has its
    identifier in the map, and when no two entries share an identifier
    each entry is found under its own. *)
Theorem loadRoutes_lookup :
  (forall id route,
     loadRoutes routesData !! id = Some route ->
     In route routesData /\ operationId route = id)
  /\ (forall route, In route routesData ->
        exists found, loadRoutes routesData !! operationId route = Some found)
  /\ (List.NoDup (map operationId routesData) ->
      forall route, In route routesData ->
        loadRoutes routesData !! operationId route = Some route).
Proof.
  split; [|split].
  - intros id route. unfold loadRoutes. rewrite loadRoutes_fold, lookup_empty.
    destruct (find _ (rev routesData)) as [r|] eqn:E; [|discriminate].
    intros [= <-]. apply find_some in E as [Hin Heq]. apply String.eqb_eq in Heq.
    split; [apply in_rev, Hin|exact Heq].
  - intros route Hin. unfold loadRoutes. rewrite loadRoutes_fold, lookup_empty.
    destruct (find _ (rev routesData)) as [r|] eqn:E; [eauto|].
    apply in_rev in Hin. pose proof (find_none _ _ E route Hin) as Hno.
    cbn beta in Hno. rewrite String.eqb_refl in Hno. discriminate Hno.
  - intros Hnd route Hin.
    apply in_split in Hin as (before & after & Hdata).
    apply (loadRoutes_present routesData before after route Hdata).
    rewrite Hdata, map_app in Hnd. cbn [map] in Hnd.
    apply List.NoDup_remove_2 in Hnd. intros H. apply Hnd, in_or_app. right. exact H.
Qed.

End DownloadFacts.

(** ** The log *)

Section TruncationFacts.

Import Log.

Lemma firstChars_length (n : nat) (s : string) :
  String.length (firstChars n s) = Nat.min n (String.length s).
Proof.
  revert s. induction n as [|n IH]; intros [|c s]; try reflexivity.
  cbn [firstChars String.length]. rewrite IH. reflexivity.
Qed.

Lemma sliceTo_length (n : Z) (s : string) :
  Z.of_nat (String.length (sliceTo n s))
  = (if (n <? 0)%Z then Z.max (Z.of_nat (String.length s) + n) 0
     else Z.min n (Z.of_nat (String.length s)))%Z.
Proof.
  unfold sliceTo. rewrite firstChars_length.
  destruct (Z.ltb_spec n 0); lia.
Qed.

Variable JSON_parse : string -> option value.
Variable JSON_stringify_indent : value -> string.

Lemma truncate_length (maxLen : Z) (rendered : string) :
  (0 < maxLen)%Z -> (maxLen < Z.of_nat (String.length rendered))%Z ->
  truncate maxLen rendered = sliceTo (maxLen - 20) rendered +:+ "... (truncated)"
  /\ Z.of_nat (String.length (truncate maxLen rendered))
     = ((if (maxLen <? 20)%Z
         then Z.max (Z.of_nat (String.length rendered) + maxLen - 20) 0
         else maxLen - 20) + 15)%Z.
Proof.
  intros Hpos Hlong. unfold truncate.
  destruct (Z.ltb_spec 0 maxLen); [|lia].
  destruct (Z.ltb_spec maxLen (Z.of_nat (String.length rendered))); [|lia].
  cbn [andb]. split; [reflexivity|].
  rewrite string_length_app, Nat2Z.inj_add, sliceTo_length.
  change (Z.of_nat (String.length "... (truncated)")) with 15%Z.
  destruct (Z.ltb_spec (maxLen - 20) 0); destruct (Z.ltb_spec maxLen 20); lia.
Qed.

(** X19. With a limit of at least 20 and without colors, the text
    [formatPayload] returns is never longer than the limit: a rendering
    within the limit is returned as it is, a longer one is cut to its
    first [maxLen - 20] characters, followed by the mark of truncation. *)
Theorem formatPayload_within_limit (value : Payload) (maxLen : Z) :
  (20 <= maxLen)%Z ->
  let rendered := render JSON_parse JSON_stringify_indent value in
  let formatted := formatPayload JSON_parse JSON_stringify_indent value false maxLen in
  (Z.of_nat (String.length formatted) <= maxLen)%Z
  /\ ((Z.of_nat (String.length rendered) <= maxLen)%Z -> formatted = rendered)
  /\ ((maxLen < Z.of_nat (String.length rendered))%Z ->
      formatted = firstChars (Z.to_nat (maxLen - 20)) rendered +:+ "... (truncated)").
Proof.
  intros Hmax rendered formatted. unfold formatted, formatPayload. fold rendered.
  destruct (Z.le_gt_cases (Z.of_nat (String.length rendered)) maxLen) as [Hshort|Hlong].
  - assert (Hsame : truncate maxLen rendered = rendered).
    { unfold truncate. destruct (Z.ltb_spec maxLen (Z.of_nat (String.length rendered)));
        [lia|]. rewrite andb_false_r. reflexivity. }
    rewrite Hsame. split; [exact Hshort|]. split; [reflexivity|lia].
  - destruct (truncate_length maxLen rendered) as [Hcut Hlen]; [lia|lia|].
    split; [|split; [lia|]].
    + rewrite Hlen. destruct (Z.ltb_spec maxLen 20); lia.
    + intros _. rewrite Hcut. unfold sliceTo.
      destruct (Z.ltb_spec (maxLen - 20) 0); [lia|].
      rewrite Z.min_l by lia. reflexivity.
Qed.

(** X20. The limits below 20.  A limit of zero or less turns the
    truncation off.  With a limit from 1 to 19, a rendering longer than the
    limit is cut from its end, by [20 - maxLen] characters, and the mark of
    truncation is added: the result is longer than the limit. *)
Theorem formatPayload_small_limit (value : Payload) (maxLen : Z) :
  (maxLen < 20)%Z ->
  let rendered := render JSON_parse JSON_stringify_indent value in
  let formatted := formatPayload JSON_parse JSON_stringify_indent value false maxLen in
  ((maxLen <= 0)%Z -> formatted = rendered)
  /\ ((0 < maxLen)%Z -> (maxLen < Z.of_nat (String.length rendered))%Z ->
      formatted
      = firstChars (String.length rendered - Z.to_nat (20 - maxLen)) rendered
        +:+ "... (truncated)"
      /\ (maxLen < Z.of_nat (String.length formatted))%Z).
Proof.
  intros Hmax rendered formatted. unfold formatted, formatPayload. fold rendered. split.
  - intros Hoff. unfold truncate. destruct (Z.ltb_spec 0 maxLen); [lia|reflexivity].
  - intros Hpos Hlong.
    destruct (truncate_length maxLen rendered Hpos Hlong) as [Hcut Hlen]. split.
    + rewrite Hcut. unfold sliceTo. destruct (Z.ltb_spec (maxLen - 20) 0); [|lia].
      f_equal. f_equal. lia.
    + rewrite Hlen. destruct (Z.ltb_spec maxLen 20); lia.
Qed.

End TruncationFacts.

Section ColorFacts.

Import Log.

Lemma span_app (p : ascii -> bool) (s : string) :
  fst (span p s) +:+ snd (span p s) = s.
Proof.
  induction s as [|c s IH]; [reflexivity|]. cbn [span].
  destruct (p c); [|reflexivity].
  destruct (span p s) as [a b]. cbn [fst snd] in *. rewrite append_cons, IH. reflexivity.
Qed.

Lemma span_eq (p : ascii -> bool) (s a b : string) : span p s = (a, b) -> s = a +:+ b.
Proof. intros H. rewrite <- (span_app p s), H. reflexivity. Qed.

Lemma sliceFrom_app (a b : string) : sliceFrom (String.length a) (a +:+ b) = b.
Proof. induction a as [|c a IH]; [destruct b; reflexivity|exact IH]. Qed.

Lemma startsWith_app (s p : string) :
  Str.startsWith s p = true -> exists t, s = p +:+ t.
Proof.
  revert s. induction p as [|c p IH]; intros s H; [exists s; reflexivity|].
  destruct s as [|d s]; [discriminate|]. cbn [Str.startsWith] in H.
  destruct (Ascii.eqb_spec c d) as [->|]; [|discriminate].
  destruct (IH s H) as [t ->]. exists t. reflexivity.
Qed.

(** The groups of a line that matches make up the line. *)
Lemma matchLine_app (line indent key sep rest : string) :
  matchLine line = Some (indent, key, sep, rest) ->
  line = indent +:+ key +:+ sep +:+ rest.
Proof.
  unfold matchLine.
  destruct (span Str.is_space line) as [i afterIndent] eqn:E1. apply span_eq in E1.
  destruct afterIndent as [|q afterQuote]; [discriminate|].
  destruct (is_quote q); [|discriminate].
  destruct (span notQuote afterQuote) as [name afterName] eqn:E2. apply span_eq in E2.
  destruct name as [|n0 name]; [discriminate|].
  destruct afterName as [|q' afterKey]; [discriminate|].
  destruct (span Str.is_space afterKey) as [before atColon] eqn:E3. apply span_eq in E3.
  destruct atColon as [|colon afterColon]; [discriminate|].
  destruct (Ascii.eqb_spec colon ":") as [->|]; [|discriminate].
  destruct (span Str.is_space afterColon) as [after r] eqn:E4. apply span_eq in E4.
  destruct (Str.all notTerminator r); [|discriminate].
  intros [= <- <- <- <-]. subst.
  rewrite !append_assoc. reflexivity.
Qed.

Lemma matchString_app (value token : string) :
  matchString value = Some token -> exists tail, value = token +:+ tail.
Proof.
  unfold matchString. destruct value as [|q afterQuote]; [discriminate|].
  destruct (is_quote q); [|discriminate].
  destruct (span notQuote afterQuote) as [body afterBody] eqn:E. apply span_eq in E.
  destruct afterBody as [|q' tail]; [discriminate|].
  intros [= <-]. exists tail. subst.
  rewrite !append_cons, append_assoc. reflexivity.
Qed.

Lemma matchNumber_app (value token : string) :
  matchNumber value = Some token -> exists tail, value = token +:+ tail.
Proof.
  unfold matchNumber.
  assert (Hsign : exists sign afterSign,
            match value with
            | String c s => if Ascii.eqb c "-" then ("-", s) else ("", value)
            | EmptyString => ("", value)
            end = (sign, afterSign) /\ value = sign +:+ afterSign).
  { destruct value as [|c s]; [eauto|].
    destruct (Ascii.eqb_spec c "-") as [->|]; eauto. }
  destruct Hsign as (sign & afterSign & -> & Hv).
  destruct (span is_digit afterSign) as [int afterInt] eqn:E1. apply span_eq in E1.
  destruct (String.eqb int ""); [discriminate|].
  assert (Hfrac : exists frac afterFrac,
            match afterInt with
            | String c s =>
                if Ascii.eqb c "." then
                  let '(digits, s') := span is_digit s in
                  if String.eqb digits "" then ("", afterInt) else (String c digits, s')
                else ("", afterInt)
            | EmptyString => ("", afterInt)
            end = (frac, afterFrac) /\ afterInt = frac +:+ afterFrac).
  { destruct afterInt as [|c s]; [eauto|].
    destruct (Ascii.eqb c "."); [|eauto].
    destruct (span is_digit s) as [digits s'] eqn:E. apply span_eq in E.
    destruct (String.eqb digits ""); [eauto|].
    eexists _, _. split; [reflexivity|]. rewrite E. reflexivity. }
  destruct Hfrac as (frac & afterFrac & -> & Hf).
  assert (Hexpo : exists tail,
            afterFrac
            = match afterFrac with
              | String e s =>
                  if Ascii.eqb e "e" || Ascii.eqb e "E" then
                    let '(esign, s') :=
                      match s with
                      | String c r =>
                          if Ascii.eqb c "+" || Ascii.eqb c "-" then (String c "", r)
                          else ("", s)
                      | EmptyString => ("", s)
                      end in
                    let '(digits, _) := span is_digit s' in
                    if String.eqb digits "" then "" else String e (esign +:+ digits)
                  else ""
              | EmptyString => ""
              end +:+ tail).
  { destruct afterFrac as [|e s]; [exists ""; reflexivity|].
    destruct (Ascii.eqb e "e" || Ascii.eqb e "E"); [|eexists; reflexivity].
    assert (Hes : exists esign s',
              match s with
              | String c r =>
                  if Ascii.eqb c "+" || Ascii.eqb c "-" then (String c "", r) else ("", s)
              | EmptyString => ("", s)
              end = (esign, s') /\ s = esign +:+ s').
    { destruct s as [|c r]; [eauto|].
      destruct (Ascii.eqb c "+" || Ascii.eqb c "-"); eauto. }
    destruct Hes as (esign & s' & -> & Hs).
    destruct (span is_digit s') as [digits tail] eqn:E. apply span_eq in E.
    destruct (String.eqb digits ""); [eexists; reflexivity|].
    exists tail. rewrite Hs, E, append_cons, append_assoc. reflexivity. }
  destruct Hexpo as [tail Htail].
  intros [= <-]. exists tail.
  rewrite Hv, E1, Hf. rewrite Htail at 1. rewrite !append_assoc. reflexivity.
Qed.

Lemma matchBool_app (value token : string) :
  matchBool value = Some token -> exists tail, value = token +:+ tail.
Proof.
  assert (Hword : forall w rest,
            Str.startsWith value w && atBoundary rest = true ->
            exists tail, value = w +:+ tail).
  { intros w rest H. apply andb_prop in H as [H _]. apply startsWith_app, H. }
  unfold matchBool.
  destruct (Str.startsWith value "true" && _) eqn:E1;
    [intros [= <-]; apply (Hword _ _ E1)|].
  destruct (Str.startsWith value "false" && _) eqn:E2;
    [intros [= <-]; apply (Hword _ _ E2)|].
  destruct (Str.startsWith value "null" && _) eqn:E3;
    [intros [= <-]; apply (Hword _ _ E3)|discriminate].
Qed.

(** A text that does not begin with the escape character begins with no
    sequence. *)
Lemma sequenceAt_plain (c : ascii) (s : string) :
  notEscape c = true -> sequenceAt (String c s) = None.
Proof.
  intros Hc. unfold sequenceAt, sequences.
  assert (H : forall p, Str.startsWith (String c s) (chr 27 +:+ p) = false).
  { intros p.
    change (Str.startsWith (String c s) (chr 27 +:+ p))
      with (if Ascii.eqb (ascii_of_N 27) c then Str.startsWith s p else false).
    destruct (Ascii.eqb_spec (ascii_of_N 27) c) as [<-|]; [discriminate Hc|reflexivity]. }
  cbn [find]. unfold ANSI_RESET, ANSI_BLUE, ANSI_GREEN, ANSI_CYAN, ANSI_MAGENTA.
  rewrite !H. reflexivity.
Qed.

Lemma visible_plain_app (a b : string) :
  Str.all notEscape a = true -> visibleFrom 0 (a +:+ b) = a +:+ visibleFrom 0 b.
Proof.
  induction a as [|c a IH]; [reflexivity|]. cbn [Str.all]. intros H.
  apply andb_prop in H as [Hc Ha]. rewrite !append_cons. cbn [visibleFrom].
  rewrite (sequenceAt_plain c _ Hc), (IH Ha). reflexivity.
Qed.

Lemma visible_sequence (seq b : string) :
  In seq sequences -> visibleFrom 0 (seq +:+ b) = visibleFrom 0 b.
Proof.
  intros H. cbn in H.
  destruct H as [<-|[<-|[<-|[<-|[<-|[]]]]]]; reflexivity.
Qed.

Lemma visible_colored (color token b : string) :
  In color sequences -> Str.all notEscape token = true ->
  visibleFrom 0 (color +:+ token +:+ ANSI_RESET +:+ b) = token +:+ visibleFrom 0 b.
Proof.
  intros Hc Ht.
  rewrite (visible_sequence color) by exact Hc.
  rewrite visible_plain_app by exact Ht.
  rewrite (visible_sequence ANSI_RESET) by (left; reflexivity). reflexivity.
Qed.

(** What is seen of a colorized line is the line. *)
Lemma visible_colorizeJsonLine (line b : string) :
  Str.all notEscape line = true ->
  visibleFrom 0 (colorizeJsonLine line +:+ b) = line +:+ visibleFrom 0 b.
Proof.
  intros Hplain. unfold colorizeJsonLine.
  destruct (matchLine line) as [[[[indent key] sep] rest]|] eqn:E;
    [|apply visible_plain_app, Hplain].
  apply matchLine_app in E. subst line.
  rewrite !all_app in Hplain.
  apply andb_prop in Hplain as [Hindent Hplain].
  apply andb_prop in Hplain as [Hkey Hplain].
  apply andb_prop in Hplain as [Hsep Hrest].
  assert (Hvalue : forall color token,
            In color sequences ->
            (exists tail, rest = token +:+ tail) ->
            visibleFrom 0 (color +:+ token +:+ ANSI_RESET
                           +:+ sliceFrom (String.length token) rest +:+ b)
            = rest +:+ visibleFrom 0 b).
  { intros color token Hc [tail Htail]. rewrite Htail in Hrest |- *.
    rewrite all_app in Hrest. apply andb_prop in Hrest as [Htoken Htl].
    rewrite sliceFrom_app.
    rewrite visible_colored by assumption.
    rewrite visible_plain_app by exact Htl. rewrite append_assoc. reflexivity. }
  set (value := match matchString rest with
                | Some token => _
                | None => _
                end).
  assert (Hv : visibleFrom 0 (value +:+ b) = rest +:+ visibleFrom 0 b).
  { unfold value.
    destruct (matchString rest) as [token|] eqn:Es.
    { rewrite !append_assoc. apply Hvalue; [right; right; left; reflexivity|].
      apply matchString_app, Es. }
    destruct (matchNumber rest) as [token|] eqn:En.
    { rewrite !append_assoc. apply Hvalue; [right; right; right; left; reflexivity|].
      apply matchNumber_app, En. }
    destruct (matchBool rest) as [token|] eqn:Eb.
    { rewrite !append_assoc. apply Hvalue; [do 4 right; left; reflexivity|].
      apply matchBool_app, Eb. }
    apply visible_plain_app, Hrest. }
  rewrite !append_assoc.
  rewrite visible_plain_app by exact Hindent.
  rewrite visible_colored by (try exact Hkey; right; left; reflexivity).
  rewrite visible_plain_app by exact Hsep.
  rewrite Hv. reflexivity.
Qed.

Lemma splitOn_not_nil (sep : ascii) (s : string) : splitOn sep s <> [].
Proof.
  induction s as [|c s IH]; [discriminate|]. cbn [splitOn].
  destruct (Ascii.eqb c sep); [discriminate|].
  destruct (splitOn sep s); discriminate.
Qed.

Lemma join_cons (sep first second : string) (rest : list string) :
  Str.join sep (first :: second :: rest) = first +:+ sep +:+ Str.join sep (second :: rest).
Proof. reflexivity. Qed.

(** Joining the parts of a split gives the text back. *)
Lemma join_splitOn (sep : ascii) (s : string) :
  Str.join (String sep "") (splitOn sep s) = s.
Proof.
  induction s as [|c s IH]; [reflexivity|]. cbn [splitOn].
  destruct (Ascii.eqb_spec c sep) as [->|Hne].
  - pose proof (splitOn_not_nil sep s) as Hnil.
    destruct (splitOn sep s) as [|second rest]; [contradiction|].
    rewrite join_cons, IH. reflexivity.
  - pose proof (splitOn_not_nil sep s) as Hnil.
    destruct (splitOn sep s) as [|seg rest]; [contradiction|].
    destruct rest as [|second rest].
    + cbn [Str.join] in *. rewrite IH. reflexivity.
    + rewrite join_cons in *. rewrite append_cons, IH. reflexivity.
Qed.

Lemma splitOn_all (p : ascii -> bool) (sep : ascii) (s : string) :
  Str.all p s = true -> Forall (fun line => Str.all p line = true) (splitOn sep s).
Proof.
  induction s as [|c s IH]; [repeat constructor|]. cbn [Str.all splitOn]. intros H.
  apply andb_prop in H as [Hc Hs]. specialize (IH Hs).
  destruct (Ascii.eqb c sep); [constructor; [reflexivity|exact IH]|].
  destruct (splitOn sep s) as [|seg rest]; [repeat constructor; cbn; rewrite Hc; reflexivity|].
  apply Forall_cons_1 in IH as [Hseg Hrest].
  constructor; [cbn; rewrite Hc; exact Hseg|exact Hrest].
Qed.

(** X21. Colors add to a text and take nothing away: what is seen of the
    colorized text, once the escape sequences are left out, is the text
    itself, for every text without escape character (such as the texts
    [JSON.stringify] writes). *)
Theorem colorizeJson_shows_the_text (text : string) :
  Str.all notEscape text = true ->
  visible (colorizeJson text) = text.
Proof.
  intros Hplain. unfold visible, colorizeJson.
  rewrite <- (join_splitOn LF text) at 2.
  pose proof (splitOn_all notEscape LF text Hplain) as Hlines.
  pose proof (splitOn_not_nil LF text) as Hnil.
  induction Hlines as [|line lines Hline Hlines IH]; [contradiction|].
  destruct lines as [|second rest].
  - cbn [map Str.join].
    rewrite <- (append_nil_r (colorizeJsonLine line)).
    rewrite visible_colorizeJsonLine by exact Hline. apply append_nil_r.
  - cbn [map]. rewrite !join_cons.
    rewrite visible_colorizeJsonLine by exact Hline.
    rewrite (visible_plain_app (chr 10)) by reflexivity.
    cbn [map] in IH. rewrite IH by discriminate. reflexivity.
Qed.

End ColorFacts.

(** ** Requests and their log lines *)

Section LoggedFacts.

Import Http.

Variable options : ClientOptions.
Variable fetchImpl : list FetchCall -> FetchCall -> FetchOutcome.
Variable URL_parse : string -> option URL.
Variable JSON_stringify : value -> string.
Variable JSON_parse : string -> option value.
Variable JSON_stringify_indent : value -> string.
Variable logOptions : Logged.LogOptions.

(** X22. The log does not bear on the outcome: whatever the logging
    options, [request] and [downloadImage] end with the result, and leave
    the client in the state, that they have without a log. *)
Theorem logging_leaves_outcome (c : Client) :
  (forall method path o,
     fst (Logged.request options fetchImpl URL_parse JSON_stringify JSON_parse
            JSON_stringify_indent logOptions method path o c)
     = request options fetchImpl URL_parse JSON_stringify method path o c)
  /\ (forall urlOrPath o,
        fst (Logged.downloadImage options fetchImpl URL_parse JSON_parse
               JSON_stringify_indent logOptions urlOrPath o c)
        = downloadImage options fetchImpl URL_parse urlOrPath o c).
Proof.
  split.
  - intros method path o. unfold Logged.request, request, bind.
    destruct (requestCall _ _ _ _ _ _ _ _) as [[call|e] c1]; [|reflexivity].
    destruct (_fetchWithTimeout fetchImpl call c1) as [[response|e] c2]; [|reflexivity].
    unfold requestPayload, Logged.readPayload, bind, ret, throw.
    destruct (Str.includes _ _); [destruct (json response)|];
      try destruct (negb (ok response)); reflexivity.
  - intros urlOrPath o. unfold Logged.downloadImage, downloadImage, bind.
    destruct (downloadCall _ _ _ _ _ _) as [[call|e] c1]; [|reflexivity].
    destruct (_fetchWithTimeout fetchImpl call c1) as [[response|e] c2]; [|reflexivity].
    unfold downloadBytes, ret, throw.
    destruct (ok response || looksLikeImage _ _); reflexivity.
Qed.

(** X23. What [request] logs.  A response whose payload could be read is
    logged on one line, which begins with [HTTP], the status and the status
    text, before its status is looked at: a response that is turned into an
    error is logged like one that is returned.  Nothing is logged when
    logging is off, and nothing when the request ends before a payload is
    read (no base URL, a rejected fetch, a body that is not the JSON it
    announces). *)
Theorem request_log_lines (method path : string) (o : RequestOptions) (c : Client) :
  let run := Logged.request options fetchImpl URL_parse JSON_stringify JSON_parse
               JSON_stringify_indent logOptions method path o c in
  (Logged.logResponses logOptions = false -> snd run = [])
  /\ (forall call c1 response payload,
        requestCall options fetchImpl URL_parse JSON_stringify method path o c
        = (Ok call, c1) ->
        fetchImpl (calls c1) call = Responds response ->
        Logged.readPayload response = Ok payload ->
        Logged.logResponses logOptions = true ->
        snd run
        = ["HTTP " +:+ pretty (status response) +:+ " " +:+ statusText response
           +:+ Log.chr 10
           +:+ Log.formatPayload JSON_parse JSON_stringify_indent (Log.Value payload)
                 (Logged.colorizeResponses logOptions)
                 (Logged.logResponseLimit logOptions)])
  /\ ((forall payload, fst (fst run) <> Ok payload) ->
      (forall text, fst (fst run) <> Throw (HttpError text)) ->
      snd run = []).
Proof.
  intros run. unfold run, Logged.request. split; [|split].
  - intros Hoff.
    destruct (requestCall _ _ _ _ _ _ _ _) as [[call|e] c1]; [|reflexivity].
    destruct (_fetchWithTimeout fetchImpl call c1) as [[response|e] c2]; [|reflexivity].
    destruct (Logged.readPayload response) as [payload|e]; [|reflexivity].
    unfold Logged.requestLog. rewrite Hoff.
    destruct (negb (ok response)); reflexivity.
  - intros call c1 response payload Hcall Hfetch Hread Hon. rewrite Hcall.
    unfold _fetchWithTimeout. rewrite Hfetch, Hread.
    unfold Logged.requestLog. rewrite Hon.
    destruct (negb (ok response)); reflexivity.
  - intros Hnot Hnoterr.
    destruct (requestCall _ _ _ _ _ _ _ _) as [[call|e] c1]; [|reflexivity].
    destruct (_fetchWithTimeout fetchImpl call c1) as [[response|e] c2]; [|reflexivity].
    destruct (Logged.readPayload response) as [payload|e]; [|reflexivity].
    destruct (negb (ok response)); cbn [fst] in *.
    + exfalso. apply (Hnoterr _ eq_refl).
    + exfalso. apply (Hnot _ eq_refl).
Qed.

End LoggedFacts.

(** ** Commands *)

Section CommandFacts.

Import VaonisSocketClient.

Variable Callback : Type.

(** X24. The messages of the commands.  Each command method emits one
    [message] after the ones emitted before, whose data begins with the
    name of the command.  [takeControl] and [releaseControl] add the
    object [{userId}] when there is a user identifier, and nothing when it
    is absent or the empty string.  [setUserName] always adds
    [{device, user}], with the device identifier of the client: an absent
    name is sent as the text [null], an empty name as the empty text.
    [setSystemTime] always adds its time, as a number or as
    [{timestamp}].  [getStatus], [restartApp] and [shutdown] add nothing
    and are the only ones to pass an acknowledgement callback. *)
Theorem command_messages (this : Client) (user : option string) (epochMs : Z)
    (callback : option Callback) (socket : list (Socket.Emit Callback)) :
  let message (data : list value) (ack : option Callback) :=
    socket ++ [Socket.Build_Emit Callback "message" data ack] in
  let identified (command : string) :=
    match user with
    | None | Some "" => [Text command]
    | Some u => [Text command; Obj [("userId", Text u)]]
    end in
  takeControl Callback user socket = message (identified "takeControl") None
  /\ releaseControl Callback user socket = message (identified "releaseControl") None
  /\ setUserName Callback this user socket
     = message [Text "setUserName";
                Obj [("device", Text (client_deviceId this));
                     ("user", Text (match user with
                                    | Some given => given
                                    | None => "null"
                                    end))]] None
  /\ setSystemTime Callback epochMs false socket
     = message [Text "setSystemTime"; Num epochMs] None
  /\ setSystemTime Callback epochMs true socket
     = message [Text "setSystemTime"; Obj [("timestamp", Num epochMs)]] None
  /\ getStatus Callback callback socket = message [Text "getStatus"] callback
  /\ restartApp Callback callback socket = message [Text "restartApp"] callback
  /\ shutdown Callback callback socket = message [Text "shutdown"] callback.
Proof.
  unfold takeControl, releaseControl, setUserName, setSystemTime, getStatus, restartApp,
    shutdown, Socket.sendCommand, Http.truthy.
  destruct user as [[|c u]|]; destruct callback; repeat split; reflexivity.
Qed.

(** X25. The path of a client always begins with a slash: a path given
    without one gets it, a path given with one is kept.  That path is the
    one handed to [io], unless [socketOptions] has a [path] of its own,
    which then replaces it there (as its [query] and [autoConnect] would)
    while the field of the client keeps the first. *)
Theorem constructor_path (o : SocketClientOptions) :
  let given := default "/socket.io" (path o) in
  let extra := default ∅ (socketOptions o) in
  Str.startsWith (client_path (new o)) "/" = true
  /\ client_path (new o) = (if Str.startsWith given "/" then given else "/" +:+ given)
  /\ io_options (new o) !! "path"
     = Some (default (Text (client_path (new o))) (extra !! "path"))
  /\ (forall name v, extra !! name = Some v -> io_options (new o) !! name = Some v).
Proof.
  intros given extra. unfold new. cbn [client_path io_options]. fold given. fold extra.
  split; [|split; [reflexivity|split]].
  - destruct (Str.startsWith given "/") eqn:E; [exact E|reflexivity].
  - rewrite lookup_union. unfold ownOptions. rewrite lookup_insert_eq.
    destruct (extra !! "path"); reflexivity.
  - intros name v Hv. apply lookup_union_Some_l. exact Hv.
Qed.

End CommandFacts.

(** ** The key extraction tool *)

Section ToolPathFacts.

Import Path.

Lemma notSlash_not_slash (c : ascii) : notSlash c = true -> Ascii.eqb "/" c = false.
Proof.
  unfold notSlash, Str.is_slash. intros H. apply negb_true_iff in H.
  rewrite Ascii.eqb_sym. exact H.
Qed.

Lemma isName_not_empty (seg : string) : isName seg = true -> seg <> "".
Proof. intros H ->. discriminate H. Qed.

(** [startsWith_name], for names that may hold a backslash. *)
Lemma startsWith_name_slash (t r x y : string) :
  Str.all notSlash t = true -> Str.all notSlash r = true ->
  slashed x ->
  Str.startsWith (t +:+ x) (r +:+ String "/" y) = true
  <-> t = r /\ Str.startsWith x (String "/" y) = true.
Proof.
  intros Ht Hr Hx. revert t Ht. induction r as [|b r IH]; intros t Ht.
  - rewrite append_nil_l. destruct t as [|a t].
    + rewrite append_nil_l. tauto.
    + simpl in Ht. apply andb_prop in Ht as [Ha _].
      rewrite append_cons, startsWith_cons, (notSlash_not_slash a Ha).
      split; [discriminate|]. intros [[=] _].
  - simpl in Hr. apply andb_prop in Hr as [Hb Hr].
    rewrite append_cons. destruct t as [|a t].
    + rewrite append_nil_l. split; [|intros [[=] _]].
      destruct Hx as [->|Hx]; [discriminate|].
      destruct x as [|c x]; [discriminate|]. rewrite startsWith_cons in *.
      destruct (Ascii.eqb_spec "/" c) as [<-|]; [|discriminate].
      rewrite Ascii.eqb_sym, (notSlash_not_slash b Hb). discriminate.
    + simpl in Ht. apply andb_prop in Ht as [_ Ht].
      rewrite append_cons, startsWith_cons.
      destruct (Ascii.eqb_spec b a) as [->|Hne].
      * rewrite (IH Hr t Ht). split; intros [H1 H2]; split; congruence.
      * split; [discriminate|]. intros [[=] _]. congruence.
Qed.

Lemma startsWith_rooted_names (root target : list string) :
  Forall (fun seg => isName seg = true) root ->
  Forall (fun seg => isName seg = true) target ->
  Str.startsWith (rooted target) (rooted root +:+ "/") = true
  <-> exists seg rest, target = root ++ seg :: rest.
Proof.
  intros Hroot. revert target. induction Hroot as [|r root Hr Hroot IH]; intros target Htarget.
  - cbn [rooted]. rewrite append_nil_l. destruct target as [|t target].
    + split; [discriminate|]. intros (seg & rest & [=]).
    + split; [eauto|reflexivity].
  - cbn [rooted]. rewrite append_cons. destruct Htarget as [|t target Ht Htarget].
    + split; [discriminate|]. intros (seg & rest & [=]).
    + cbn [rooted]. rewrite startsWith_cons. cbn iota.
      replace (Ascii.eqb "/" "/") with true by reflexivity.
      apply isName_notSlash in Hr. apply isName_notSlash in Ht.
      rewrite append_assoc.
      destruct (rooted root +:+ "/") as [|c y] eqn:Ey.
      { destruct (rooted root); discriminate Ey. }
      assert (Hc : c = "/"%char).
      { destruct root; cbn [rooted] in Ey;
          [rewrite append_nil_l in Ey | rewrite append_cons in Ey];
          injection Ey as <- _; reflexivity. }
      subst c. rewrite startsWith_name_slash by (try assumption; apply rooted_slashed).
      rewrite (IH target Htarget). split.
      * intros [-> (seg & rest & ->)]. eauto.
      * intros (seg & rest & [= -> ->]). eauto.
Qed.

Lemma rooted_inj_names (root target : list string) :
  Forall (fun seg => isName seg = true) root ->
  Forall (fun seg => isName seg = true) target ->
  rooted root = rooted target -> root = target.
Proof.
  intros Hroot. revert target. induction Hroot as [|r root Hr Hroot IH]; intros target Htarget.
  - destruct target; [reflexivity|discriminate].
  - destruct Htarget as [|t target Ht Htarget]; [discriminate|].
    cbn [rooted]. intros [= Heq].
    apply isName_notSlash in Hr. apply isName_notSlash in Ht.
    assert (Hboth : r = t /\ rooted root = rooted target).
    { clear IH Hroot Htarget. revert t Ht Heq. induction r as [|b r IHr]; intros t Ht Heq.
      - destruct t as [|a t]; [rewrite !append_nil_l in Heq; auto|].
        exfalso. rewrite append_nil_l, append_cons in Heq.
        simpl in Ht. apply andb_prop in Ht as [Ha _].
        destruct root; [discriminate|]. cbn [rooted] in Heq. injection Heq as <- _.
        discriminate Ha.
      - simpl in Hr. apply andb_prop in Hr as [Hb Hr].
        destruct t as [|a t].
        + exfalso. rewrite append_nil_l, append_cons in Heq.
          destruct target; [discriminate|]. cbn [rooted] in Heq. injection Heq as -> _.
          discriminate Hb.
        + simpl in Ht. apply andb_prop in Ht as [_ Ht].
          rewrite !append_cons in Heq. injection Heq as -> Heq.
          destruct (IHr Hr t Ht Heq) as [-> ->]. auto. }
    destruct Hboth as [-> Hrest]. f_equal. apply IH; assumption.
Qed.

Variable pf : Auth.Platform.
Hypothesis cwd_absolute : Str.startsWith (Auth.cwd pf) "/" = true.

(** The comparison of the tool on two resolved paths. *)
Lemma tool_isWithinRoot (root candidate : string) :
  Tool.isWithinRoot (Tool.resolve pf [root]) (Tool.resolve pf [candidate]) = true
  <-> Tool.below pf root candidate.
Proof.
  unfold Tool.isWithinRoot, Tool.normalizeForCompare, Tool.resolve, Tool.below.
  rewrite !(resolve_segments (Auth.cwd pf) cwd_absolute).
  pose proof (segments_names (Auth.cwd pf) root) as HR.
  pose proof (segments_names (Auth.cwd pf) candidate) as HT.
  set (R := segments (Auth.cwd pf) root) in *.
  set (T := segments (Auth.cwd pf) candidate) in *.
  destruct R as [|r R'] eqn:ER; destruct T as [|t T'] eqn:ET.
  - split; [intros _; split; [reflexivity|auto]|reflexivity].
  - rewrite (rooted_join (t :: T')) by discriminate.
    apply Forall_cons_1 in HT as [Ht _].
    pose proof (isName_not_empty t Ht) as Hne. apply isName_notSlash in Ht.
    destruct t as [|a t]; [contradiction|].
    cbn [Str.all] in Ht. apply andb_prop in Ht as [Ha _].
    cbn [rooted]. rewrite append_cons.
    replace (String.eqb (String "/" (String a (t +:+ rooted T'))) ("/" +:+ Str.join "/" []))
      with false by reflexivity.
    change (("/" +:+ Str.join "/" []) +:+ "/") with "//".
    rewrite !startsWith_cons. replace (Ascii.eqb "/" "/") with true by reflexivity.
    rewrite (notSlash_not_slash a Ha).
    split; [discriminate|]. intros [_ H]. specialize (H eq_refl). discriminate H.
  - rewrite (rooted_join (r :: R')) by discriminate.
    apply Forall_cons_1 in HR as [Hr _].
    pose proof (isName_not_empty r Hr) as Hne.
    destruct r as [|a r]; [contradiction|].
    cbn [rooted]. rewrite append_cons.
    replace (String.eqb ("/" +:+ Str.join "/" []) (String "/" (String a (r +:+ rooted R'))))
      with false by reflexivity.
    replace (Str.startsWith ("/" +:+ Str.join "/" [])
               (String "/" (String a (r +:+ rooted R')) +:+ "/"))
      with false by reflexivity.
    split; [discriminate|]. intros [[k Hk] _]. discriminate Hk.
  - rewrite !rooted_join by discriminate. rewrite <- ER, <- ET in *.
    destruct (String.eqb_spec (rooted T) (rooted R)) as [Heq|Hne].
    + apply rooted_inj_names in Heq; [|assumption..]. rewrite Heq.
      split; [intros _|reflexivity]. split; [reflexivity|auto].
    + rewrite startsWith_rooted_names by assumption. split.
      * intros (seg & rest & ->). split; [exists (seg :: rest); reflexivity|].
        intros H. rewrite H in ER. discriminate ER.
      * intros [[[|seg rest] ->] _].
        -- rewrite app_nil_r in Hne. contradiction.
        -- eauto.
Qed.

(** X26. [normalizeSafePath] accepts a path exactly when it is one of its
    roots (the working directory, the repository, the home and the
    temporary directory) or lies below one; a root that is the root
    directory of the file system holds nothing but itself.  An accepted
    path is returned resolved, after a check of its existence when the
    caller asks for one; a refused path is never looked up. *)
Theorem normalizeSafePath_within_roots (candidate : string) :
  candidate <> "" ->
  let resolved := Tool.resolve pf [candidate] in
  let roots := [Auth.cwd pf; Tool.repoRoot pf; Auth.homedir pf; Auth.tmpdir pf] in
  ((exists root, In root roots /\ Tool.below pf root candidate) ->
   Tool.normalizeSafePath pf candidate false = (Tool.Done resolved, [])
   /\ Tool.normalizeSafePath pf candidate true
      = (if Auth.existsSync pf resolved then Tool.Done resolved
         else Tool.Failed (Tool.PathNotFound resolved),
         [Auth.CallExists resolved]))
  /\ (~ (exists root, In root roots /\ Tool.below pf root candidate) ->
      forall mustExist,
        Tool.normalizeSafePath pf candidate mustExist
        = (Tool.Failed (Tool.PathOutsideRoots resolved), [])).
Proof.
  intros Hne resolved roots.
  assert (Hsegs : segments (Auth.cwd pf) resolved = segments (Auth.cwd pf) candidate)
    by (apply segments_resolve, cwd_absolute).
  assert (Hallowed :
            existsb (fun root => Tool.isWithinRoot root resolved) (Tool.safeRoots pf) = true
            <-> exists root, In root roots /\ Tool.below pf root candidate).
  { unfold Tool.safeRoots. fold roots. rewrite existsb_exists. split.
    - intros (root' & Hin & Hwithin). apply in_map_iff in Hin as (root & <- & Hin).
      exists root. split; [exact Hin|].
      unfold resolved in Hwithin. apply tool_isWithinRoot in Hwithin. exact Hwithin.
    - intros (root & Hin & Hbelow). exists (Tool.resolve pf [root]).
      split; [apply in_map_iff; eauto|].
      unfold resolved. apply tool_isWithinRoot. exact Hbelow. }
  unfold Tool.normalizeSafePath. fold resolved.
  destruct (String.eqb_spec candidate ""); [contradiction|].
  split.
  - intros Hin. apply Hallowed in Hin. rewrite Hin. cbn [negb].
    split; [reflexivity|]. destruct (Auth.existsSync pf resolved); reflexivity.
  - intros Hout mustExist.
    destruct (existsb _ _) eqn:E; [exfalso; apply Hout, Hallowed; reflexivity|].
    reflexivity.
Qed.

End ToolPathFacts.

Section ToolKeyFacts.

Lemma addKey_names (keys : Tool.Keys) (key safePath : string) :
  map fst (Tool.addKey keys key safePath)
  = if existsb (String.eqb key) (map fst keys) then map fst keys
    else map fst keys ++ [key].
Proof.
  induction keys as [|[k paths] keys IH]; [reflexivity|].
  cbn [Tool.addKey map fst existsb].
  rewrite (String.eqb_sym key k).
  destruct (String.eqb k key); [reflexivity|].
  cbn [map fst orb]. rewrite IH.
  destruct (existsb _ _); reflexivity.
Qed.

(** The names of the keys collected: those found, each once. *)
Lemma addKey_in (keys : Tool.Keys) (key safePath k : string) :
  In k (map fst (Tool.addKey keys key safePath)) <-> In k (map fst keys) \/ k = key.
Proof.
  rewrite addKey_names.
  destruct (existsb (String.eqb key) (map fst keys)) eqn:E.
  - apply existsb_exists in E as (x & Hx & Heq). apply String.eqb_eq in Heq. subst x.
    split; [auto|]. intros [H| ->]; assumption.
  - rewrite in_app_iff. cbn. split; [intros [H|[<-|[]]]; auto|intros [H| ->]; auto].
Qed.

Lemma addKey_NoDup (keys : Tool.Keys) (key safePath : string) :
  List.NoDup (map fst keys) -> List.NoDup (map fst (Tool.addKey keys key safePath)).
Proof.
  intros Hnd. rewrite addKey_names.
  destruct (existsb (String.eqb key) (map fst keys)) eqn:E; [exact Hnd|].
  apply NoDup_ListNoDup, NoDup_app. apply NoDup_ListNoDup in Hnd.
  split; [exact Hnd|]. split; [|apply NoDup_singleton].
  intros x Hx Hk. apply list_elem_of_In in Hx. apply list_elem_of_In in Hk.
  destruct Hk as [<-|[]].
  assert (existsb (String.eqb key) (map fst keys) = true)
    by (apply existsb_exists; exists key; split; [exact Hx|apply String.eqb_refl]).
  congruence.
Qed.

Lemma collect_file (path : string) (found : list string) (keys : Tool.Keys) :
  let keys' := fold_left (fun keys key => Tool.addKey keys key path) found keys in
  (forall k, In k (map fst keys') <-> In k (map fst keys) \/ In k found)
  /\ (List.NoDup (map fst keys) -> List.NoDup (map fst keys')).
Proof.
  revert keys. induction found as [|key found IH]; intros keys; cbn [fold_left].
  - split; [intros k; cbn; tauto|auto].
  - destruct (IH (Tool.addKey keys key path)) as [Hin Hnd]. split.
    + intros k. rewrite Hin, addKey_in. cbn. split; [intros [[H|H]|H]|intros [H|[H|H]]]; auto.
    + intros H. apply Hnd, addKey_NoDup, H.
Qed.

Lemma collectKeys_names (found : list (string * list string)) :
  (forall k, In k (map fst (Tool.collectKeys found)) <-> In k (concat (map snd found)))
  /\ List.NoDup (map fst (Tool.collectKeys found)).
Proof.
  unfold Tool.collectKeys.
  assert (H : forall keys,
            let keys' := fold_left
                           (fun keys file =>
                              fold_left (fun keys key => Tool.addKey keys key (fst file))
                                (snd file) keys) found keys in
            (forall k, In k (map fst keys')
                       <-> In k (map fst keys) \/ In k (concat (map snd found)))
            /\ (List.NoDup (map fst keys) -> List.NoDup (map fst keys'))).
  { induction found as [|[path cands] found IH]; intros keys; cbn [fold_left map concat].
    - split; [intros k; cbn; tauto|auto].
    - cbn [fst snd].
      destruct (collect_file path cands keys) as [Hin1 Hnd1].
      destruct (IH (fold_left (fun keys key => Tool.addKey keys key path) cands keys))
        as [Hin Hnd].
      split.
      + intros k. rewrite Hin, Hin1, in_app_iff. tauto.
      + intros Hk. apply Hnd, Hnd1, Hk. }
  destruct (H []) as [Hin Hnd]. split.
  - intros k. rewrite Hin. cbn. tauto.
  - apply Hnd. constructor.
Qed.

(** X27. The tool settles on a key only when the files agree.  From the
    candidates found in the files, [selectKey] returns a key exactly when
    there is a candidate and all candidates are that key; it fails with
    [NoKeyFound] exactly when no file has a candidate, and with
    [MultipleKeys] as soon as two candidates differ. *)
Theorem selectKey_needs_agreement (found : list (string * list string)) :
  let candidates := concat (map snd found) in
  let outcome := Tool.selectKey (Tool.collectKeys found) in
  (forall key, outcome = Tool.Done key
               <-> candidates <> [] /\ Forall (fun k => k = key) candidates)
  /\ (outcome = Tool.Failed Tool.NoKeyFound <-> candidates = [])
  /\ (forall k1 k2, In k1 candidates -> In k2 candidates -> k1 <> k2 ->
        exists details, outcome = Tool.Failed (Tool.MultipleKeys details)).
Proof.
  intros candidates outcome.
  destruct (collectKeys_names found) as [Hin Hnd]. fold candidates in Hin.
  unfold outcome, Tool.selectKey.
  destruct (Tool.collectKeys found) as [|[key paths] [|second rest]] eqn:E;
    cbn [map fst] in Hin, Hnd.
  - assert (Hnil : candidates = []).
    { destruct candidates as [|k ks]; [reflexivity|].
      exfalso. apply (proj2 (Hin k)). left. reflexivity. }
    split; [|split].
    + intros key. split; [discriminate|]. intros [H _]. contradiction.
    + tauto.
    + intros k1 k2 H1. rewrite Hnil in H1. destruct H1.
  - assert (Hall : Forall (fun k => k = key) candidates).
    { apply List.Forall_forall. intros k Hk. apply Hin in Hk as [<-|[]]. reflexivity. }
    assert (Hne : candidates <> []).
    { intros Hnil. assert (Hk : In key candidates) by (apply Hin; left; reflexivity).
      rewrite Hnil in Hk. destruct Hk. }
    split; [|split].
    + intros key'. split.
      * intros [= <-]. auto.
      * intros [_ Hall']. f_equal.
        assert (Hk : In key candidates) by (apply Hin; left; reflexivity).
        apply (proj1 (List.Forall_forall _ _) Hall') in Hk. exact Hk.
    + split; [discriminate|contradiction].
    + intros k1 k2 H1 H2 Hdiff.
      apply (proj1 (List.Forall_forall _ _) Hall) in H1.
      apply (proj1 (List.Forall_forall _ _) Hall) in H2. congruence.
  - assert (Hk : In key candidates) by (apply Hin; left; reflexivity).
    assert (Hs : In (fst second) candidates) by (apply Hin; right; left; reflexivity).
    assert (Hdiff : key <> fst second).
    { apply List.NoDup_cons_iff in Hnd as [Hnot _]. intros ->. apply Hnot. left. reflexivity. }
    split; [|split].
    + intros key'. split; [discriminate|]. intros [_ Hall]. exfalso.
      apply (proj1 (List.Forall_forall _ _) Hall) in Hk.
      apply (proj1 (List.Forall_forall _ _) Hall) in Hs. congruence.
    + split; [discriminate|]. intros Hnil. rewrite Hnil in Hk. destruct Hk.
    + intros _ _ _ _ _. eexists. reflexivity.
Qed.

End ToolKeyFacts.

Section ToolArgumentFacts.

Variable pf : Auth.Platform.

Lemma assign_fields (flag : string) (v : option string) (args assigned : Tool.ScriptArgs) :
  Tool.assign flag v args = Some assigned ->
  (flag <> "--input" -> Tool.input assigned = Tool.input args)
  /\ (flag <> "--smali" -> Tool.smali assigned = Tool.smali args)
  /\ (flag <> "--search-root" -> Tool.searchRoot assigned = Tool.searchRoot args)
  /\ (flag <> "--apktool-jar" -> Tool.apktoolJar assigned = Tool.apktoolJar args)
  /\ (flag <> "--out" -> Tool.out assigned = Tool.out args)
  /\ Tool.json assigned = Tool.json args
  /\ flag <> "--json".
Proof.
  assert (Hdone : forall given : Tool.ScriptArgs,
            flag <> "--json" ->
            (flag <> "--input" -> Tool.input given = Tool.input args) ->
            (flag <> "--smali" -> Tool.smali given = Tool.smali args) ->
            (flag <> "--search-root" -> Tool.searchRoot given = Tool.searchRoot args) ->
            (flag <> "--apktool-jar" -> Tool.apktoolJar given = Tool.apktoolJar args) ->
            (flag <> "--out" -> Tool.out given = Tool.out args) ->
            Tool.json given = Tool.json args ->
            Some given = Some assigned ->
            (flag <> "--input" -> Tool.input assigned = Tool.input args)
            /\ (flag <> "--smali" -> Tool.smali assigned = Tool.smali args)
            /\ (flag <> "--search-root" -> Tool.searchRoot assigned = Tool.searchRoot args)
            /\ (flag <> "--apktool-jar" -> Tool.apktoolJar assigned = Tool.apktoolJar args)
            /\ (flag <> "--out" -> Tool.out assigned = Tool.out args)
            /\ Tool.json assigned = Tool.json args
            /\ flag <> "--json")
    by (intros given ? ? ? ? ? ? ? [= <-]; tauto).
  unfold Tool.assign.
  destruct (String.eqb_spec flag "--input") as [->|H1];
    [apply Hdone; cbn; (discriminate || tauto)|].
  destruct (String.eqb_spec flag "--smali") as [->|H2];
    [apply Hdone; cbn; (discriminate || tauto)|].
  destruct (String.eqb_spec flag "--search-root") as [->|H3];
    [apply Hdone; cbn; (discriminate || tauto)|].
  destruct (String.eqb_spec flag "--apktool-jar") as [->|H4];
    [apply Hdone; cbn; (discriminate || tauto)|].
  destruct (String.eqb_spec flag "--out") as [->|H5];
    [apply Hdone; cbn; (discriminate || tauto)|].
  discriminate.
Qed.

(** What the loop leaves of the fields whose flags do not occur. *)
Lemma parseLoop_keeps (n : nat) (argv : list string) (args : Tool.ScriptArgs) :
  (length argv <= n)%nat ->
  let parsed := Tool.parseLoop argv args in
  (~ In "--input" argv -> Tool.input parsed = Tool.input args)
  /\ (~ In "--smali" argv -> Tool.smali parsed = Tool.smali args)
  /\ (~ In "--search-root" argv -> Tool.searchRoot parsed = Tool.searchRoot args)
  /\ (~ In "--apktool-jar" argv -> Tool.apktoolJar parsed = Tool.apktoolJar args)
  /\ (~ In "--out" argv -> Tool.out parsed = Tool.out args)
  /\ (~ In "--json" argv -> Tool.json parsed = Tool.json args).
Proof.
  revert argv args. induction n as [|n IH]; intros argv args Hlen.
  { destruct argv; [cbn; tauto|cbn in Hlen; lia]. }
  destruct argv as [|value rest]; [cbn; tauto|].
  cbn [Tool.parseLoop]. cbn [length] in Hlen.
  destruct (Tool.assign value (head rest) args) as [assigned|] eqn:E.
  - apply assign_fields in E as (Hi & Hs & Hr & Hj & Ho & Hb & Hflag).
    destruct rest as [|v rest'].
    + cbn [In]. repeat split; intros H;
        first [apply Hi|apply Hs|apply Hr|apply Hj|apply Ho|exact Hb]; intros ->; tauto.
    + destruct (IH rest' assigned) as (Ii & Is & Ir & Ij & Io & Ib); [cbn [length] in Hlen; lia|].
      cbn [In]. repeat split; intros H;
        [rewrite Ii, Hi|rewrite Is, Hs|rewrite Ir, Hr|rewrite Ij, Hj|rewrite Io, Ho
        |rewrite Ib, Hb]; try reflexivity; try tauto; intros ->; tauto.
  - destruct (IH rest (if String.eqb value "--json"
                       then {| Tool.input := Tool.input args; Tool.smali := Tool.smali args;
                               Tool.searchRoot := Tool.searchRoot args;
                               Tool.apktoolJar := Tool.apktoolJar args;
                               Tool.out := Tool.out args; Tool.json := true |}
                       else args)) as (Ii & Is & Ir & Ij & Io & Ib); [lia|].
    cbn [In]. repeat split; intros H;
      [rewrite Ii|rewrite Is|rewrite Ir|rewrite Ij|rewrite Io|rewrite Ib]; try tauto;
      destruct (String.eqb_spec value "--json") as [->|]; try reflexivity.
    exfalso. apply H. left. reflexivity.
Qed.

(** X28. [parseArgs] changes a field only for its flag: a field whose
    flag does not occur among the arguments has its default (no input, no
    smali path, no search root, the jar of the repository, the default
    output, no JSON), whatever else the arguments hold. *)
Theorem parseArgs_keeps_defaults (argv : list string) :
  let args := Tool.parseArgs pf argv in
  (~ In "--input" argv -> Tool.input args = None)
  /\ (~ In "--smali" argv -> Tool.smali args = None)
  /\ (~ In "--search-root" argv -> Tool.searchRoot args = None)
  /\ (~ In "--apktool-jar" argv ->
      Tool.apktoolJar args
      = Some (Tool.resolve pf [Tool.repoRoot pf; "tools"; "apktool_2.9.3.jar"]))
  /\ (~ In "--out" argv -> Tool.out args = Some (Tool.defaultOutput pf))
  /\ (~ In "--json" argv -> Tool.json args = false).
Proof.
  intros args. unfold args, Tool.parseArgs.
  apply (parseLoop_keeps (length argv) argv (Tool.defaultArgs pf)). lia.
Qed.

End ToolArgumentFacts.

(** ** Further runs *)

Section FurtherRuns.

Import Examples.

Lemma findKeyPath_first_usable_witness :
  Auth.candidates outsideAndDefault (Some outsideFile)
  = [outsideFile] ++ defaultFile
      :: ["/opt/oneane/src/node/vaonis_instruments_unified/.auth_key";
          "/opt/oneane/src/python/.auth_key"]
  /\ Auth.existsSync outsideAndDefault outsideFile = true
  /\ Auth.normalizeKeyPath outsideAndDefault outsideFile
     = Throw (PathNotAllowed (Auth.resolve outsideAndDefault [outsideFile]))
  /\ Auth.existsSync outsideAndDefault defaultFile = true
  /\ Auth.normalizeKeyPath outsideAndDefault defaultFile
     = Ok (Auth.resolve outsideAndDefault [defaultFile])
  /\ Auth.findKeyPath outsideAndDefault (Some outsideFile)
     = (Some (Auth.resolve outsideAndDefault [defaultFile]),
        map Auth.CallExists ([outsideFile] ++ [defaultFile])).
Proof.
  assert (Hc : Auth.candidates outsideAndDefault (Some outsideFile)
               = [outsideFile] ++ defaultFile
                   :: ["/opt/oneane/src/node/vaonis_instruments_unified/.auth_key";
                       "/opt/oneane/src/python/.auth_key"]) by reflexivity.
  assert (Hout : Auth.normalizeKeyPath outsideAndDefault outsideFile
                 = Throw (PathNotAllowed (Auth.resolve outsideAndDefault [outsideFile])))
    by reflexivity.
  assert (Hin : Auth.normalizeKeyPath outsideAndDefault defaultFile
                = Ok (Auth.resolve outsideAndDefault [defaultFile])) by reflexivity.
  split; [exact Hc|]. split; [reflexivity|]. split; [exact Hout|].
  split; [reflexivity|]. split; [exact Hin|].
  apply (proj1 (findKeyPath_first_usable outsideAndDefault (Some outsideFile))
           [outsideFile] defaultFile _ Hc); [|reflexivity|exact Hin].
  constructor; [right; exact Hout|constructor].
Defined.

Lemma resolveKeyMaterial_reads_found_witness :
  Str.startsWith (Auth.cwd outsideAndDefault) "/" = true
  /\ Auth.findKeyPath outsideAndDefault (Auth.keyFile (withFile outsideFile))
     = (Some defaultFile, [Auth.CallExists outsideFile; Auth.CallExists defaultFile])
  /\ Auth.normalizeKeyPath outsideAndDefault defaultFile = Ok defaultFile
  /\ Auth.resolveKeyMaterial outsideAndDefault Reference.base64_decode (withFile outsideFile)
     = (match Auth.readFileSync outsideAndDefault defaultFile with
        | Some text => Ok (Reference.base64_decode (Str.trim text))
        | None => Throw (FsError defaultFile)
        end,
        [Auth.CallExists outsideFile; Auth.CallExists defaultFile]
        ++ [Auth.CallRead defaultFile]).
Proof.
  assert (Hcwd : Str.startsWith (Auth.cwd outsideAndDefault) "/" = true) by reflexivity.
  assert (Hfound : Auth.findKeyPath outsideAndDefault (Auth.keyFile (withFile outsideFile))
                   = (Some defaultFile,
                      [Auth.CallExists outsideFile; Auth.CallExists defaultFile]))
    by reflexivity.
  split; [exact Hcwd|]. split; [exact Hfound|].
  exact (resolveKeyMaterial_reads_found outsideAndDefault Reference.base64_decode Hcwd
           (withFile outsideFile) defaultFile _ eq_refl Hfound).
Defined.

Lemma normalizeKeyPath_accepts_within_witness :
  Str.startsWith (Auth.cwd outsideOnly) "/" = true
  /\ Path.plain (Path.segments (Auth.cwd outsideOnly) roundabout)
  /\ Auth.within outsideOnly (Auth.cwd outsideOnly) roundabout
  /\ Auth.normalizeKeyPath outsideOnly roundabout
     = Ok (Auth.resolve outsideOnly [roundabout])
  /\ Auth.resolve outsideOnly [roundabout] = defaultFile.
Proof.
  assert (Hcwd : Str.startsWith (Auth.cwd outsideOnly) "/" = true) by reflexivity.
  assert (Hplain : Path.plain (Path.segments (Auth.cwd outsideOnly) roundabout))
    by (vm_compute; repeat constructor).
  assert (Hroots : forall root, In root (Auth.SAFE_KEY_ROOTS outsideOnly) -> root <> "" ->
            Path.plain (Path.segments (Auth.cwd outsideOnly) root)).
  { intros root Hin _. simpl in Hin.
    repeat (destruct Hin as [<-|Hin]); try contradiction; vm_compute; repeat constructor. }
  assert (Hwithin : Auth.within outsideOnly (Auth.cwd outsideOnly) roundabout)
    by (exists [".auth_key"]; reflexivity).
  split; [exact Hcwd|]. split; [exact Hplain|]. split; [exact Hwithin|].
  split; [|reflexivity].
  apply (proj1 (normalizeKeyPath_accepts_within outsideOnly Hcwd roundabout Hplain Hroots)).
  exists (Auth.cwd outsideOnly). split; [left; reflexivity|]. split; [discriminate|].
  exact Hwithin.
Defined.

Lemma seed_and_secret_key_agree_witness :
  length key32 = 32%nat
  /\ Auth.buildAuthorizationHeader (platform None []) Reference.base64_decode
       Reference.sha512 Reference.signature Reference.publicKey ctxB
       {| Auth.keyMaterial := Some (Auth.KeyBytes key32); Auth.keyFile := None |}
     = Auth.buildAuthorizationHeader (platform None []) Reference.base64_decode
         Reference.sha512 Reference.signature Reference.publicKey ctxB
         {| Auth.keyMaterial := Some (Auth.KeyBytes (key32 ++ Reference.publicKey key32));
            Auth.keyFile := None |}.
Proof.
  split; [reflexivity|].
  exact (seed_and_secret_key_agree (platform None []) Reference.base64_decode
           Reference.sha512 Reference.signature Reference.publicKey
           (fun seed _ => publicKey_length seed) ctxB key32 None eq_refl).
Defined.

Lemma header_has_188_characters_witness :
  fst (Auth.buildAuthorizationHeader (platform None []) Reference.base64_decode
         Reference.sha512 Reference.signature Reference.publicKey ctxB (withKey key32))
  = Ok ("Basic android|B|" +:+ textB)
  /\ String.length ("Basic android|B|" +:+ textB) = 188%nat
  /\ Str.startsWith ("Basic android|B|" +:+ textB) "Basic android|" = true.
Proof.
  assert (H : fst (Auth.buildAuthorizationHeader (platform None []) Reference.base64_decode
                     Reference.sha512 Reference.signature Reference.publicKey ctxB
                     (withKey key32))
              = Ok ("Basic android|B|" +:+ textB))
    by exact (f_equal fst header_of_32_byte_key).
  split; [exact H|].
  exact (header_has_188_characters (platform None []) Reference.base64_decode
           Reference.sha512 Reference.signature Reference.publicKey
           sha512_length (fun m sk _ => signature_length m sk)
           (fun seed _ => publicKey_length seed)
           ctxB (withKey key32) _ H).
Defined.

Lemma readKeyFile_ignores_padding_witness :
  Auth.normalizeKeyPath written writtenFile = Ok writtenFile
  /\ Auth.readFileSync written writtenFile = Some ("" +:+ "AQEB" +:+ Log.chr 10)
  /\ Auth.readKeyFile written Reference.base64_decode writtenFile
     = (Ok (Reference.base64_decode "AQEB"), [Auth.CallRead writtenFile]).
Proof.
  assert (Hnorm : Auth.normalizeKeyPath written writtenFile = Ok writtenFile) by reflexivity.
  assert (Hread : Auth.readFileSync written writtenFile = Some ("" +:+ "AQEB" +:+ Log.chr 10))
    by reflexivity.
  split; [exact Hnorm|]. split; [exact Hread|].
  exact (readKeyFile_ignores_padding written Reference.base64_decode writtenFile
           "" "AQEB" (Log.chr 10) Hnorm Hread eq_refl eq_refl eq_refl).
Defined.

Lemma prefix_is_not_signed_witness :
  Auth.challenge ctxA = String "A" "YWJj"
  /\ fst (Auth.buildAuthorizationHeader (platform None []) Reference.base64_decode
            Reference.sha512 Reference.signature Reference.publicKey ctxA (withKey key64))
     = Ok ("Basic android|A|" +:+ textA)
  /\ exists text,
       "Basic android|A|" +:+ textA = "Basic android|" +:+ String "A" "" +:+ "|" +:+ text
       /\ fst (Auth.buildAuthorizationHeader (platform None []) Reference.base64_decode
                 Reference.sha512 Reference.signature Reference.publicKey
                 {| Auth.challenge := String "Z" "YWJj";
                    Auth.telescopeId := Auth.telescopeId ctxA;
                    Auth.bootCount := Auth.bootCount ctxA |} (withKey key64))
          = Ok ("Basic android|" +:+ String "Z" "" +:+ "|" +:+ text).
Proof.
  assert (H : fst (Auth.buildAuthorizationHeader (platform None []) Reference.base64_decode
                     Reference.sha512 Reference.signature Reference.publicKey ctxA
                     (withKey key64))
              = Ok ("Basic android|A|" +:+ textA))
    by exact (f_equal fst header_of_64_byte_key).
  split; [reflexivity|]. split; [exact H|].
  exact (prefix_is_not_signed (platform None []) Reference.base64_decode
           Reference.sha512 Reference.signature Reference.publicKey
           ctxA (withKey key64) "A" "Z" "YWJj" _ eq_refl H).
Defined.


Lemma nothing_sent_without_base_witness :
  Http.truthy (Http.baseUrl fresh) = None
  /\ Http.allProbesFail (clientOptions "/v1" [""; "/stellina/http"])
       (fetchAlways (textResponse "no" 404)) (Http.calls fresh) [""; "/stellina/http"]
  /\ Http.downloadImage (clientOptions "/v1" [""; "/stellina/http"])
       (fetchAlways (textResponse "no" 404)) Reference.URL_parse
       "http://elsewhere/image.png" noImageOptions fresh
     = (Throw BaseUrlNotDetected,
        {| Http.baseUrl := Http.baseUrl fresh;
           Http.calls :=
             Http.calls fresh
             ++ map (Http.probeOf (clientOptions "/v1" [""; "/stellina/http"]))
                  (Http.prefixes (clientOptions "/v1" [""; "/stellina/http"])) |}).
Proof.
  assert (Hfail : Http.allProbesFail (clientOptions "/v1" [""; "/stellina/http"])
                    (fetchAlways (textResponse "no" 404)) (Http.calls fresh)
                    [""; "/stellina/http"]).
  { intros i prefix _. reflexivity. }
  split; [reflexivity|]. split; [exact Hfail|].
  exact (proj2 (nothing_sent_without_base (clientOptions "/v1" [""; "/stellina/http"])
                  (fetchAlways (textResponse "no" 404)) Reference.URL_parse
                  Reference.JSON_stringify fresh eq_refl Hfail)
           "http://elsewhere/image.png" noImageOptions).
Defined.


Lemma request_returns_payload_witness :
  requestCall (clientOptions "/v1" [""]) (fetchAlways (textResponse "hello" 200))
    "GET" "/app/status" noOptions cached = (Ok statusCall, cached)
  /\ Http.ok (textResponse "hello" 200) = true
  /\ fst (Http.request (clientOptions "/v1" [""]) (fetchAlways (textResponse "hello" 200))
            Reference.URL_parse Reference.JSON_stringify "GET" "/app/status"
            noOptions cached)
     = if Str.includes (default "" (Http.content_type (textResponse "hello" 200)))
            "application/json"
       then match Http.json (textResponse "hello" 200) with
            | Some v => Ok v
            | None => Throw SyntaxError
            end
       else Ok (Text (Http.text (textResponse "hello" 200))).
Proof.
  assert (Hcall : requestCall (clientOptions "/v1" [""])
                    (fetchAlways (textResponse "hello" 200))
                    "GET" "/app/status" noOptions cached = (Ok statusCall, cached))
    by (vm_compute; reflexivity).
  split; [exact Hcall|]. split; [reflexivity|].
  exact (request_returns_payload (clientOptions "/v1" [""])
           (fetchAlways (textResponse "hello" 200))
           Reference.URL_parse Reference.JSON_stringify
           "GET" "/app/status" noOptions cached cached statusCall
           (textResponse "hello" 200) Hcall eq_refl eq_refl).
Defined.

Lemma request_headers_and_body_witness :
  requestCall (clientOptions "/v1" [""]) (fetchAlways (textResponse "ok" 200))
    "POST" "/app/status" postOptions cached = (Ok postCall, cached)
  /\ Http.call_headers postCall !! "Authorization" = Some "token"
  /\ Http.call_headers postCall !! "Content-Type" = Some "application/json"
  /\ Http.call_body postCall = Some (Reference.JSON_stringify (Obj [("hello", Text "world")])).
Proof.
  assert (Hcall : requestCall (clientOptions "/v1" [""])
                    (fetchAlways (textResponse "ok" 200))
                    "POST" "/app/status" postOptions cached = (Ok postCall, cached))
    by (vm_compute; reflexivity).
  split; [exact Hcall|].
  destruct (request_headers_and_body (clientOptions "/v1" [""])
              (fetchAlways (textResponse "ok" 200))
              Reference.URL_parse Reference.JSON_stringify
              "POST" "/app/status" postOptions cached cached postCall Hcall)
    as (Hauth & Htype & _ & Hbody).
  split; [exact Hauth|]. split; [exact Htype|exact Hbody].
Defined.



Lemma loadRoutes_lookup_witness :
  List.NoDup (map Http.operationId routes)
  /\ Http.loadRoutes routes !! "appPostSetSettings" = Some appPostSetSettings.
Proof.
  assert (Hnd : List.NoDup (map Http.operationId routes)).
  { constructor; [simpl; intros [H|[]]; discriminate H|].
    constructor; [simpl; tauto|constructor]. }
  split; [exact Hnd|].
  apply (proj2 (proj2 (loadRoutes_lookup routes)) Hnd appPostSetSettings).
  right. left. reflexivity.
Defined.

Lemma formatPayload_within_limit_witness :
  (20 <= 25)%Z
  /\ Log.formatPayload Reference.JSON_parse Reference.JSON_stringify_indent
       (Log.Value (Text longText)) false 25
     = Log.firstChars (Z.to_nat (25 - 20))
         (Log.render Reference.JSON_parse Reference.JSON_stringify_indent (Log.Value (Text longText)))
       +:+ "... (truncated)"
  /\ Log.formatPayload Reference.JSON_parse Reference.JSON_stringify_indent
       (Log.Value (Text longText)) false 25
     = "hello... (truncated)".
Proof.
  assert (H : (20 <= 25)%Z) by lia.
  split; [exact H|]. split; [|reflexivity].
  apply (proj2 (proj2 (formatPayload_within_limit Reference.JSON_parse Reference.JSON_stringify_indent
                         (Log.Value (Text longText)) 25 H))).
  vm_compute. reflexivity.
Defined.

Lemma formatPayload_small_limit_witness :
  (5 < 20)%Z
  /\ (5 < Z.of_nat (String.length
                      (Log.formatPayload Reference.JSON_parse Reference.JSON_stringify_indent
                         (Log.Value (Text longText)) false 5)))%Z
  /\ Log.formatPayload Reference.JSON_parse Reference.JSON_stringify_indent
       (Log.Value (Text longText)) false 5
     = "hello world, this... (truncated)".
Proof.
  assert (H : (5 < 20)%Z) by lia.
  split; [exact H|]. split; [|reflexivity].
  apply (proj2 (formatPayload_small_limit Reference.JSON_parse Reference.JSON_stringify_indent
                  (Log.Value (Text longText)) 5 H)).
  - lia.
  - vm_compute. reflexivity.
Defined.

Lemma colorizeJson_shows_the_text_witness :
  Str.all Log.notEscape (Reference.JSON_stringify_indent (Obj [("ok", Bool true); ("n", Num 2)]))
  = true
  /\ Log.visible
       (Log.colorizeJson (Reference.JSON_stringify_indent (Obj [("ok", Bool true); ("n", Num 2)])))
     = Reference.JSON_stringify_indent (Obj [("ok", Bool true); ("n", Num 2)])
  /\ Log.colorizeJson (Reference.JSON_stringify_indent (Obj [("ok", Bool true); ("n", Num 2)]))
     <> Reference.JSON_stringify_indent (Obj [("ok", Bool true); ("n", Num 2)]).
Proof.
  assert (H : Str.all Log.notEscape
                (Reference.JSON_stringify_indent (Obj [("ok", Bool true); ("n", Num 2)])) = true)
    by reflexivity.
  split; [exact H|]. split; [|vm_compute; discriminate].
  exact (colorizeJson_shows_the_text _ H).
Defined.

Lemma request_log_lines_witness :
  requestCall (clientOptions "/v1" [""])
    (fetchAlways (jsonResponse (Obj [("ok", Bool true)]) 200))
    "GET" "/app/status" noOptions cached = (Ok statusCall, cached)
  /\ Logged.readPayload (jsonResponse (Obj [("ok", Bool true)]) 200)
     = Ok (Obj [("ok", Bool true)])
  /\ snd (Logged.request (clientOptions "/v1" [""])
            (fetchAlways (jsonResponse (Obj [("ok", Bool true)]) 200))
            Reference.URL_parse Reference.JSON_stringify
            Reference.JSON_parse Reference.JSON_stringify_indent logDefaults
            "GET" "/app/status" noOptions cached)
     = ["HTTP " +:+ pretty (Http.status (jsonResponse (Obj [("ok", Bool true)]) 200))
        +:+ " " +:+ Http.statusText (jsonResponse (Obj [("ok", Bool true)]) 200)
        +:+ Log.chr 10
        +:+ Log.formatPayload Reference.JSON_parse Reference.JSON_stringify_indent
              (Log.Value (Obj [("ok", Bool true)]))
              (Logged.colorizeResponses logDefaults)
              (Logged.logResponseLimit logDefaults)].
Proof.
  assert (Hcall : requestCall (clientOptions "/v1" [""])
                    (fetchAlways (jsonResponse (Obj [("ok", Bool true)]) 200))
                    "GET" "/app/status" noOptions cached = (Ok statusCall, cached))
    by (vm_compute; reflexivity).
  split; [exact Hcall|]. split; [reflexivity|].
  exact (proj1 (proj2 (request_log_lines (clientOptions "/v1" [""])
                         (fetchAlways (jsonResponse (Obj [("ok", Bool true)]) 200))
                         Reference.URL_parse Reference.JSON_stringify
                         Reference.JSON_parse Reference.JSON_stringify_indent logDefaults
                         "GET" "/app/status" noOptions cached))
           statusCall cached (jsonResponse (Obj [("ok", Bool true)]) 200)
           (Obj [("ok", Bool true)]) Hcall eq_refl eq_refl eq_refl).
Defined.

Lemma normalizeSafePath_within_roots_witness :
  Str.startsWith (Auth.cwd toolPlatform) "/" = true
  /\ writtenFile <> ""
  /\ Tool.below toolPlatform (Auth.tmpdir toolPlatform) writtenFile
  /\ Tool.normalizeSafePath toolPlatform writtenFile false
     = (Tool.Done (Tool.resolve toolPlatform [writtenFile]), [])
  /\ Tool.normalizeSafePath toolPlatform writtenFile true
     = (if Auth.existsSync toolPlatform (Tool.resolve toolPlatform [writtenFile])
        then Tool.Done (Tool.resolve toolPlatform [writtenFile])
        else Tool.Failed (Tool.PathNotFound (Tool.resolve toolPlatform [writtenFile])),
        [Auth.CallExists (Tool.resolve toolPlatform [writtenFile])]).
Proof.
  assert (Hcwd : Str.startsWith (Auth.cwd toolPlatform) "/" = true) by reflexivity.
  assert (Hne : writtenFile <> "") by discriminate.
  assert (Hbelow : Tool.below toolPlatform (Auth.tmpdir toolPlatform) writtenFile).
  { split; [exists ["barnard"; "auth.key"]; reflexivity|].
    intros H. vm_compute in H. discriminate H. }
  split; [exact Hcwd|]. split; [exact Hne|]. split; [exact Hbelow|].
  apply (proj1 (normalizeSafePath_within_roots toolPlatform Hcwd writtenFile Hne)).
  exists (Auth.tmpdir toolPlatform). split; [|exact Hbelow].
  right. right. right. left. reflexivity.
Defined.

Lemma selectKey_needs_agreement_witness :
  concat (map snd agreeing) <> []
  /\ Forall (fun k => k = "S2V5") (concat (map snd agreeing))
  /\ Tool.selectKey (Tool.collectKeys agreeing) = Tool.Done "S2V5".
Proof.
  assert (Hne : concat (map snd agreeing) <> []) by discriminate.
  assert (Hall : Forall (fun k => k = "S2V5") (concat (map snd agreeing)))
    by (repeat constructor).
  split; [exact Hne|]. split; [exact Hall|].
  apply (proj1 (selectKey_needs_agreement agreeing)). split; assumption.
Defined.

Lemma parseArgs_keeps_defaults_witness :
  ~ In "--out" ["--smali"; "--json"; "--search-root"]
  /\ Tool.out (Tool.parseArgs toolPlatform ["--smali"; "--json"; "--search-root"])
     = Some (Tool.defaultOutput toolPlatform)
  /\ Tool.parseArgs toolPlatform ["--smali"; "--json"; "--search-root"]
     = {| Tool.input := None; Tool.smali := Some "--json"; Tool.searchRoot := None;
          Tool.apktoolJar := Some "/opt/oneane/tools/apktool_2.9.3.jar";
          Tool.out := Some "/opt/oneane/src/python/.auth_key"; Tool.json := false |}.
Proof.
  assert (H : ~ In "--out" ["--smali"; "--json"; "--search-root"]).
  { intros H. repeat (destruct H as [H|H]; [discriminate H|]). exact H. }
  split; [exact H|]. split; [|reflexivity].
  exact (proj1 (proj2 (proj2 (proj2 (proj2
           (parseArgs_keeps_defaults toolPlatform ["--smali"; "--json"; "--search-root"])))))
           H).
Defined.

(** The tool refuses two keys that differ, and names the files of each. *)
Example selectKey_two_keys :
  Tool.selectKey
    (Tool.collectKeys [("/tmp/a.smali", ["S2V5"; "T3RoZXI="]); ("/tmp/b.smali", ["S2V5"])])
  = Tool.Failed
      (Tool.MultipleKeys
         ("S2V5: /tmp/a.smali, /tmp/b.smali" +:+ Log.chr 10 +:+ "T3RoZXI=: /tmp/a.smali")).
Proof. reflexivity. Qed.

(** A file directly under the root directory is refused by the tool when
    the root directory is the working directory, and accepted by
    [normalizeKeyPath]. *)
Example root_directory_as_root :
  let atRoot := {| Auth.cwd := "/"; Auth.homedir := "/root"; Auth.tmpdir := "/tmp";
                   Auth.dirname := "/opt/oneane/tools";
                   Auth.env_VAONIS_AUTH_KEY_FILE := None;
                   Auth.existsSync := fun _ => true;
                   Auth.readFileSync := fun _ => None |} in
  Tool.normalizeSafePath atRoot "/key" false = (Tool.Failed (Tool.PathOutsideRoots "/key"), [])
  /\ Tool.normalizeSafePath atRoot "/" false = (Tool.Done "/", [])
  /\ Auth.normalizeKeyPath atRoot "/key" = Ok "/key".
Proof. repeat split; reflexivity. Qed.

(** A colorized line: the key in blue, the number in cyan. *)
Example colorizeJsonLine_number :
  Log.colorizeJsonLine ("  " +:+ Reference.quote +:+ "n" +:+ Reference.quote +:+ ": 2,")
  = "  " +:+ Log.ANSI_BLUE +:+ Reference.quote +:+ "n" +:+ Reference.quote
    +:+ Log.ANSI_RESET +:+ ": " +:+ Log.ANSI_CYAN +:+ "2" +:+ Log.ANSI_RESET +:+ ",".
Proof. reflexivity. Qed.

End FurtherRuns.
